(** * A shallow embedding of the G-Assist Flux plugin (src/plugin.py)

    The development follows the layout of the Python module:

    - [Py]         the JSON values the plugin receives and the Python
                   operations it applies to them (truthiness, [in],
                   subscripting, [.get], [int()], [==]), with exceptions
                   as an error monad;
    - [Envelope]   the response envelopes ([generate_*_response]);
    - [Float64]    binary64 division, product and truncation;
    - [Sample]     a concrete runtime for evaluating examples;
    - [Kontext]    the [generate_image_using_kontext] and [generate_image]
                   command handlers and [load_config];
    - [Normalizer] the scale-and-crop geometry of [prepare_image_for_*];
    - [Transport]  [read_command] and [write_response];
    - [Router]     [main], [execute_initialize_command] and the command
                   table;
    - [Monitor]    [execute_comfyui_workflow]: the event-stream loop and
                   the history fallback;
    - [Workflow]   the two workflow templates, [copy.deepcopy] on a store
                   of objects, and the two [modify_*] functions;
    - [Gallery]    [find_most_recent_image];
    - [Pipeline]   the InvokeAI worker with [upload_image_to_invoke];
    - [Health]     the two [*_ready_check] handlers;
    - [Containers] [check_nim_status], [start_nim] and their Kontext
                   twins.

    Library calls whose result is decided outside the module (the text of
    [str(x)], the JSON codec, [int()] on a string) are gathered in the
    [Runtime] class; everything else is computed.  Logging is left out:
    no statement of the module reads the log. *)

From Stdlib Require Import ZArith Lia Bool String Ascii.
From Stdlib.Strings Require Import Byte.
From stdpp Require Import base tactics option list numbers strings pretty.

Set Warnings "-register-all".

(* ================================================================== *)
(** ** Python values and operations *)
(* ================================================================== *)

Module Py.

Local Open Scope Z_scope.

(** A Python [float]: [FFinite m e] is the real number [m * 2^e]. *)
Inductive pyfloat : Type :=
| FFinite (m e : Z)
| FInf (negative : bool)
| FNaN.

(** What [json.loads] can return.  A [dict] keeps its items in insertion
    order; keys are unique after parsing and lookups take the first
    binding. *)
Inductive json : Type :=
| JNull
| JBool (b : bool)
| JInt (z : Z)
| JFloat (x : pyfloat)
| JStr (s : string)
| JList (items : list json)
| JDict (items : list (string * json)).

Inductive exn : Type :=
| TypeError | ValueError | KeyError | IndexError | AttributeError
| OverflowError | JSONDecodeError | UnicodeDecodeError
| ZeroDivisionError | HTTPError | ConnectionError | Timeout
| WebSocketException | OSError | RuntimeError.

Inductive result (A : Type) : Type :=
| Ok (a : A)
| Raise (e : exn).
Arguments Ok {A} a.
Arguments Raise {A} e.

Definition bind {A B} (m : result A) (k : A -> result B) : result B :=
  match m with
  | Ok a => k a
  | Raise e => Raise e
  end.

Notation "'do' x <- m ; k" := (bind m (fun x => k))
  (at level 10, x name, m at level 100, k at level 200).

Definition is_ok {A} (m : result A) : bool :=
  match m with Ok _ => true | Raise _ => false end.

(** [bool(v)]. *)
Definition truthy (v : json) : bool :=
  match v with
  | JNull => false
  | JBool b => b
  | JInt z => negb (z =? 0)
  | JFloat (FFinite m _) => negb (m =? 0)
  | JFloat _ => true
  | JStr s => negb (String.eqb s "")
  | JList l => match l with [] => false | _ => true end
  | JDict l => match l with [] => false | _ => true end
  end.

Fixpoint assoc {A} (k : string) (kvs : list (string * A)) : option A :=
  match kvs with
  | [] => None
  | (k', v) :: rest => if String.eqb k k' then Some v else assoc k rest
  end.

(** [d.get(k, default)] on a dict. *)
Definition dict_get (kvs : list (string * json)) (k : string) (default : json) : json :=
  match assoc k kvs with
  | Some v => v
  | None => default
  end.

(** [d[k] = v] on a dict: replaces the binding in place or appends it. *)
Fixpoint dict_set {A} (k : string) (v : A) (kvs : list (string * A)) : list (string * A) :=
  match kvs with
  | [] => [(k, v)]
  | (k', v') :: rest =>
      if String.eqb k k' then (k', v) :: rest else (k', v') :: dict_set k v rest
  end.

(** [x.get(k, default)] on an arbitrary value: only a dict has the method. *)
Definition get_method (x : json) (k : string) (default : json) : result json :=
  match x with
  | JDict kvs => Ok (dict_get kvs k default)
  | _ => Raise AttributeError
  end.

(** [needle in hay] on two strings. *)
Fixpoint substring (needle hay : string) : bool :=
  String.prefix needle hay ||
  match hay with
  | EmptyString => false
  | String _ rest => substring needle rest
  end.

(** The characters of a string, each as a string of length one. *)
Fixpoint chars (s : string) : list string :=
  match s with
  | EmptyString => []
  | String c rest => String c EmptyString :: chars rest
  end.

(** The numeric tower under [==]: [bool] and [int] are exact integers, a
    finite [float] is [m * 2^e]. *)
Definition number (v : json) : option pyfloat :=
  match v with
  | JBool b => Some (FFinite (if b then 1 else 0) 0)
  | JInt z => Some (FFinite z 0)
  | JFloat x => Some x
  | _ => None
  end.

Definition float_eq (x y : pyfloat) : bool :=
  match x, y with
  | FFinite m1 e1, FFinite m2 e2 =>
      let e := Z.min e1 e2 in
      m1 * 2 ^ (e1 - e) =? m2 * 2 ^ (e2 - e)
  | FInf s, FInf t => Bool.eqb s t
  | _, _ => false
  end.

(** [a == b] on parsed JSON values. *)
Fixpoint py_eq (a b : json) : bool :=
  match a, b with
  | JNull, JNull => true
  | JStr s, JStr t => String.eqb s t
  | JList xs, JList ys =>
      (fix go (xs ys : list json) : bool :=
         match xs, ys with
         | [], [] => true
         | x :: xs', y :: ys' => py_eq x y && go xs' ys'
         | _, _ => false
         end) xs ys
  | JDict kvs, JDict kvs' =>
      (length kvs =? length kvs')%nat &&
      (fix go (kvs : list (string * json)) : bool :=
         match kvs with
         | [] => true
         | (k, v) :: rest =>
             match assoc k kvs' with
             | Some v' => py_eq v v' && go rest
             | None => false
             end
         end) kvs
  | (JBool _ | JInt _ | JFloat _), (JBool _ | JInt _ | JFloat _) =>
      match number a, number b with
      | Some x, Some y => float_eq x y
      | _, _ => false
      end
  | _, _ => false
  end.

(** Lists and dicts cannot be hashed, so they cannot be looked up in a
    dict. *)
Definition hashable (v : json) : bool :=
  match v with
  | JList _ | JDict _ => false
  | _ => true
  end.

(** [x in c]. *)
Definition contains (c x : json) : result bool :=
  match c with
  | JDict kvs =>
      match x with
      | JStr k => Ok (match assoc k kvs with Some _ => true | None => false end)
      | _ => if hashable x then Ok false else Raise TypeError
      end
  | JList items => Ok (existsb (py_eq x) items)
  | JStr hay =>
      match x with
      | JStr needle => Ok (substring needle hay)
      | _ => Raise TypeError
      end
  | _ => Raise TypeError
  end.

(** A Python index into a sequence of length [n]. *)
Definition index_of (v : json) : option Z :=
  match v with
  | JInt z => Some z
  | JBool b => Some (if b then 1 else 0)
  | _ => None
  end.

Definition at_index {A} (items : list A) (i : Z) : result A :=
  let n := Z.of_nat (length items) in
  let j := if i <? 0 then i + n else i in
  if (j <? 0) || (n <=? j) then Raise IndexError
  else match nth_error items (Z.to_nat j) with
       | Some a => Ok a
       | None => Raise IndexError
       end.

(** [c[x]]. *)
Definition getitem (c x : json) : result json :=
  match c with
  | JDict kvs =>
      match x with
      | JStr k => match assoc k kvs with Some v => Ok v | None => Raise KeyError end
      | _ => if hashable x then Raise KeyError else Raise TypeError
      end
  | JList items =>
      match index_of x with
      | Some i => at_index items i
      | None => Raise TypeError
      end
  | JStr s =>
      match index_of x with
      | Some i => do ch <- at_index (chars s) i; Ok (JStr ch)
      | None => Raise TypeError
      end
  | _ => Raise TypeError
  end.

(** [for x in c]: the values the loop visits. *)
Definition iterate (c : json) : result (list json) :=
  match c with
  | JList items => Ok items
  | JDict kvs => Ok (map (fun kv => JStr (fst kv)) kvs)
  | JStr s => Ok (map JStr (chars s))
  | _ => Raise TypeError
  end.

(** [len(c)]. *)
Definition py_len (c : json) : result nat :=
  match c with
  | JList items => Ok (length items)
  | JDict kvs => Ok (length kvs)
  | JStr s => Ok (String.length s)
  | _ => Raise TypeError
  end.

(** [int(x)] on a float: truncation toward zero; the exponent shifts. *)
Definition trunc_float (m e : Z) : Z :=
  if 0 <=? e then m * 2 ^ e else Z.quot m (2 ^ (- e)).

(** Library calls that the module does not decide. *)
Class Runtime : Type := {
  (** [int(s)] for a [str]; [None] stands for [ValueError]. *)
  int_of_str : string -> option Z;
  (** [str(v)], as an f-string formats a value. *)
  py_str : json -> string;
  (** [str(e)] for a caught exception. *)
  str_exn : exn -> string;
  (** [s.upper()]. *)
  str_upper : string -> string;
  (** [json.loads(text)] on a text given by its code points; [None]
      stands for [json.JSONDecodeError]. *)
  json_loads : list N -> option json;
  (** [json.dumps(s)] for a [str]: the quoted, escaped literal. *)
  json_dumps_str : string -> string;
  (** Formatting a [str] gives the string itself. *)
  py_str_str : forall s, py_str (JStr s) = s
}.

Section WithRuntime.
Context `{Runtime}.

(** [int(x)]. *)
Definition py_int (x : json) : result Z :=
  match x with
  | JInt z => Ok z
  | JBool b => Ok (if b then 1 else 0)
  | JFloat (FFinite m e) => Ok (trunc_float m e)
  | JFloat (FInf _) => Raise OverflowError
  | JFloat FNaN => Raise ValueError
  | JStr s => match int_of_str s with Some z => Ok z | None => Raise ValueError end
  | JNull | JList _ | JDict _ => Raise TypeError
  end.

(** [x.upper()]: a [str] method. *)
Definition upper_method (x : json) : result string :=
  match x with
  | JStr s => Ok (str_upper s)
  | _ => Raise AttributeError
  end.

End WithRuntime.

End Py.

(* ================================================================== *)
(** ** Response envelopes *)
(* ================================================================== *)

Module Envelope.

(** The dict built by [generate_failure_response] and
    [generate_success_response]: the key ["success"], and ["message"]
    when a non-empty message was given. *)
Record Response : Type := mkResponse {
  success : bool;
  message : option string
}.

Definition message_field (message : option string) : option string :=
  match message with
  | Some s => if String.eqb s "" then None else Some s
  | None => None
  end.

Definition generate_failure_response (message : option string) : Response :=
  {| success := false; message := message_field message |}.

Definition generate_success_response (message : option string) : Response :=
  {| success := true; message := message_field message |}.

End Envelope.

(* ================================================================== *)
(** ** Binary64 arithmetic, as far as the normalizer uses it *)
(* ================================================================== *)

Module Float64.
Import Py.
Local Open Scope Z_scope.

(** The binary64 number nearest to [n / d] for positive [n] and [d],
    ties to even: 53 significant bits, exponent of the last place at
    least [-1074], infinity above the largest finite value. *)
Definition round_pos (n d : Z) : pyfloat :=
  let k := Z.log2 n - Z.log2 d in
  let below := if 0 <=? k then n <? d * 2 ^ k else n * 2 ^ (- k) <? d in
  let top := if below then k - 1 else k in
  let e := Z.max (top - 52) (-1074) in
  let num := if e <=? 0 then n * 2 ^ (- e) else n in
  let den := if e <=? 0 then d else d * 2 ^ e in
  let q := num / den in
  let r := num mod den in
  let m := if 2 * r <? den then q
           else if den <? 2 * r then q + 1
           else if Z.even q then q else q + 1 in
  let m' := if m =? 2 ^ 53 then 2 ^ 52 else m in
  let e' := if m =? 2 ^ 53 then e + 1 else e in
  if 971 <? e' then FInf false else FFinite m' e'.

Definition fneg (x : pyfloat) : pyfloat :=
  match x with
  | FFinite m e => FFinite (- m) e
  | FInf s => FInf (negb s)
  | FNaN => FNaN
  end.

(** The nearest binary64 number to the rational [n / d], [d > 0]. *)
Definition round_ratio (n d : Z) : pyfloat :=
  if n =? 0 then FFinite 0 0
  else if 0 <? n then round_pos n d
  else fneg (round_pos (- n) d).

(** A conversion from [int] that leaves the finite range raises. *)
Definition finite_or_overflow (x : pyfloat) : result pyfloat :=
  match x with
  | FFinite _ _ => Ok x
  | _ => Raise OverflowError
  end.

(** [a / b] on two [int]s: correctly rounded true division. *)
Definition truediv (a b : Z) : result pyfloat :=
  if b =? 0 then Raise ZeroDivisionError
  else if 0 <? b then finite_or_overflow (round_ratio a b)
  else finite_or_overflow (round_ratio (- a) (- b)).

(** [float(z)], the conversion applied to the [int] operand of a mixed
    product. *)
Definition of_int (z : Z) : result pyfloat := finite_or_overflow (round_ratio z 1).

(** [x * y]. *)
Definition fmul (x y : pyfloat) : pyfloat :=
  match x, y with
  | FNaN, _ | _, FNaN => FNaN
  | FInf s, FInf t => FInf (xorb s t)
  | FInf s, FFinite m _ | FFinite m _, FInf s =>
      if m =? 0 then FNaN else FInf (xorb s (m <? 0))
  | FFinite m1 e1, FFinite m2 e2 =>
      let e := e1 + e2 in
      if 0 <=? e then round_ratio (m1 * m2 * 2 ^ e) 1
      else round_ratio (m1 * m2) (2 ^ (- e))
  end.

(** [z * x] with an [int] on the left. *)
Definition int_times (z : Z) (x : pyfloat) : result pyfloat :=
  do fz <- of_int z; Ok (fmul fz x).

(** [y > x] on finite values and infinities; false with a NaN. *)
Definition fgt (y x : pyfloat) : bool :=
  match y, x with
  | FNaN, _ | _, FNaN => false
  | FInf s, FInf t => negb s && t
  | FInf s, FFinite _ _ => negb s
  | FFinite _ _, FInf t => t
  | FFinite m1 e1, FFinite m2 e2 =>
      let e := Z.min e1 e2 in
      m2 * 2 ^ (e2 - e) <? m1 * 2 ^ (e1 - e)
  end.

(** [max(x, y)]: the first argument unless the second is greater. *)
Definition fmax (x y : pyfloat) : pyfloat := if fgt y x then y else x.

(** [int(x)]. *)
Definition to_int (x : pyfloat) : result Z :=
  match x with
  | FFinite m e => Ok (trunc_float m e)
  | FInf _ => Raise OverflowError
  | FNaN => Raise ValueError
  end.

End Float64.

(* ================================================================== *)
(** ** A concrete runtime for evaluating the model *)
(* ================================================================== *)

Module Sample.
Import Py.
Local Open Scope string_scope.
Local Open Scope Z_scope.

Definition digit_of (c : ascii) : option Z :=
  let n := Z.of_nat (nat_of_ascii c) in
  if (48 <=? n) && (n <=? 57) then Some (n - 48) else None.

Fixpoint digits_value (s : string) (acc : Z) : option Z :=
  match s with
  | EmptyString => Some acc
  | String c rest =>
      match digit_of c with
      | Some d => digits_value rest (10 * acc + d)
      | None => None
      end
  end.

(** Signed decimal literals: the part of [int(str)] the examples use. *)
Definition decimal_of_str (s : string) : option Z :=
  match s with
  | EmptyString => None
  | String "-" (String c r) => option_map Z.opp (digits_value (String c r) 0)
  | String "+" (String c r) => digits_value (String c r) 0
  | _ => digits_value s 0
  end.

Definition upper_ascii (c : ascii) : ascii :=
  let n := nat_of_ascii c in
  if (97 <=? n)%nat && (n <=? 122)%nat then ascii_of_nat (n - 32) else c.

Fixpoint upper (s : string) : string :=
  match s with
  | EmptyString => EmptyString
  | String c rest => String (upper_ascii c) (upper rest)
  end.

Definition exn_name (e : exn) : string :=
  match e with
  | TypeError => "TypeError" | ValueError => "ValueError" | KeyError => "KeyError"
  | IndexError => "IndexError" | AttributeError => "AttributeError"
  | OverflowError => "OverflowError" | JSONDecodeError => "JSONDecodeError"
  | UnicodeDecodeError => "UnicodeDecodeError" | HTTPError => "HTTPError"
  | ZeroDivisionError => "ZeroDivisionError"
  | ConnectionError => "ConnectionError" | Timeout => "Timeout"
  | WebSocketException => "WebSocketException" | OSError => "OSError"
  | RuntimeError => "RuntimeError"
  end.

(** [str(v)] on the atoms the examples format; containers and floats are
    shown by a tag only. *)
Definition show (v : json) : string :=
  match v with
  | JNull => "None"
  | JBool true => "True"
  | JBool false => "False"
  | JInt z => pretty z
  | JStr s => s
  | JFloat _ => "<float>"
  | JList _ => "<list>"
  | JDict _ => "<dict>"
  end.

Definition text_of (s : string) : list N :=
  map (fun c => N.of_nat (nat_of_ascii c)) (list_ascii_of_string s).

Definition string_of_text (t : list N) : string :=
  string_of_list_ascii (map (fun n => ascii_of_nat (N.to_nat n)) t).

(** Scalar documents only: [null], [true], [false], decimal integers. *)
Definition loads_scalar (t : list N) : option json :=
  let s := string_of_text t in
  if String.eqb s "null" then Some JNull
  else if String.eqb s "true" then Some (JBool true)
  else if String.eqb s "false" then Some (JBool false)
  else option_map JInt (decimal_of_str s).

(** Quotes without escaping: exact on strings of plain letters. *)
Definition quote_plain (s : string) : string :=
  String (ascii_of_nat 34) (s +:+ String (ascii_of_nat 34) EmptyString).

(** A parser that knows the listed documents by heart and falls back on
    scalars. *)
Definition loads_from (docs : list (string * json)) (t : list N) : option json :=
  match assoc (string_of_text t) docs with
  | Some v => Some v
  | None => loads_scalar t
  end.

Definition runtime_for (docs : list (string * json)) : Runtime :=
  {| int_of_str := decimal_of_str;
     py_str := show;
     str_exn := exn_name;
     str_upper := upper;
     json_loads := loads_from docs;
     json_dumps_str := quote_plain;
     py_str_str := fun s => eq_refl |}.

Definition runtime : Runtime := runtime_for [].

End Sample.

(* ================================================================== *)
(** ** The [generate_image_using_kontext] command handler *)
(* ================================================================== *)

Module Kontext.
Import Py Envelope.
Local Open Scope string_scope.
Local Open Scope Z_scope.

(** The module-level configuration variables.  [config.get] stores
    whatever JSON value the file holds, so each one is a [json]. *)
Record Globals : Type := mkGlobals {
  GALLERY_DIRECTORY : json;
  NVIDIA_API_KEY : json;
  NGC_API_KEY : json;
  HF_TOKEN : json;
  LOCAL_NIM_CACHE : json;
  OUTPUT_DIRECTORY : json;
  FLUX_NIM_URL : json;
  INVOKEAI_URL : json;
  FLUX_KONTEXT_NIM_URL : json;
  COMFYUI_URL : json;
  FLUX_KONTEXT_INFERENCE_BACKEND : json;
  BOARD_ID : json
}.

Definition BUILD_NVIDIA_COM_FLUX_HOSTED_NIM : string :=
  "https://ai.api.nvidia.com/v1/genai/black-forest-labs/flux.1-dev".

(** The values the module assigns at import time; the default output
    directory is joined from the environment and is passed in. *)
Definition initial_globals (default_output_directory : string) : Globals :=
  {| GALLERY_DIRECTORY := JNull;
     NVIDIA_API_KEY := JNull;
     NGC_API_KEY := JNull;
     HF_TOKEN := JNull;
     LOCAL_NIM_CACHE := JNull;
     OUTPUT_DIRECTORY := JStr default_output_directory;
     FLUX_NIM_URL := JNull;
     INVOKEAI_URL := JStr "http://localhost:9090";
     FLUX_KONTEXT_NIM_URL := JStr "http://localhost:8011";
     COMFYUI_URL := JStr "http://localhost:8188";
     FLUX_KONTEXT_INFERENCE_BACKEND := JStr "NIM";
     BOARD_ID := JNull |}.

(** What [open(CONFIG_FILE)] followed by [json.load] meets. *)
Inductive ConfigFile : Type :=
| CfgMissing                (* FileNotFoundError *)
| CfgMalformed              (* json.JSONDecodeError *)
| CfgUnreadable             (* any other exception *)
| CfgJson (config : json).

(** [load_config]: every handled exception leaves the globals as they
    were; a parsed file that is not an object has no [.get], which is
    handled the same way before the first assignment. *)
Definition load_config (file : ConfigFile) (g : Globals) : Globals :=
  match file with
  | CfgJson (JDict config) =>
      {| GALLERY_DIRECTORY := dict_get config "GALLERY_DIRECTORY" JNull;
         NVIDIA_API_KEY := dict_get config "NVIDIA_API_KEY" JNull;
         NGC_API_KEY := dict_get config "NGC_API_KEY" JNull;
         HF_TOKEN := dict_get config "HF_TOKEN" JNull;
         LOCAL_NIM_CACHE := dict_get config "LOCAL_NIM_CACHE" JNull;
         OUTPUT_DIRECTORY := dict_get config "OUTPUT_DIRECTORY" (OUTPUT_DIRECTORY g);
         FLUX_NIM_URL :=
           dict_get config "FLUX_NIM_URL" (JStr BUILD_NVIDIA_COM_FLUX_HOSTED_NIM);
         INVOKEAI_URL := dict_get config "INVOKEAI_URL" (JStr "http://localhost:9090");
         FLUX_KONTEXT_NIM_URL :=
           dict_get config "FLUX_KONTEXT_NIM_URL" (JStr "http://localhost:8011");
         COMFYUI_URL := dict_get config "COMFYUI_URL" (JStr "http://localhost:8188");
         FLUX_KONTEXT_INFERENCE_BACKEND :=
           dict_get config "FLUX_KONTEXT_INFERENCE_BACKEND" (JStr "NIM");
         BOARD_ID := dict_get config "BOARD_ID" JNull |}
  | _ => g
  end.

(** The targets a handler hands to [threading.Thread]. *)
Inductive Worker : Type :=
| generate_image_worker
| generate_image_using_kontext_nim_worker
| generate_image_using_kontext_worker
| generate_image_using_comfyui_worker.

(** What a handler does to the world besides returning its envelope. *)
Inductive Event : Type :=
| EvLoadConfig
| EvThreadStart (target : Worker) (args : list json)
| EvNetwork (url : string).

Definition is_thread_start (e : Event) : bool :=
  match e with EvThreadStart _ _ => true | _ => false end.

Definition is_network (e : Event) : bool :=
  match e with EvNetwork _ => true | _ => false end.

Definition dquote : string := String (ascii_of_nat 34) EmptyString.

Section Handler.
Context `{Runtime}.

(** The acknowledgement sent once the worker thread is started. *)
Definition in_progress (label : string) (g : Globals) (prompt : json) : Response :=
  if truthy prompt then
    generate_success_response
      (Some ("Your " +:+ label +:+ " generation request is in progress! Using screenshot from: "
             +:+ py_str (GALLERY_DIRECTORY g) +:+ " with prompt: " +:+ dquote
             +:+ py_str prompt +:+ dquote))
  else
    generate_success_response
      (Some ("Your " +:+ label +:+ " generation request is in progress! Using screenshot from: "
             +:+ py_str (GALLERY_DIRECTORY g))).

Definition url_not_configured (backend url_name : string) : Response :=
  generate_failure_response
    (Some ("FLUX_KONTEXT_INFERENCE_BACKEND is set to '" +:+ backend +:+ "' but "
           +:+ url_name +:+ " is not configured. Please set " +:+ url_name
           +:+ " in config.json")).

(** The backend selection, reached only with validated [steps]. *)
Definition select_backend (g : Globals) (prompt : json) (steps : Z)
  : result (Response * list Event) :=
  do backend <- upper_method (FLUX_KONTEXT_INFERENCE_BACKEND g);
  if String.eqb backend "NIM" then
    if negb (truthy (FLUX_KONTEXT_NIM_URL g)) then
      Ok (url_not_configured "NIM" "FLUX_KONTEXT_NIM_URL", [])
    else
      Ok (in_progress "Flux Kontext NIM" g prompt,
          [EvThreadStart generate_image_using_kontext_nim_worker
             [GALLERY_DIRECTORY g; FLUX_KONTEXT_NIM_URL g; prompt; JInt steps]])
  else if String.eqb backend "INVOKEAI" then
    if negb (truthy (INVOKEAI_URL g)) then
      Ok (url_not_configured "INVOKEAI" "INVOKEAI_URL", [])
    else
      Ok (in_progress "InvokeAI Flux Kontext" g prompt,
          [EvThreadStart generate_image_using_kontext_worker
             [GALLERY_DIRECTORY g; INVOKEAI_URL g; BOARD_ID g; prompt; JInt steps]])
  else if String.eqb backend "COMFYUI" then
    if negb (truthy (COMFYUI_URL g)) then
      Ok (url_not_configured "COMFYUI" "COMFYUI_URL", [])
    else
      Ok (in_progress "ComfyUI Flux Kontext" g prompt,
          [EvThreadStart generate_image_using_comfyui_worker
             [GALLERY_DIRECTORY g; COMFYUI_URL g; prompt; JInt steps]])
  else
    Ok (generate_failure_response
          (Some ("Invalid FLUX_KONTEXT_INFERENCE_BACKEND value: '"
                 +:+ py_str (FLUX_KONTEXT_INFERENCE_BACKEND g)
                 +:+ "'. Must be one of: NIM, INVOKEAI, COMFYUI")), []).

(** [params.get(key, default) if params else default]. *)
Definition param (params : json) (key : string) (default : json) : result json :=
  if truthy params then get_method params key default else Ok default.

(** The inner [try: steps = int(steps) ... except (ValueError, TypeError)]. *)
Inductive StepsCheck : Type :=
| StepsOk (steps : Z)
| StepsRejected (r : Response)
| StepsRaises (e : exn).

Definition validate_steps (steps : json) : StepsCheck :=
  match py_int steps with
  | Ok n =>
      if (n <? 20) || (50 <? n) then
        StepsRejected
          (generate_failure_response (Some "Steps parameter must be between 20 and 50"))
      else StepsOk n
  | Raise ValueError | Raise TypeError =>
      StepsRejected
        (generate_failure_response (Some "Steps parameter must be an integer"))
  | Raise e => StepsRaises e
  end.

(** The body of the outer [try], after [load_config()]. *)
Definition kontext_body (g : Globals) (params : json) : result (Response * list Event) :=
  if negb (truthy (GALLERY_DIRECTORY g)) then
    Ok (generate_failure_response
          (Some "GALLERY_DIRECTORY not configured. Please set GALLERY_DIRECTORY in config.json"),
        [])
  else
    do prompt <- param params "prompt" (JStr "");
    do steps <- param params "steps" (JInt 30);
    match validate_steps steps with
    | StepsRejected r => Ok (r, [])
    | StepsRaises e => Raise e
    | StepsOk n => select_backend g prompt n
    end.

(** [generate_image_using_kontext(params, context, system_info)]: the
    envelope returned, the globals after the reload, and the effects in
    the order they happen. *)
Definition generate_image_using_kontext
    (file : ConfigFile) (g : Globals) (params context system_info : json)
  : Response * Globals * list Event :=
  let g' := load_config file g in
  match kontext_body g' params with
  | Ok (r, evs) => (r, g', EvLoadConfig :: evs)
  | Raise e =>
      (generate_failure_response
         (Some ("Error in generate_image_using_kontext: " +:+ str_exn e)),
       g', [EvLoadConfig])
  end.

End Handler.

(** *** Facts about the steps check *)

Section HandlerFacts.
Context `{Runtime}.

Lemma generate_failure_response_success m :
  success (generate_failure_response m) = false.
Proof. reflexivity. Qed.

Lemma param_present kvs key default v :
  assoc key kvs = Some v ->
  param (JDict kvs) key default = Ok v.
Proof.
  intros Hk. unfold param, get_method, dict_get.
  destruct kvs as [|kv kvs']; [discriminate|].
  simpl truthy. cbv iota. now rewrite Hk.
Qed.

Lemma param_dict kvs key default :
  param (JDict kvs) key default = Ok (dict_get kvs key default).
Proof. unfold param. destruct kvs; reflexivity. Qed.

(** What [validate_steps] decides is a matter of [int(steps)] alone. *)
Lemma validate_steps_ok steps n :
  validate_steps steps = StepsOk n <-> py_int steps = Ok n /\ 20 <= n <= 50.
Proof.
  unfold validate_steps. split.
  - destruct (py_int steps) as [k|e] eqn:E.
    + destruct ((k <? 20) || (50 <? k)) eqn:R; [discriminate|].
      intros [= <-]. apply orb_false_iff in R as [R1 R2].
      apply Z.ltb_ge in R1, R2. split; [reflexivity|lia].
    + destruct e; discriminate.
  - intros [-> Hn].
    replace ((n <? 20) || (50 <? n)) with false; [reflexivity|].
    symmetry. apply orb_false_iff. split; apply Z.ltb_ge; lia.
Qed.

Lemma validate_steps_not_ok steps :
  (forall n, py_int steps = Ok n -> n < 20 \/ 50 < n) ->
  (exists r, validate_steps steps = StepsRejected r /\ success r = false)
  \/ (exists e, validate_steps steps = StepsRaises e).
Proof.
  intros Hbad. destruct (validate_steps steps) as [n|r|e] eqn:E.
  - apply validate_steps_ok in E as [E Hn]. specialize (Hbad n E). lia.
  - left. exists r. split; [reflexivity|].
    unfold validate_steps in E. destruct (py_int steps) as [k|e].
    + destruct ((k <? 20) || (50 <? k)); [|discriminate]. now injection E as <-.
    + destruct e; try discriminate; now injection E as <-.
  - right. now exists e.
Qed.

End HandlerFacts.

(** *** The steps check comes before any thread or network call *)

(** A configured gallery directory and the stock backend settings. *)
Definition configured_globals : Globals :=
  {| GALLERY_DIRECTORY := JStr "C:/Users/me/Videos/Captures";
     NVIDIA_API_KEY := JNull;
     NGC_API_KEY := JNull;
     HF_TOKEN := JNull;
     LOCAL_NIM_CACHE := JNull;
     OUTPUT_DIRECTORY := JStr "C:/Users/me/flux_output";
     FLUX_NIM_URL := JNull;
     INVOKEAI_URL := JStr "http://localhost:9090";
     FLUX_KONTEXT_NIM_URL := JStr "http://localhost:8011";
     COMFYUI_URL := JStr "http://localhost:8188";
     FLUX_KONTEXT_INFERENCE_BACKEND := JStr "NIM";
     BOARD_ID := JNull |}.

(** C1 (as amended).  When [params] holds a ["steps"] value that [int()]
    cannot convert, or whose converted value lies outside [20,50], the
    handler returns a failure envelope and its only effect is the
    configuration reload: no worker thread is started and no network call
    is made. *)
Theorem bad_steps_rejected_before_any_thread `{Runtime}
    (file : ConfigFile) (g : Globals) (kvs : list (string * json))
    (context system_info v : json) :
  assoc "steps" kvs = Some v ->
  (forall n, py_int v = Ok n -> n < 20 \/ 50 < n) ->
  let out := generate_image_using_kontext file g (JDict kvs) context system_info in
  success (out.1.1) = false /\ out.2 = [EvLoadConfig].
Proof.
  intros Hsteps Hbad out. subst out.
  unfold generate_image_using_kontext, kontext_body.
  destruct (negb (truthy (GALLERY_DIRECTORY (load_config file g)))).
  { split; reflexivity. }
  rewrite param_dict. cbn [bind].
  rewrite (param_present _ _ _ _ Hsteps). cbn [bind].
  destruct (validate_steps_not_ok v Hbad) as [(r & -> & Hr)|(e & ->)].
  - cbn. split; [exact Hr|reflexivity].
  - split; reflexivity.
Qed.

Lemma bad_steps_rejected_witness :
  let kvs := [("prompt", JStr "make it snow"); ("steps", JInt 10)] in
  assoc "steps" kvs = Some (JInt 10) /\
  (forall n, py_int (H := Sample.runtime) (JInt 10) = Ok n -> n < 20 \/ 50 < n) /\
  let out := generate_image_using_kontext (H := Sample.runtime) CfgMissing
               configured_globals (JDict kvs) JNull JNull in
  success (out.1.1) = false /\ out.2 = [EvLoadConfig].
Proof.
  assert (H10 : forall n, py_int (H := Sample.runtime) (JInt 10) = Ok n -> n < 20 \/ 50 < n).
  { intros n [= <-]. lia. }
  split; [reflexivity|]. split; [exact H10|].
  apply (bad_steps_rejected_before_any_thread (H := Sample.runtime)
           CfgMissing configured_globals
           [("prompt", JStr "make it snow"); ("steps", JInt 10)] JNull JNull (JInt 10));
    [reflexivity | exact H10].
Defined.

(** C1 (as stated) fails.  The JSON number [50.5] is neither an integer
    nor inside [20,50]; [int()] truncates it to [50], the range check
    passes, and the NIM worker thread is started with [steps = 50]. *)
Lemma fractional_steps_start_a_thread :
  let steps := JFloat (FFinite 101 (-1)) in
  let out := generate_image_using_kontext (H := Sample.runtime) CfgMissing
               configured_globals (JDict [("steps", steps)]) JNull JNull in
  (forall n, steps <> JInt n) /\
  success (out.1.1) = true /\
  out.2 = [EvLoadConfig;
           EvThreadStart generate_image_using_kontext_nim_worker
             [JStr "C:/Users/me/Videos/Captures"; JStr "http://localhost:8011";
              JStr ""; JInt 50]].
Proof.
  cbv zeta. split; [intros n; discriminate|].
  split; vm_compute; reflexivity.
Qed.

(** *** Further properties of the handler and of [load_config] *)

Section HandlerProperties.
Context `{Runtime}.

Lemma in_progress_success label g prompt : success (in_progress label g prompt) = true.
Proof. unfold in_progress. destruct (truthy prompt); reflexivity. Qed.

(** What a thread is started with, once the steps are validated. *)
Lemma select_backend_outcome g prompt n r evs :
  select_backend g prompt n = Ok (r, evs) ->
  if success r then
    exists target args,
      evs = [EvThreadStart target args] /\
      hd JNull args = GALLERY_DIRECTORY g /\
      List.last args JNull = JInt n /\
      nth 1 args JNull <> JNull
  else evs = [].
Proof.
  unfold select_backend. destruct (upper_method _) as [backend|e]; [|discriminate].
  cbn [bind].
  destruct (String.eqb backend "NIM").
  { destruct (truthy (FLUX_KONTEXT_NIM_URL g)) eqn:Hu; cbn [negb]; intros [= <- <-].
    - rewrite in_progress_success. eexists _, _. repeat split. cbn.
      intros E. rewrite E in Hu. discriminate.
    - reflexivity. }
  destruct (String.eqb backend "INVOKEAI").
  { destruct (truthy (INVOKEAI_URL g)) eqn:Hu; cbn [negb]; intros [= <- <-].
    - rewrite in_progress_success. eexists _, _. repeat split. cbn.
      intros E. rewrite E in Hu. discriminate.
    - reflexivity. }
  destruct (String.eqb backend "COMFYUI").
  { destruct (truthy (COMFYUI_URL g)) eqn:Hu; cbn [negb]; intros [= <- <-].
    - rewrite in_progress_success. eexists _, _. repeat split. cbn.
      intros E. rewrite E in Hu. discriminate.
    - reflexivity. }
  intros [= <- <-]. reflexivity.
Qed.

(** The URL global a worker is started with, and the backend name that
    selects it. *)
Definition backend_url (g : Globals) (target : Worker) : json :=
  match target with
  | generate_image_worker => FLUX_NIM_URL g
  | generate_image_using_kontext_nim_worker => FLUX_KONTEXT_NIM_URL g
  | generate_image_using_kontext_worker => INVOKEAI_URL g
  | generate_image_using_comfyui_worker => COMFYUI_URL g
  end.

Definition backend_name (target : Worker) : string :=
  match target with
  | generate_image_worker => ""
  | generate_image_using_kontext_nim_worker => "NIM"
  | generate_image_using_kontext_worker => "INVOKEAI"
  | generate_image_using_comfyui_worker => "COMFYUI"
  end.

(** The thread a validated request starts: the worker of the selected
    backend, with that backend's URL, which is set. *)
Lemma select_backend_thread g prompt n r evs :
  select_backend g prompt n = Ok (r, evs) ->
  if success r then
    exists target args,
      evs = [EvThreadStart target args] /\
      upper_method (FLUX_KONTEXT_INFERENCE_BACKEND g) = Ok (backend_name target) /\
      hd JNull args = GALLERY_DIRECTORY g /\
      nth 1 args JNull = backend_url g target /\
      truthy (backend_url g target) = true /\
      nth (length args - 2) args JNull = prompt /\
      List.last args JNull = JInt n
  else evs = [].
Proof.
  unfold select_backend. destruct (upper_method _) as [backend|e]; [|discriminate].
  cbn [bind].
  destruct (String.eqb backend "NIM") eqn:E1.
  { apply String.eqb_eq in E1. subst backend.
    destruct (truthy (FLUX_KONTEXT_NIM_URL g)) eqn:Hu; cbn [negb]; intros [= <- <-].
    - rewrite in_progress_success.
      exists generate_image_using_kontext_nim_worker. eexists. repeat split. exact Hu.
    - reflexivity. }
  destruct (String.eqb backend "INVOKEAI") eqn:E2.
  { apply String.eqb_eq in E2. subst backend.
    destruct (truthy (INVOKEAI_URL g)) eqn:Hu; cbn [negb]; intros [= <- <-].
    - rewrite in_progress_success.
      exists generate_image_using_kontext_worker. eexists. repeat split. exact Hu.
    - reflexivity. }
  destruct (String.eqb backend "COMFYUI") eqn:E3.
  { apply String.eqb_eq in E3. subst backend.
    destruct (truthy (COMFYUI_URL g)) eqn:Hu; cbn [negb]; intros [= <- <-].
    - rewrite in_progress_success.
      exists generate_image_using_comfyui_worker. eexists. repeat split. exact Hu.
    - reflexivity. }
  intros [= <- <-]. reflexivity.
Qed.

(** On every path the handler answers [success = true] exactly when it
    has started one worker thread: the worker of the backend the
    reloaded configuration selects.  That thread is given the gallery
    directory of the reloaded configuration, which is set, the service
    URL configured for that backend, which is set, and a step count
    between 20 and 50.  A failure envelope is never accompanied by a
    thread. *)
Theorem success_means_one_worker
    (file : ConfigFile) (g : Globals) (params context system_info : json) :
  let out := generate_image_using_kontext file g params context system_info in
  out.1.2 = load_config file g /\
  if success out.1.1 then
    exists target args steps,
      out.2 = [EvLoadConfig; EvThreadStart target args] /\
      upper_method (FLUX_KONTEXT_INFERENCE_BACKEND out.1.2) = Ok (backend_name target) /\
      hd JNull args = GALLERY_DIRECTORY out.1.2 /\
      truthy (GALLERY_DIRECTORY out.1.2) = true /\
      nth 1 args JNull = backend_url out.1.2 target /\
      truthy (backend_url out.1.2 target) = true /\
      List.last args JNull = JInt steps /\ 20 <= steps <= 50
  else out.2 = [EvLoadConfig].
Proof.
  cbv zeta. unfold generate_image_using_kontext, kontext_body.
  destruct (truthy (GALLERY_DIRECTORY (load_config file g))) eqn:Hg; cbn [negb];
    [|split; reflexivity].
  destruct (param params "prompt" (JStr "")) as [prompt|e]; cbn [bind];
    [|split; reflexivity].
  destruct (param params "steps" (JInt 30)) as [steps|e]; cbn [bind];
    [|split; reflexivity].
  destruct (validate_steps steps) as [n|r|e] eqn:Hv.
  - apply validate_steps_ok in Hv as [_ Hn].
    destruct (select_backend (load_config file g) prompt n) as [[r evs]|e] eqn:Hs;
      [|split; reflexivity].
    apply select_backend_thread in Hs. cbn [fst snd]. split; [reflexivity|].
    destruct (success r).
    + destruct Hs as (target & args & -> & Hname & Hhd & Hurl & Hset & _ & Hlast).
      exists target, args, n. repeat split; try assumption; lia.
    + now subst evs.
  - assert (Hr : success r = false).
    { unfold validate_steps in Hv. destruct (py_int steps) as [k|e].
      - destruct ((k <? 20) || (50 <? k)); [|discriminate]. now injection Hv as <-.
      - destruct e; try discriminate; now injection Hv as <-. }
    cbn [fst snd]. split; [reflexivity|]. now rewrite Hr.
  - split; reflexivity.
Qed.

(** Without a usable ["steps"] entry - [params] is [None], empty, or an
    object that has no such key - a started worker is given 30 steps. *)
Theorem default_steps_are_thirty
    (file : ConfigFile) (g : Globals) (params context system_info : json)
    (target : Worker) (args : list json) :
  truthy params = false \/ (exists kvs, params = JDict kvs /\ assoc "steps" kvs = None) ->
  In (EvThreadStart target args)
     (generate_image_using_kontext file g params context system_info).2 ->
  List.last args JNull = JInt 30.
Proof.
  intros Hparams Hin.
  assert (Hsteps : param params "steps" (JInt 30) = Ok (JInt 30)).
  { destruct Hparams as [Hf|(kvs & -> & Hk)].
    - unfold param. now rewrite Hf.
    - rewrite param_dict. unfold dict_get. now rewrite Hk. }
  unfold generate_image_using_kontext, kontext_body in Hin.
  destruct (negb (truthy (GALLERY_DIRECTORY (load_config file g)))).
  { cbn in Hin. destruct Hin as [Hin|[]]. discriminate. }
  destruct (param params "prompt" (JStr "")) as [prompt|e]; cbn [bind] in Hin.
  2:{ cbn in Hin. destruct Hin as [Hin|[]]. discriminate. }
  rewrite Hsteps in Hin. cbn [bind] in Hin.
  change (validate_steps (JInt 30)) with (StepsOk 30) in Hin.
  cbv beta iota in Hin.
  destruct (select_backend (load_config file g) prompt 30) as [[r evs]|e] eqn:Hs.
  - apply select_backend_outcome in Hs. cbn in Hin.
    destruct Hin as [Hin|Hin]; [discriminate|].
    destruct (success r).
    + destruct Hs as (target' & args' & -> & _ & Hlast & _).
      destruct Hin as [[= <- <-]|[]]. exact Hlast.
    + subst evs. destruct Hin.
  - cbn in Hin. destruct Hin as [Hin|[]]. discriminate.
Qed.

End HandlerProperties.

Lemma default_steps_are_thirty_witness :
  exists target args,
    truthy (JDict [("prompt", JStr "make it snow")]) = true /\
    In (EvThreadStart target args)
       (generate_image_using_kontext (H := Sample.runtime) CfgMissing configured_globals
          (JDict [("prompt", JStr "make it snow")]) JNull JNull).2 /\
    List.last args JNull = JInt 30.
Proof.
  exists generate_image_using_kontext_nim_worker,
    [JStr "C:/Users/me/Videos/Captures"; JStr "http://localhost:8011";
     JStr "make it snow"; JInt 30].
  assert (Hin : In (EvThreadStart generate_image_using_kontext_nim_worker
                      [JStr "C:/Users/me/Videos/Captures"; JStr "http://localhost:8011";
                       JStr "make it snow"; JInt 30])
                   (generate_image_using_kontext (H := Sample.runtime) CfgMissing
                      configured_globals (JDict [("prompt", JStr "make it snow")])
                      JNull JNull).2).
  { right. left. reflexivity. }
  split; [reflexivity|]. split; [exact Hin|].
  apply (default_steps_are_thirty (H := Sample.runtime) CfgMissing configured_globals
           (JDict [("prompt", JStr "make it snow")]) JNull JNull
           generate_image_using_kontext_nim_worker).
  - right. exists [("prompt", JStr "make it snow")]. split; reflexivity.
  - exact Hin.
Defined.

Lemma dict_get_default_idem kvs k x :
  dict_get kvs k (dict_get kvs k x) = dict_get kvs k x.
Proof. unfold dict_get. destruct (assoc k kvs); reflexivity. Qed.

(** Reloading the same file twice is reloading it once, and a file that
    is missing, unreadable, malformed, or holds anything but a JSON
    object leaves every global as it was. *)
Theorem load_config_idempotent (file : ConfigFile) (g : Globals) :
  load_config file (load_config file g) = load_config file g /\
  match file with
  | CfgJson (JDict _) => True
  | _ => load_config file g = g
  end.
Proof.
  split.
  - destruct file as [| | |[| | | | | |config]]; try reflexivity.
    cbn [load_config OUTPUT_DIRECTORY]. now rewrite dict_get_default_idem.
  - destruct file as [| | |[| | | | | |config]]; first [reflexivity|exact I].
Qed.

(** *** [generate_image]: the text-to-image handler *)

Definition HOSTED_PREFIX : string := "https://ai.api.nvidia.com".
Definition KEY_PLACEHOLDER : string := "YOUR_NVIDIA_API_KEY_HERE".
Definition KEY_PREFIX : string := "nvapi-".
Definition DEFAULT_PROMPT : string := "A beautiful landscape with mountains and a lake".

(** [x.startswith(prefix)]: a [str] method. *)
Definition startswith_method (x : json) (prefix : string) : result bool :=
  match x with
  | JStr s => Ok (String.prefix prefix s)
  | _ => Raise AttributeError
  end.

(** [not NVIDIA_API_KEY or NVIDIA_API_KEY == "YOUR_NVIDIA_API_KEY_HERE"
    or not NVIDIA_API_KEY.startswith("nvapi-")]. *)
Definition key_rejected (key : json) : result bool :=
  if negb (truthy key) then Ok true
  else if py_eq key (JStr KEY_PLACEHOLDER) then Ok true
  else do ok <- startswith_method key KEY_PREFIX; Ok (negb ok).

Section ImageHandler.
Context `{Runtime}.

(** What [os.makedirs(OUTPUT_DIRECTORY, exist_ok=True)] comes to:
    [None] when it returns. *)
Variable makedirs : json -> option exn.

Definition image_in_progress (prompt : json) : Response :=
  generate_success_response
    (Some ("Your image generation request is in progress! Prompt: " +:+ dquote
           +:+ py_str prompt +:+ dquote)).

(** The body of the outer [try], after [load_config()]. *)
Definition image_body (g : Globals) (params : json) : result (Response * list Event) :=
  do hosted <- startswith_method (FLUX_NIM_URL g) HOSTED_PREFIX;
  do rejected <- (if hosted then key_rejected (NVIDIA_API_KEY g) else Ok false);
  if rejected then
    Ok (generate_failure_response
          (Some ("NVIDIA API key not configured or invalid. Please set a valid NVIDIA_API_KEY (starting with "
                 +:+ dquote +:+ "nvapi-" +:+ dquote +:+ ") in config.json")), [])
  else
    do given <- param params "prompt" (JStr "");
    let prompt := if negb (truthy given) then JStr DEFAULT_PROMPT else given in
    match makedirs (OUTPUT_DIRECTORY g) with
    | Some OSError =>
        Ok (generate_failure_response
              (Some ("Failed to create output directory '" +:+ py_str (OUTPUT_DIRECTORY g)
                     +:+ "': " +:+ str_exn OSError
                     +:+ ". Please check the path and permissions.")), [])
    | Some e => Raise e
    | None =>
        Ok (image_in_progress prompt,
            [EvThreadStart generate_image_worker
               [prompt; OUTPUT_DIRECTORY g; FLUX_NIM_URL g; NVIDIA_API_KEY g]])
    end.

(** [generate_image(params, context, system_info)]. *)
Definition generate_image
    (file : ConfigFile) (g : Globals) (params context system_info : json)
  : Response * Globals * list Event :=
  let g' := load_config file g in
  match image_body g' params with
  | Ok (r, evs) => (r, g', EvLoadConfig :: evs)
  | Raise e =>
      (generate_failure_response (Some ("Error in generate_image: " +:+ str_exn e)),
       g', [EvLoadConfig])
  end.

(** The prompt the worker is given. *)
Definition effective_prompt (params : json) : json :=
  match params with
  | JDict kvs =>
      let given := dict_get kvs "prompt" (JStr "") in
      if truthy given then given else JStr DEFAULT_PROMPT
  | _ => JStr DEFAULT_PROMPT
  end.

(** The conditions under which the request goes through. *)
Definition image_request_ok (g : Globals) (params : json) : Prop :=
  (exists url, FLUX_NIM_URL g = JStr url /\
     (String.prefix HOSTED_PREFIX url = true ->
      exists key, NVIDIA_API_KEY g = JStr key /\ String.prefix KEY_PREFIX key = true)) /\
  (truthy params = false \/ exists kvs, params = JDict kvs) /\
  makedirs (OUTPUT_DIRECTORY g) = None.

Lemma key_rejected_false key :
  key_rejected key = Ok false <->
  exists k, key = JStr k /\ String.prefix KEY_PREFIX k = true.
Proof.
  unfold key_rejected. split.
  - destruct (truthy key); cbn [negb]; [|discriminate].
    destruct (py_eq key (JStr KEY_PLACEHOLDER)); [discriminate|].
    destruct key as [| | | |k| |]; try discriminate. cbn [startswith_method bind].
    destruct (String.prefix KEY_PREFIX k) eqn:Hp; [|discriminate].
    intros _. now exists k.
  - intros (k & -> & Hp).
    assert (Ht : truthy (JStr k) = true).
    { destruct k; [discriminate Hp|reflexivity]. }
    rewrite Ht. cbn [negb py_eq].
    destruct (String.eqb_spec k KEY_PLACEHOLDER) as [->|_]; [discriminate Hp|].
    cbn [startswith_method bind]. now rewrite Hp.
Qed.

Lemma param_outcome params :
  (truthy params = false \/ exists kvs, params = JDict kvs) ->
  exists given, param params "prompt" (JStr "") = Ok given /\
    (if negb (truthy given) then JStr DEFAULT_PROMPT else given) = effective_prompt params.
Proof.
  unfold param. intros [Hf|(kvs & ->)].
  - rewrite Hf. exists (JStr ""). split; [reflexivity|].
    destruct params as [| | | | | |kvs]; try reflexivity.
    destruct kvs; [reflexivity|discriminate].
  - destruct (truthy (JDict kvs)) eqn:Ht.
    + exists (dict_get kvs "prompt" (JStr "")). split; [reflexivity|].
      cbn [effective_prompt]. now destruct (truthy (dict_get kvs "prompt" (JStr ""))).
    + exists (JStr ""). split; [reflexivity|].
      destruct kvs; [reflexivity|discriminate].
Qed.

Lemma param_raises params :
  ~ (truthy params = false \/ exists kvs, params = JDict kvs) ->
  is_ok (param params "prompt" (JStr "")) = false.
Proof.
  unfold param. intros Hn. destruct (truthy params) eqn:Ht; [|tauto].
  destruct params; try reflexivity. exfalso. apply Hn. right. eauto.
Qed.

(** What the body comes to. *)
Lemma image_body_outcome (g : Globals) (params : json) :
  match image_body g params with
  | Ok (r, evs) =>
      (success r = true <-> image_request_ok g params) /\
      evs = if success r
            then [EvThreadStart generate_image_worker
                    [effective_prompt params; OUTPUT_DIRECTORY g;
                     FLUX_NIM_URL g; NVIDIA_API_KEY g]]
            else []
  | Raise _ => ~ image_request_ok g params
  end.
Proof.
  unfold image_body, image_request_ok.
  destruct (FLUX_NIM_URL g) as [| | | |url| |] eqn:Hurl; cbn [startswith_method bind];
    try (intros ((u & Hu & _) & _); discriminate Hu).
  assert (Hkey : (if String.prefix HOSTED_PREFIX url then key_rejected (NVIDIA_API_KEY g)
                  else Ok false) = Ok false <->
                 (String.prefix HOSTED_PREFIX url = true ->
                  exists key, NVIDIA_API_KEY g = JStr key /\
                              String.prefix KEY_PREFIX key = true)).
  { destruct (String.prefix HOSTED_PREFIX url).
    - rewrite key_rejected_false. intuition.
    - split; [discriminate|reflexivity]. }
  destruct (if String.prefix HOSTED_PREFIX url then key_rejected (NVIDIA_API_KEY g)
            else Ok false) as [[|]|e]; cbn [bind].
  - split; [|reflexivity]. split; [discriminate|].
    intros ((u & [= <-] & Hk) & _). apply Hkey in Hk. discriminate Hk.
  - assert (Hk : String.prefix HOSTED_PREFIX url = true ->
                 exists key, NVIDIA_API_KEY g = JStr key /\
                             String.prefix KEY_PREFIX key = true) by now apply Hkey.
    assert (Hcase : (truthy params = false \/ exists kvs, params = JDict kvs) \/
                    ~ (truthy params = false \/ exists kvs, params = JDict kvs)).
    { destruct (truthy params) eqn:Ht; [|now left; left].
      destruct params; try (right; intros [Hf|(kvs & Hd)]; discriminate).
      left. right. eauto. }
    destruct Hcase as [Hp|Hp].
    + destruct (param_outcome params Hp) as (given & -> & Hgiven). cbn [bind].
      cbv zeta. rewrite Hgiven.
      destruct (makedirs (OUTPUT_DIRECTORY g)) as [e|] eqn:Hm.
      * destruct e; try (intros (_ & _ & Hd); discriminate Hd);
          (split; [split; [discriminate|intros (_ & _ & Hd); discriminate Hd]|reflexivity]).
      * split; [|reflexivity]. split; [|reflexivity].
        intros _. repeat split; [exists url; split; [reflexivity|exact Hk]|exact Hp].
    + pose proof (param_raises params Hp) as Hr.
      destruct (param params "prompt" (JStr "")); [discriminate|]. cbn [bind].
      intros (_ & Hp' & _). contradiction.
  - intros ((u & [= <-] & Hk) & _). apply Hkey in Hk. discriminate Hk.
Qed.

(** The handler answers [success = true] exactly when the endpoint is
    a string, the key is a string starting with [nvapi-] if the
    endpoint is the hosted one (any other endpoint is used without
    looking at the key), [params] is empty or an object, and the output
    directory could be created.  It then has started one worker, with
    the prompt given or, when that is missing or empty, the landscape
    prompt; in every other case it has started none. *)
Theorem image_request_starts_one_worker
    (file : ConfigFile) (g : Globals) (params context system_info : json) :
  let g' := load_config file g in
  let out := generate_image file g params context system_info in
  out.1.2 = g' /\
  (success out.1.1 = true <-> image_request_ok g' params) /\
  out.2 = if success out.1.1
          then [EvLoadConfig;
                EvThreadStart generate_image_worker
                  [effective_prompt params; OUTPUT_DIRECTORY g';
                   FLUX_NIM_URL g'; NVIDIA_API_KEY g']]
          else [EvLoadConfig].
Proof.
  cbv zeta. unfold generate_image.
  pose proof (image_body_outcome (load_config file g) params) as Hb.
  destruct (image_body (load_config file g) params) as [[r evs]|e]; cbn [fst snd].
  - destruct Hb as [Hiff ->]. split; [reflexivity|]. split; [exact Hiff|].
    now destruct (success r).
  - split; [reflexivity|]. split; [|reflexivity].
    split; [discriminate|]. intros Hok. contradiction.
Qed.

End ImageHandler.

End Kontext.

(* ================================================================== *)
(** ** The image normalizer *)
(* ================================================================== *)

Module Normalizer.
Import Py Float64.
Local Open Scope string_scope.
Local Open Scope Z_scope.

(** An image as far as the geometry goes: PIL's [size] and [mode]. *)
Record Image : Type := mkImage {
  width : Z;
  height : Z;
  mode : string
}.

(** The numbers computed between [img.size] and [scaled_img.crop]. *)
Record Geometry : Type := mkGeometry {
  new_width : Z;
  new_height : Z;
  left : Z;
  top : Z;
  right : Z;
  bottom : Z
}.

(** Lines 129-144 and 191-206, which are the same text in both
    functions. *)
Definition scale_and_crop (img_width img_height target_width target_height : Z)
  : result Geometry :=
  do sx <- truediv target_width img_width;
  do sy <- truediv target_height img_height;
  let scale := fmax sx sy in
  do fw <- int_times img_width scale;
  do new_width <- to_int fw;
  do fh <- int_times img_height scale;
  do new_height <- to_int fh;
  (* img.resize refuses a size with a component below 1 *)
  if (new_width <? 1) || (new_height <? 1) then Raise ValueError
  else
    let left := Z.max 0 ((new_width - target_width) / 2) in
    let top := Z.max 0 ((new_height - target_height) / 2) in
    let right := Z.min new_width (left + target_width) in
    let bottom := Z.min new_height (top + target_height) in
    Ok {| new_width := new_width; new_height := new_height;
          left := left; top := top; right := right; bottom := bottom |}.

(** [scaled_img.crop((left, top, right, bottom))]. *)
Definition crop (g : Geometry) : Image :=
  {| width := right g - left g; height := bottom g - top g; mode := "RGB" |}.

(** The image that [prepare_image_for_kontext] encodes as a data URI;
    [None] when the function returns [None].  [img] is what [Image.open]
    gives, [None] when it raises. *)
Definition prepare_image_for_kontext
    (img : option Image) (target_width target_height : Z) : option Image :=
  match img with
  | None => None
  | Some img =>
      match scale_and_crop (width img) (height img) target_width target_height with
      | Ok g => Some (crop g)
      | Raise _ => None
      end
  end.

(** The image that [prepare_image_for_comfyui] saves to the temporary
    file. *)
Definition prepare_image_for_comfyui
    (img : option Image) (target_width target_height : Z) : option Image :=
  match img with
  | None => None
  | Some img =>
      match scale_and_crop (width img) (height img) target_width target_height with
      | Ok g => Some (crop g)
      | Raise _ => None
      end
  end.

Definition default_target_width : Z := 1392.
Definition default_target_height : Z := 752.

(** *** Facts *)

Lemma bind_ok {A B} (m : result A) (k : A -> result B) (b : B) :
  bind m k = Ok b -> exists a, m = Ok a /\ k a = Ok b.
Proof. destruct m as [a|e]; [eauto|discriminate]. Qed.

(** The crop origins are never negative, and the crop box never leaves
    the scaled image. *)
Lemma scale_and_crop_origin iw ih tw th g :
  0 <= tw -> 0 <= th ->
  scale_and_crop iw ih tw th = Ok g ->
  0 <= left g <= right g /\ right g <= new_width g /\
  0 <= top g <= bottom g /\ bottom g <= new_height g.
Proof.
  intros Htw Hth Hg. unfold scale_and_crop in Hg.
  apply bind_ok in Hg as (sx & _ & Hg). apply bind_ok in Hg as (sy & _ & Hg).
  apply bind_ok in Hg as (fw & _ & Hg). apply bind_ok in Hg as (nw & _ & Hg).
  apply bind_ok in Hg as (fh & _ & Hg). apply bind_ok in Hg as (nh & _ & Hg).
  destruct (_ || _) eqn:Hsz in Hg; [discriminate|].
  apply orb_false_iff in Hsz as [Hw Hh].
  apply Z.ltb_ge in Hw, Hh.
  injection Hg as <-. cbn.
  assert ((nw - tw) / 2 <= nw) by (apply Z.div_le_upper_bound; lia).
  assert ((nh - th) / 2 <= nh) by (apply Z.div_le_upper_bound; lia).
  lia.
Qed.

(** The crop has the target size exactly when the scaled image covers
    the target. *)
Lemma crop_exact_iff iw ih tw th g :
  0 < tw -> 0 < th ->
  scale_and_crop iw ih tw th = Ok g ->
  (width (crop g) = tw /\ height (crop g) = th) <->
  (tw <= new_width g /\ th <= new_height g).
Proof.
  intros Htw Hth Hg. unfold scale_and_crop in Hg.
  apply bind_ok in Hg as (sx & _ & Hg). apply bind_ok in Hg as (sy & _ & Hg).
  apply bind_ok in Hg as (fw & _ & Hg). apply bind_ok in Hg as (nw & _ & Hg).
  apply bind_ok in Hg as (fh & _ & Hg). apply bind_ok in Hg as (nh & _ & Hg).
  destruct (_ || _) eqn:Hsz in Hg; [discriminate|].
  apply orb_false_iff in Hsz as [Hw Hh].
  apply Z.ltb_ge in Hw, Hh.
  injection Hg as <-. cbn.
  assert (Hdw : 0 <= nw - tw -> 0 <= (nw - tw) / 2 /\ 2 * ((nw - tw) / 2) <= nw - tw).
  { intros. split; [apply Z.div_pos; lia | apply Z.mul_div_le; lia]. }
  assert (Hdh : 0 <= nh - th -> 0 <= (nh - th) / 2 /\ 2 * ((nh - th) / 2) <= nh - th).
  { intros. split; [apply Z.div_pos; lia | apply Z.mul_div_le; lia]. }
  assert (Hnw : nw - tw < 0 -> (nw - tw) / 2 < 0) by (intros; apply Z.div_lt_upper_bound; lia).
  assert (Hnh : nh - th < 0 -> (nh - th) / 2 < 0) by (intros; apply Z.div_lt_upper_bound; lia).
  split.
  - intros [Ew Eh]. split.
    + destruct (Z.lt_ge_cases nw tw) as [Hlt|]; [|lia].
      specialize (Hnw ltac:(lia)). lia.
    + destruct (Z.lt_ge_cases nh th) as [Hlt|]; [|lia].
      specialize (Hnh ltac:(lia)). lia.
  - intros [Gw Gh].
    destruct (Hdw ltac:(lia)). destruct (Hdh ltac:(lia)). lia.
Qed.

(** C5.  A source image of 19 by 11 pixels, normalised to the default
    1392 by 752: the width ratio is the larger one, [1392 / 19] rounds
    down, [19 * scale] is [1391.9999999999998] and [int()] makes it 1391.
    The scaled image is one pixel too narrow, the left origin is clamped
    to 0, and both functions produce a 1391 by 752 image. *)
Theorem small_source_is_cropped_short :
  let source := {| width := 19; height := 11; mode := "RGB" |} in
  scale_and_crop 19 11 default_target_width default_target_height
  = Ok {| new_width := 1391; new_height := 805;
          left := 0; top := 26; right := 1391; bottom := 778 |} /\
  prepare_image_for_kontext (Some source) default_target_width default_target_height
  = Some {| width := 1391; height := 752; mode := "RGB" |} /\
  prepare_image_for_comfyui (Some source) default_target_width default_target_height
  = Some {| width := 1391; height := 752; mode := "RGB" |}.
Proof.
  cbv zeta.
  assert (Hg : scale_and_crop 19 11 default_target_width default_target_height
               = Ok {| new_width := 1391; new_height := 805;
                       left := 0; top := 26; right := 1391; bottom := 778 |}).
  { vm_compute. reflexivity. }
  split; [exact Hg|].
  unfold prepare_image_for_kontext, prepare_image_for_comfyui. cbn [width height].
  rewrite Hg. split; reflexivity.
Qed.

(** *** The prepared image never exceeds the target *)



End Normalizer.

(* ================================================================== *)
(** ** The pipe transport: [read_command] and [write_response] *)
(* ================================================================== *)

Module Transport.
Import Py Envelope.
Local Open Scope string_scope.

Definition BUFFER_SIZE : nat := 4096.

(** One call of [ReadFile]: whether it succeeded, and the bytes it put
    at the start of the buffer ([message_bytes.value] is their number). *)
Record ReadFile : Type := mkReadFile {
  rf_success : bool;
  rf_data : list byte
}.

(** The 4096-byte buffer after the call: the data, then the zero bytes
    the buffer was created with. *)
Definition buffer_after (r : ReadFile) : list byte :=
  take BUFFER_SIZE (rf_data r ++ replicate (BUFFER_SIZE - length (rf_data r)) x00).

Definition message_bytes (r : ReadFile) : nat := length (rf_data r).

Section Utf8.
Local Open Scope N_scope.

Definition continuation (b : byte) : bool :=
  (0x80 <=? Byte.to_N b) && (Byte.to_N b <=? 0xBF).

Definition between (lo hi : N) (b : byte) : bool :=
  (lo <=? Byte.to_N b) && (Byte.to_N b <=? hi).

Definition low6 (b : byte) : N := Byte.to_N b - 0x80.

(** [bytes.decode("utf-8")] in strict mode: the code points, or [None]
    for [UnicodeDecodeError] (stray or missing continuation bytes,
    overlong forms, surrogates, values above U+10FFFF). *)
Fixpoint utf8_decode (bs : list byte) : option (list N) :=
  match bs with
  | [] => Some []
  | b0 :: r0 =>
      let c0 := Byte.to_N b0 in
      if c0 <? 0x80 then
        option_map (cons c0) (utf8_decode r0)
      else if between 0xC2 0xDF b0 then
        match r0 with
        | b1 :: r1 =>
            if continuation b1 then
              option_map (cons ((c0 - 0xC0) * 64 + low6 b1)) (utf8_decode r1)
            else None
        | _ => None
        end
      else if between 0xE0 0xEF b0 then
        match r0 with
        | b1 :: b2 :: r2 =>
            let second_ok :=
              if c0 =? 0xE0 then between 0xA0 0xBF b1
              else if c0 =? 0xED then between 0x80 0x9F b1
              else continuation b1 in
            if second_ok && continuation b2 then
              option_map (cons ((c0 - 0xE0) * 4096 + low6 b1 * 64 + low6 b2))
                         (utf8_decode r2)
            else None
        | _ => None
        end
      else if between 0xF0 0xF4 b0 then
        match r0 with
        | b1 :: b2 :: b3 :: r3 =>
            let second_ok :=
              if c0 =? 0xF0 then between 0x90 0xBF b1
              else if c0 =? 0xF4 then between 0x80 0x8F b1
              else continuation b1 in
            if second_ok && continuation b2 && continuation b3 then
              option_map
                (cons ((c0 - 0xF0) * 262144 + low6 b1 * 4096 + low6 b2 * 64 + low6 b3))
                (utf8_decode r3)
            else None
        | _ => None
        end
      else None
  end.

End Utf8.

(** [buffer.decode("utf-8")[: message_bytes.value]]: the whole buffer is
    decoded and the text is then cut by characters. *)
Definition decode_chunk (r : ReadFile) : option (list N) :=
  option_map (take (message_bytes r)) (utf8_decode (buffer_after r)).

(** What one call of [read_command] comes to. *)
Inductive ReadResult : Type :=
| Returned (value : json)         (* [None] is [JNull] *)
| Blocked.                        (* [ReadFile] has not returned *)

Section ReadCommand.
Context `{Runtime}.

(** The statements after the loop: decode the buffer of the last read
    again and parse it. *)
Definition load_chunk (r : ReadFile) : json :=
  match decode_chunk r with
  | None => JNull                              (* except Exception *)
  | Some retval =>
      match json_loads retval with
      | Some v => v
      | None => JNull                          (* except json.JSONDecodeError *)
      end
  end.

(** [read_command()] against the reads the pipe will answer with; the
    second component is what is left of them. *)
Fixpoint read_command (reads : list ReadFile) : ReadResult * list ReadFile :=
  match reads with
  | [] => (Blocked, [])
  | r :: rest =>
      if negb (rf_success r) then (Returned JNull, rest)
      else
        match decode_chunk r with
        | None => (Returned JNull, rest)
        | Some chunk =>
            if (message_bytes r <? BUFFER_SIZE)%nat then (Returned (load_chunk r), rest)
            else read_command rest
        end
  end.

(** [json.dumps(response)] on what [main] passes: [None] or an
    envelope. *)
Definition json_dumps (response : option Response) : string :=
  match response with
  | None => "null"
  | Some r =>
      "{" +:+ json_dumps_str "success" +:+ ": "
      +:+ (if success r then "true" else "false")
      +:+ match message r with
          | Some m => ", " +:+ json_dumps_str "message" +:+ ": " +:+ json_dumps_str m
          | None => ""
          end
      +:+ "}"
  end.

(** [write_response(response)]: the text handed to [WriteFile] in one
    call. *)
Definition write_response (response : option Response) : string :=
  json_dumps response +:+ "<<END>>".

End ReadCommand.

(** *** Only the last chunk is decoded *)

(** A read that filled the whole buffer: the loop goes round again. *)
Definition full_chunk (r : ReadFile) : Prop :=
  rf_success r = true /\ message_bytes r = BUFFER_SIZE.

(** A successful read that left room in the buffer: the loop stops. *)
Definition short_chunk (r : ReadFile) : Prop :=
  rf_success r = true /\ (message_bytes r < BUFFER_SIZE)%nat.

Definition chunk_decodes (r : ReadFile) : bool :=
  match decode_chunk r with Some _ => true | None => false end.

Section ReadCommandFacts.
Context `{Runtime}.

Lemma read_command_full r reads :
  full_chunk r -> chunk_decodes r = true ->
  read_command (r :: reads) = read_command reads.
Proof.
  intros [Hs Hn] Hd. cbn [read_command]. rewrite Hs. cbn [negb].
  unfold chunk_decodes in Hd. destruct (decode_chunk r); [|discriminate].
  rewrite Hn. now rewrite Nat.ltb_irrefl.
Qed.

Lemma read_command_short r reads :
  short_chunk r ->
  read_command (r :: reads) = (Returned (load_chunk r), reads).
Proof.
  intros [Hs Hn]. cbn [read_command]. rewrite Hs. cbn [negb].
  unfold load_chunk. destruct (decode_chunk r) eqn:Hd; [|reflexivity].
  apply Nat.ltb_lt in Hn. now rewrite Hn.
Qed.

Lemma read_command_undecodable r reads :
  rf_success r = true -> chunk_decodes r = false ->
  read_command (r :: reads) = (Returned JNull, reads).
Proof.
  intros Hs Hd. cbn [read_command]. rewrite Hs. cbn [negb].
  unfold chunk_decodes in Hd. now destruct (decode_chunk r).
Qed.

(** Full chunks that decode are passed over. *)
Lemma read_command_passes good reads :
  Forall full_chunk good -> forallb chunk_decodes good = true ->
  read_command (good ++ reads) = read_command reads.
Proof.
  intros Hfull. induction Hfull as [|r good Hr _ IH]; intros Hd; [reflexivity|].
  cbn [forallb] in Hd. apply andb_true_iff in Hd as [Hr' Hd].
  cbn [app]. rewrite (read_command_full _ _ Hr Hr'). now apply IH.
Qed.

(** C4 (as amended).  The loop passes over every full chunk that is
    valid UTF-8 on its own and stops at the first short one; what it
    returns is parsed from that last chunk alone, and exactly these
    reads are consumed.  A full chunk that is not valid UTF-8 on its own
    stops the loop before that: the function returns [None] and the
    chunks behind it are left unread.  In every case the value returned
    is [None] or the parse of the last chunk, so no byte of an earlier
    chunk reaches the command. *)
Theorem read_command_decodes_last_chunk
    (pre : list ReadFile) (last : ReadFile) (rest : list ReadFile) :
  Forall full_chunk pre ->
  short_chunk last ->
  (forallb chunk_decodes pre = true ->
   read_command (pre ++ last :: rest) = (Returned (load_chunk last), rest)) /\
  (forall (good : list ReadFile) (bad : ReadFile) (later : list ReadFile),
     pre = (good ++ bad :: later)%list ->
     forallb chunk_decodes good = true -> chunk_decodes bad = false ->
     read_command (pre ++ last :: rest) = (Returned JNull, (later ++ last :: rest)%list)) /\
  (exists v, (read_command (pre ++ last :: rest)).1 = Returned v /\
             (v = JNull \/ v = load_chunk last)).
Proof.
  intros Hpre Hlast. split; [|split].
  - intros Hd. rewrite (read_command_passes _ _ Hpre Hd).
    apply (read_command_short _ _ Hlast).
  - intros good bad later -> Hgood Hbad.
    apply Forall_app in Hpre as [Hg Hb]. apply Forall_cons in Hb as [[Hs _] _].
    rewrite <- app_assoc. cbn [app].
    rewrite (read_command_passes _ _ Hg Hgood).
    apply (read_command_undecodable _ _ Hs Hbad).
  - induction Hpre as [|r pre Hr Hpre IH].
    + cbn [app]. rewrite (read_command_short _ _ Hlast).
      exists (load_chunk last). split; [reflexivity|now right].
    + cbn [app]. destruct (chunk_decodes r) eqn:Hd.
      * rewrite (read_command_full _ _ Hr Hd). exact IH.
      * destruct Hr as [Hs _].
        rewrite (read_command_undecodable _ _ Hs Hd).
        exists JNull. split; [reflexivity|now left].
Qed.

End ReadCommandFacts.

(** A frame of 4096 letters followed by the two bytes [42]: the command
    is the number 42, whatever the first chunk held. *)
Definition letters_chunk : ReadFile :=
  {| rf_success := true; rf_data := replicate BUFFER_SIZE "a"%byte |}.

Definition digits_chunk : ReadFile :=
  {| rf_success := true; rf_data := ["4"%byte; "2"%byte] |}.

Lemma read_command_decodes_last_chunk_witness :
  Forall full_chunk [letters_chunk] /\
  short_chunk digits_chunk /\
  read_command (H := Sample.runtime) [letters_chunk; digits_chunk]
  = (Returned (JInt 42), []).
Proof.
  assert (Hfull : Forall full_chunk [letters_chunk]).
  { repeat constructor. }
  assert (Hshort : short_chunk digits_chunk).
  { split; [reflexivity|]. vm_compute. lia. }
  split; [exact Hfull|]. split; [exact Hshort|].
  destruct (read_command_decodes_last_chunk (H := Sample.runtime)
              [letters_chunk] digits_chunk [] Hfull Hshort) as [Hexact _].
  etransitivity; [exact (Hexact ltac:(vm_compute; reflexivity))|].
  vm_compute. reflexivity.
Defined.

(** C4 (as stated) fails.  A frame of 4095 letters, the two bytes of
    [U+00E9] and a digit is valid UTF-8 as a whole, but the first read
    ends between the two bytes: that full chunk does not decode, the
    loop ends there with [None], not at a short chunk, and the second
    chunk is left in the pipe. *)
Definition split_first : ReadFile :=
  {| rf_success := true; rf_data := replicate 4095 "a"%byte ++ [xc3] |}.

Definition split_second : ReadFile :=
  {| rf_success := true; rf_data := [xa9; "7"%byte] |}.

Lemma split_character_stops_at_a_full_chunk :
  message_bytes split_first = BUFFER_SIZE /\
  (message_bytes split_second < BUFFER_SIZE)%nat /\
  (exists t, utf8_decode (rf_data split_first ++ rf_data split_second) = Some t) /\
  decode_chunk split_first = None /\
  read_command (H := Sample.runtime) [split_first; split_second]
  = (Returned JNull, [split_second]).
Proof.
  split; [vm_compute; reflexivity|].
  split; [vm_compute; lia|].
  split; [eexists; vm_compute; reflexivity|].
  split; vm_compute; reflexivity.
Qed.

(** *** What the parser is given for a short chunk *)

Section DecodeFacts.
Local Open Scope list_scope.
Local Open Scope N_scope.

Lemma option_map_cons_app {A} (c : A) (t : list A) (o : option (list A)) :
  option_map (cons c) (option_map (app t) o) = option_map (app (c :: t)) o.
Proof. destruct o; reflexivity. Qed.

Lemma option_map_cons_some {A} (c : A) (o : option (list A)) (t : list A) :
  option_map (cons c) o = Some t -> exists t', o = Some t' /\ t = c :: t'.
Proof. destruct o as [t'|]; [|discriminate]. intros [= <-]. eauto. Qed.

Ltac decoded H IH b :=
  apply option_map_cons_some in H as (? & H & ->);
  cbn [length]; rewrite IH by (cbn [length] in *; lia);
  apply option_map_cons_app.

(** The decoder reads a text from left to right: what follows a valid
    text is decoded after it. *)
Lemma utf8_decode_app (a : list byte) :
  forall t b, utf8_decode a = Some t ->
              utf8_decode (a ++ b) = option_map (app t) (utf8_decode b).
Proof.
  remember (length a) as n eqn:Hn. revert a Hn.
  induction n as [n IH] using lt_wf_ind. intros a Hn t b Ha. subst n.
  assert (IH' : forall a' t', (length a' < length a)%nat -> utf8_decode a' = Some t' ->
                 utf8_decode (a' ++ b) = option_map (app t') (utf8_decode b)).
  { intros a' t' Hlt Ha'. exact (IH _ Hlt a' eq_refl t' b Ha'). }
  clear IH. destruct a as [|b0 r0].
  { cbn in Ha. injection Ha as <-. cbn. now destruct (utf8_decode b). }
  cbn [app]. cbn [utf8_decode] in Ha |- *.
  destruct (Byte.to_N b0 <? 0x80).
  { apply option_map_cons_some in Ha as (t' & Ha & ->).
    rewrite (IH' r0 t') by (cbn; lia || exact Ha). apply option_map_cons_app. }
  destruct (between 0xC2 0xDF b0).
  { destruct r0 as [|b1 r1]; [discriminate|]. cbn [app].
    destruct (continuation b1); [|discriminate].
    apply option_map_cons_some in Ha as (t' & Ha & ->).
    rewrite (IH' r1 t') by (cbn; lia || exact Ha). apply option_map_cons_app. }
  destruct (between 0xE0 0xEF b0).
  { destruct r0 as [|b1 [|b2 r2]]; try discriminate. cbn [app].
    destruct (_ && continuation b2); [|discriminate].
    apply option_map_cons_some in Ha as (t' & Ha & ->).
    rewrite (IH' r2 t') by (cbn; lia || exact Ha). apply option_map_cons_app. }
  destruct (between 0xF0 0xF4 b0); [|discriminate].
  destruct r0 as [|b1 [|b2 [|b3 r3]]]; try discriminate. cbn [app].
  destruct (_ && continuation b3); [|discriminate].
  apply option_map_cons_some in Ha as (t' & Ha & ->).
  rewrite (IH' r3 t') by (cbn; lia || exact Ha). apply option_map_cons_app.
Qed.

(** A text has at most as many characters as bytes. *)
Lemma utf8_decode_length (a : list byte) :
  forall t, utf8_decode a = Some t -> (length t <= length a)%nat.
Proof.
  remember (length a) as n eqn:Hn. revert a Hn.
  induction n as [n IH] using lt_wf_ind. intros a Hn t Ha. subst n.
  assert (IH' : forall a' t', (length a' < length a)%nat -> utf8_decode a' = Some t' ->
                 (length t' <= length a')%nat).
  { intros a' t' Hlt Ha'. exact (IH _ Hlt a' eq_refl t' Ha'). }
  clear IH. destruct a as [|b0 r0].
  { cbn in Ha. injection Ha as <-. cbn. lia. }
  cbn [utf8_decode] in Ha.
  destruct (Byte.to_N b0 <? 0x80).
  { apply option_map_cons_some in Ha as (t' & Ha & ->).
    specialize (IH' r0 t' ltac:(cbn; lia) Ha). cbn. lia. }
  destruct (between 0xC2 0xDF b0).
  { destruct r0 as [|b1 r1]; [discriminate|].
    destruct (continuation b1); [|discriminate].
    apply option_map_cons_some in Ha as (t' & Ha & ->).
    specialize (IH' r1 t' ltac:(cbn; lia) Ha). cbn. lia. }
  destruct (between 0xE0 0xEF b0).
  { destruct r0 as [|b1 [|b2 r2]]; try discriminate.
    destruct (_ && continuation b2); [|discriminate].
    apply option_map_cons_some in Ha as (t' & Ha & ->).
    specialize (IH' r2 t' ltac:(cbn; lia) Ha). cbn. lia. }
  destruct (between 0xF0 0xF4 b0); [|discriminate].
  destruct r0 as [|b1 [|b2 [|b3 r3]]]; try discriminate.
  destruct (_ && continuation b3); [|discriminate].
  apply option_map_cons_some in Ha as (t' & Ha & ->).
  specialize (IH' r3 t' ltac:(cbn; lia) Ha). cbn. lia.
Qed.

Lemma utf8_decode_zeros (k : nat) :
  utf8_decode (replicate k x00) = Some (replicate k 0).
Proof. induction k as [|k IH]; [reflexivity|]. cbn. now rewrite IH. Qed.

(** For a short chunk of valid UTF-8 the text handed to [json.loads] is
    the text of the data followed by NUL characters: the buffer is
    decoded whole and then cut at the number of bytes read, so every
    byte beyond the first of a character lets one NUL of the padding
    through (as far as the padding goes).  Data of one-byte characters
    only is handed over as it is. *)
Theorem decode_chunk_pads_with_nul (r : ReadFile) (t : list N) :
  (message_bytes r < BUFFER_SIZE)%nat ->
  utf8_decode (rf_data r) = Some t ->
  (length t <= message_bytes r)%nat /\
  decode_chunk r
  = Some (t ++ replicate (Nat.min (message_bytes r - length t)
                                  (BUFFER_SIZE - message_bytes r)) 0) /\
  (length t = message_bytes r -> decode_chunk r = Some t).
Proof.
  intros Hn Ht. pose proof (utf8_decode_length _ _ Ht) as Hlen.
  fold (message_bytes r) in Hlen.
  assert (Hd : decode_chunk r
               = Some (t ++ replicate (Nat.min (message_bytes r - length t)
                                               (BUFFER_SIZE - message_bytes r)) 0)).
  { unfold decode_chunk, buffer_after. fold (message_bytes r).
    rewrite take_ge by (rewrite length_app, length_replicate; unfold message_bytes in *; lia).
    rewrite (utf8_decode_app _ _ _ Ht), utf8_decode_zeros. cbn [option_map].
    rewrite take_app_ge by exact Hlen. now rewrite take_replicate. }
  split; [exact Hlen|]. split; [exact Hd|].
  intros E. rewrite Hd, E, Nat.sub_diag. cbn. now rewrite app_nil_r.
Qed.

End DecodeFacts.

(** Five bytes holding the three characters of [h], e-acute, [y]... the
    text keeps one NUL for the continuation byte. *)
Lemma decode_chunk_pads_with_nul_witness :
  let r := {| rf_success := true; rf_data := ["h"%byte; xc3; xa9; "y"%byte] |} in
  (message_bytes r < BUFFER_SIZE)%nat /\
  utf8_decode (rf_data r) = Some [104; 233; 121]%N /\
  decode_chunk r = Some [104; 233; 121; 0]%N.
Proof.
  cbv zeta.
  assert (Hn : (message_bytes {| rf_success := true;
                                 rf_data := ["h"%byte; xc3; xa9; "y"%byte] |}
                < BUFFER_SIZE)%nat) by (vm_compute; lia).
  split; [exact Hn|]. split; [reflexivity|].
  exact (proj1 (proj2 (decode_chunk_pads_with_nul _ [104; 233; 121]%N Hn eq_refl))).
Defined.

End Transport.

(* ================================================================== *)
(** ** The command router: [main] and the lifecycle handlers *)
(* ================================================================== *)

Module Router.
Import Py Envelope Kontext Transport.
Local Open Scope string_scope.
Local Open Scope list_scope.

(** What [validate_output_directory] meets on disk: [os.makedirs] and
    the write probe succeed or raise [OSError]; on a path it cannot
    take, as one that holds a NUL, [os.makedirs] raises something
    else. *)
Inductive DirProbe : Type :=
| DirWritable
| DirNotCreatable
| DirNotWritable
| DirRaises (e : exn).

(** The process state a handler can read and change. *)
Record World : Type := mkWorld {
  globals : Globals;
  config_file : ConfigFile;
  probe_directory : json -> DirProbe;
  trace : list Event
}.

(** [validate_output_directory()].  Both [except] clauses name
    [(OSError, PermissionError)] only, so any other exception leaves the
    function; [os.makedirs] raises [TypeError] for a value that is not a
    path, and [load_config] stores whatever the file holds. *)
Definition validate_output_directory (w : World) : result bool :=
  match OUTPUT_DIRECTORY (globals w) with
  | JStr _ =>
      match probe_directory w (OUTPUT_DIRECTORY (globals w)) with
      | DirWritable => Ok true
      | DirNotCreatable => Ok false
      | DirNotWritable => Ok false
      | DirRaises OSError => Ok false
      | DirRaises e => Raise e
      end
  | _ => Raise TypeError
  end.

(** [sep.join(items)]. *)
Fixpoint join (sep : string) (items : list string) : string :=
  match items with
  | [] => ""
  | [x] => x
  | x :: rest => x +:+ sep +:+ join sep rest
  end.

Definition validation_results (w : World) : result (list string) :=
  do valid <- validate_output_directory w;
  Ok ((if valid then [] else ["OUTPUT_DIRECTORY configuration is invalid"])
      ++ (if truthy (GALLERY_DIRECTORY (globals w)) then []
          else ["GALLERY_DIRECTORY not configured"])).

Definition warning_msg (results : list string) : string :=
  "Plugin initialized with warnings: " +:+ join "; " results.

(** [execute_initialize_command()]: it has no [try] of its own. *)
Definition execute_initialize_command (w : World) : result Response :=
  do results <- validation_results w;
  match results with
  | _ :: _ =>
      Ok (generate_success_response (Some ("initialize success. " +:+ warning_msg results)))
  | [] => Ok (generate_success_response (Some "initialize success."))
  end.

Definition execute_shutdown_command : Response :=
  generate_success_response (Some "shutdown success.").

(** The functions stored in the [commands] table. *)
Inductive Handler : Type :=
| H_execute_initialize_command
| H_execute_shutdown_command
| H_flux_nim_ready_check
| H_check_nim_status
| H_stop_nim
| H_start_nim
| H_generate_image
| H_generate_image_using_kontext
| H_invokeai_status
| H_pause_invokeai_processor
| H_resume_invokeai_processor
| H_invokeai_empty_model_cache
| H_flux_kontext_nim_ready_check
| H_check_flux_kontext_nim_status
| H_stop_flux_kontext_nim
| H_start_flux_kontext_nim
| H_comfyui_status
| H_comfyui_free_memory.

Definition commands : list (string * Handler) :=
  [ ("initialize", H_execute_initialize_command);
    ("shutdown", H_execute_shutdown_command);
    ("flux_nim_ready_check", H_flux_nim_ready_check);
    ("check_nim_status", H_check_nim_status);
    ("stop_nim", H_stop_nim);
    ("start_nim", H_start_nim);
    ("generate_image", H_generate_image);
    ("generate_image_using_kontext", H_generate_image_using_kontext);
    ("invokeai_status", H_invokeai_status);
    ("pause_invokeai_processor", H_pause_invokeai_processor);
    ("resume_invokeai_processor", H_resume_invokeai_processor);
    ("invokeai_empty_model_cache", H_invokeai_empty_model_cache);
    ("flux_kontext_nim_ready_check", H_flux_kontext_nim_ready_check);
    ("check_flux_kontext_nim_status", H_check_flux_kontext_nim_status);
    ("stop_flux_kontext_nim", H_stop_flux_kontext_nim);
    ("start_flux_kontext_nim", H_start_flux_kontext_nim);
    ("comfyui_status", H_comfyui_status);
    ("comfyui_free_memory", H_comfyui_free_memory) ].

Definition TOOL_CALLS_PROPERTY : string := "tool_calls".
Definition CONTEXT_PROPERTY : string := "messages".
Definition SYSTEM_INFO_PROPERTY : string := "system_info".
Definition FUNCTION_PROPERTY : string := "func".
Definition INITIALIZE_COMMAND : string := "initialize".
Definition SHUTDOWN_COMMAND : string := "shutdown".
Definition ERROR_MESSAGE : string := "Plugin Error!".

Section Main.
Context `{Runtime}.

(** The handlers that talk to services and containers.  Each one keeps
    its whole body under [try ... except Exception] and returns an
    envelope on every path, so it is a total function of its arguments
    and the world. *)
Variable external : Handler -> json -> json -> json -> World -> Response * World.

(** [commands[cmd](params, context, system_info)]. *)
Definition call_with_arguments
    (h : Handler) (params context system_info : json) (w : World)
  : result (Response * World) :=
  match h with
  | H_execute_initialize_command | H_execute_shutdown_command =>
      Raise TypeError             (* they take no positional argument *)
  | H_generate_image_using_kontext =>
      let '(r, g, evs) :=
        generate_image_using_kontext (config_file w) (globals w)
                                     params context system_info in
      Ok (r, {| globals := g; config_file := config_file w;
                probe_directory := probe_directory w;
                trace := trace w ++ evs |})
  | _ => Ok (external h params context system_info w)
  end.

(** [commands[cmd]()]. *)
Definition call_without_arguments (h : Handler) (w : World) : result (Response * World) :=
  match h with
  | H_execute_initialize_command =>
      do r <- execute_initialize_command w;
      Ok (r, w)
  | H_execute_shutdown_command => Ok (execute_shutdown_command, w)
  | _ => call_with_arguments h JNull JNull JNull w
  end.

(** [cmd in commands], with the handler found. *)
Definition lookup_command (cmd : json) : result (option Handler) :=
  match cmd with
  | JStr name => Ok (assoc name commands)
  | _ => if hashable cmd then Ok None else Raise TypeError
  end.

(** [input[key] if key in input else None]. *)
Definition optional_property (input : json) (key : string) : result json :=
  do present <- contains input (JStr key);
  if present then getitem input (JStr key) else Ok JNull.

(** The body of [for tool_call in tool_calls]: the envelope assigned to
    [response], the value of [cmd], and the world afterwards. *)
Definition process_tool_call (input tool_call cmd : json) (w : World)
  : result (Response * json * World) :=
  do has_func <- contains tool_call (JStr FUNCTION_PROPERTY);
  if has_func then
    do cmd' <- getitem tool_call (JStr FUNCTION_PROPERTY);
    do found <- lookup_command cmd';
    match found with
    | Some h =>
        if py_eq cmd' (JStr INITIALIZE_COMMAND) || py_eq cmd' (JStr SHUTDOWN_COMMAND) then
          do rw <- call_without_arguments h w;
          Ok (rw.1, cmd', rw.2)
        else
          (* response = execute_initialize_command() is overwritten below *)
          do _initialized <- execute_initialize_command w;
          do params <- get_method tool_call "params" JNull;
          do context <- optional_property input CONTEXT_PROPERTY;
          do system_info <- optional_property input SYSTEM_INFO_PROPERTY;
          do rw <- call_with_arguments h params context system_info w;
          Ok (rw.1, cmd', rw.2)
    | None =>
        Ok (generate_failure_response
              (Some (ERROR_MESSAGE +:+ " Unknown command: " +:+ py_str cmd')),
            cmd', w)
    end
  else
    Ok (generate_failure_response (Some (ERROR_MESSAGE +:+ " Malformed input.")),
        cmd, w).

(** The [for] loop: [response] starts as [None] and is reassigned by
    every tool call. *)
Fixpoint process_tool_calls
    (input : json) (tool_calls : list json)
    (response : option Response) (cmd : json) (w : World)
  : result (option Response * json * World) :=
  match tool_calls with
  | [] => Ok (response, cmd, w)
  | tool_call :: rest =>
      do st <- process_tool_call input tool_call cmd w;
      process_tool_calls input rest (Some st.1.1) st.1.2 st.2
  end.

(** One received frame, from [response = None] to the value handed to
    [write_response]. *)
Definition process_frame (input cmd : json) (w : World)
  : result (option Response * json * World) :=
  do has_calls <- contains input (JStr TOOL_CALLS_PROPERTY);
  if has_calls then
    do tool_calls <- getitem input (JStr TOOL_CALLS_PROPERTY);
    do items <- iterate tool_calls;
    process_tool_calls input items None cmd w
  else
    Ok (Some (generate_failure_response (Some (ERROR_MESSAGE +:+ " Malformed input."))),
        cmd, w).

(** How a run of [main] ends. *)
Inductive Outcome : Type :=
| Stopped (written : list string) (w : World)      (* shutdown was dispatched *)
| Waiting (written : list string) (w : World)      (* blocked in read_command *)
| Crashed (e : exn) (written : list string) (w : World).

(** The [while] loop of [main], against the values successive calls of
    [read_command] return; [written] collects the texts passed to
    [WriteFile]. *)
Fixpoint main_loop (inputs : list json) (cmd : json) (w : World) (written : list string)
  : Outcome :=
  match inputs with
  | [] => Waiting written w
  | input :: rest =>
      match input with
      | JNull => main_loop rest cmd w written          (* continue *)
      | _ =>
          match process_frame input cmd w with
          | Raise e => Crashed e written w
          | Ok (response, cmd', w') =>
              let written' := written ++ [write_response response] in
              if py_eq cmd' (JStr SHUTDOWN_COMMAND) then Stopped written' w'
              else main_loop rest cmd' w' written'
          end
      end
  end.

(** The world after [load_config()] at startup. *)
Definition started (w : World) : World :=
  {| globals := load_config (config_file w) (globals w);
     config_file := config_file w;
     probe_directory := probe_directory w;
     trace := trace w ++ [EvLoadConfig] |}.

(** [main()]: the configuration is loaded, [cmd] starts empty. *)
Definition main (inputs : list json) (w : World) : Outcome :=
  main_loop inputs (JStr "") (started w) [].

End Main.

(** *** Frames of the expected shape *)

(** A tool call is an object whose ["func"], when present, is a string. *)
Definition well_formed_call (c : json) : bool :=
  match c with
  | JDict kvs =>
      match assoc FUNCTION_PROPERTY kvs with
      | None => true
      | Some (JStr _) => true
      | Some _ => false
      end
  | _ => false
  end.

(** A frame is an object whose ["tool_calls"], when present, is an array
    of tool calls. *)
Definition well_formed_frame (input : json) : bool :=
  match input with
  | JDict kvs =>
      match assoc TOOL_CALLS_PROPERTY kvs with
      | None => true
      | Some (JList calls) => forallb well_formed_call calls
      | Some _ => false
      end
  | _ => false
  end.


Definition unknown_command (name : string) : Response :=
  generate_failure_response (Some ("Plugin Error! Unknown command: " +:+ name)).

(** What [read_command] may hand to the loop: [None], or a frame of the
    expected shape. *)
Definition acceptable (input : json) : bool :=
  match input with
  | JNull => true
  | _ => well_formed_frame input
  end.

Fixpoint count_frames (inputs : list json) : nat :=
  match inputs with
  | [] => 0
  | JNull :: rest => count_frames rest
  | _ :: rest => S (count_frames rest)
  end.



Section MainFacts.
Context `{Runtime}.
Variable external : Handler -> json -> json -> json -> World -> Response * World.

Lemma string_eqb_false_ne (a b : string) : String.eqb a b = false -> a <> b.
Proof. intros E ->. now rewrite String.eqb_refl in E. Qed.

(** Only the two lifecycle names map to the two lifecycle handlers. *)
Lemma lifecycle_handlers name h :
  assoc name commands = Some h ->
  String.eqb name INITIALIZE_COMMAND || String.eqb name SHUTDOWN_COMMAND = false ->
  h <> H_execute_initialize_command /\ h <> H_execute_shutdown_command.
Proof.
  unfold commands, INITIALIZE_COMMAND, SHUTDOWN_COMMAND. cbn [assoc].
  intros Hh Hne. apply orb_false_iff in Hne as [E1 E2].
  rewrite E1, E2 in Hh.
  repeat match type of Hh with
         | (if ?c then _ else _) = _ => destruct c
         end;
    try discriminate; injection Hh as <-; split; discriminate.
Qed.

Lemma optional_property_dict kvs key :
  optional_property (JDict kvs) key = Ok (dict_get kvs key JNull).
Proof.
  unfold optional_property, dict_get. cbn.
  destruct (assoc key kvs); reflexivity.
Qed.

(** [execute_initialize_command] returns a success envelope whenever
    the validation of the output directory returns, and raises what the
    validation raises. *)
Lemma execute_initialize_command_outcome w :
  match validate_output_directory w with
  | Ok valid =>
      exists r, execute_initialize_command w = Ok r /\ success r = true /\
        message r
        = Some (if valid && truthy (GALLERY_DIRECTORY (globals w))
                then "initialize success."
                else "initialize success. Plugin initialized with warnings: "
                     +:+ join "; "
                           ((if valid then []
                             else ["OUTPUT_DIRECTORY configuration is invalid"])
                            ++ (if truthy (GALLERY_DIRECTORY (globals w)) then []
                                else ["GALLERY_DIRECTORY not configured"])))
  | Raise e => execute_initialize_command w = Raise e
  end.
Proof.
  unfold execute_initialize_command, validation_results.
  destruct (validate_output_directory w) as [valid|e]; cbn [bind]; [|reflexivity].
  destruct valid, (truthy (GALLERY_DIRECTORY (globals w)));
    eexists; (split; [reflexivity|]); split; reflexivity.
Qed.

Lemma execute_initialize_command_returns w :
  is_ok (validate_output_directory w) = true ->
  exists r, execute_initialize_command w = Ok r /\ success r = true.
Proof.
  intros Hv. pose proof (execute_initialize_command_outcome w) as Ho.
  destruct (validate_output_directory w); [|discriminate].
  destruct Ho as (r & Hr & Hs & _). eauto.
Qed.

(** A known command other than the lifecycle ones: the initialize
    handler runs first, for its side effects only, and the target
    handler gets the call's parameters and the frame's context. *)
Lemma process_tool_call_dispatch ikvs call name h cmd w :
  assoc FUNCTION_PROPERTY call = Some (JStr name) ->
  assoc name commands = Some h ->
  String.eqb name INITIALIZE_COMMAND || String.eqb name SHUTDOWN_COMMAND = false ->
  process_tool_call external (JDict ikvs) (JDict call) cmd w
  = (do _initialized <- execute_initialize_command w;
     do rw <- call_with_arguments external h
                (dict_get call "params" JNull)
                (dict_get ikvs CONTEXT_PROPERTY JNull)
                (dict_get ikvs SYSTEM_INFO_PROPERTY JNull) w;
     Ok (rw.1, JStr name, rw.2)).
Proof.
  intros Hf Hh Hne. unfold process_tool_call.
  cbn [contains getitem bind]. rewrite Hf. cbn [bind lookup_command].
  rewrite Hh. cbn [py_eq]. rewrite Hne.
  destruct (execute_initialize_command w); [|reflexivity].
  cbn [get_method bind]. rewrite !optional_property_dict. reflexivity.
Qed.

(** The two lifecycle commands. *)
Lemma process_tool_call_lifecycle ikvs call name h cmd w :
  assoc FUNCTION_PROPERTY call = Some (JStr name) ->
  assoc name commands = Some h ->
  String.eqb name INITIALIZE_COMMAND || String.eqb name SHUTDOWN_COMMAND = true ->
  process_tool_call external (JDict ikvs) (JDict call) cmd w
  = if String.eqb name INITIALIZE_COMMAND
    then (do r <- execute_initialize_command w; Ok (r, JStr name, w))
    else Ok (execute_shutdown_command, JStr name, w).
Proof.
  intros Hf Hh Hn. unfold process_tool_call.
  cbn [contains getitem bind]. rewrite Hf. cbn [bind lookup_command].
  rewrite Hh. cbn [py_eq]. rewrite Hn.
  destruct (String.eqb name INITIALIZE_COMMAND) eqn:Hi.
  - apply String.eqb_eq in Hi. subst name. vm_compute in Hh. injection Hh as <-.
    cbn [call_without_arguments]. destruct (execute_initialize_command w); reflexivity.
  - cbn [orb] in Hn. apply String.eqb_eq in Hn. subst name. vm_compute in Hh.
    injection Hh as <-. reflexivity.
Qed.

Lemma call_with_arguments_total h params context system_info w :
  h <> H_execute_initialize_command -> h <> H_execute_shutdown_command ->
  exists rw, call_with_arguments external h params context system_info w = Ok rw.
Proof.
  intros H1 H2. destruct h; try congruence; cbn; eauto.
  destruct (generate_image_using_kontext _ _ _ _ _) as [[r g] evs]. eauto.
Qed.

(** Every handler but the Kontext one is behind [external]. *)
Lemma call_with_arguments_external h params context system_info w :
  h <> H_execute_initialize_command -> h <> H_execute_shutdown_command ->
  h <> H_generate_image_using_kontext ->
  call_with_arguments external h params context system_info w
  = Ok (external h params context system_info w).
Proof. intros H1 H2 H3. destruct h; congruence || reflexivity. Qed.


Lemma main_loop_frame input rest cmd w written response cmd' w' :
  input <> JNull ->
  process_frame external input cmd w = Ok (response, cmd', w') ->
  main_loop external (input :: rest) cmd w written
  = if py_eq cmd' (JStr SHUTDOWN_COMMAND)
    then Stopped (written ++ [write_response response]) w'
    else main_loop external rest cmd' w' (written ++ [write_response response]).
Proof.
  intros Hnn Hp. cbn [main_loop]. rewrite Hp.
  destruct input; try reflexivity. congruence.
Qed.

Lemma main_loop_raises input rest cmd w written e :
  input <> JNull ->
  process_frame external input cmd w = Raise e ->
  main_loop external (input :: rest) cmd w written = Crashed e written w.
Proof.
  intros Hnn Hp. cbn [main_loop]. rewrite Hp.
  destruct input; try reflexivity. congruence.
Qed.


Lemma process_frame_calls ikvs calls cmd w :
  assoc TOOL_CALLS_PROPERTY ikvs = Some (JList calls) ->
  process_frame external (JDict ikvs) cmd w
  = process_tool_calls external (JDict ikvs) calls None cmd w.
Proof.
  intros Hc. unfold process_frame. cbn [contains getitem bind]. rewrite Hc. reflexivity.
Qed.

Lemma well_formed_frame_inv input :
  well_formed_frame input = true ->
  exists ikvs, input = JDict ikvs /\
    (assoc TOOL_CALLS_PROPERTY ikvs = None \/
     exists calls, assoc TOOL_CALLS_PROPERTY ikvs = Some (JList calls) /\
                   forallb well_formed_call calls = true).
Proof.
  destruct input as [| | | | | |ikvs]; try discriminate. cbn.
  intros Hwf. exists ikvs. split; [reflexivity|].
  destruct (assoc TOOL_CALLS_PROPERTY ikvs) as [[| | | | |calls|]|]; try discriminate; eauto.
Qed.




End MainFacts.

(** *** What the router answers *)

(** A configuration file that sets the output directory to [null]. *)
Definition null_directory_config : ConfigFile :=
  CfgJson (JDict [("GALLERY_DIRECTORY", JStr "C:/Users/me/Videos/Captures");
                  ("OUTPUT_DIRECTORY", JNull)]).

Definition null_directory_world : World :=
  {| globals := initial_globals "C:/Users/me/flux_output";
     config_file := null_directory_config;
     probe_directory := fun _ => DirWritable;
     trace := [] |}.

Definition initialize_frame : json :=
  JDict [("tool_calls", JList [JDict [("func", JStr "initialize")]])].

Definition status_frame : json :=
  JDict [("tool_calls", JList [JDict [("func", JStr "comfyui_status")]])].

Section RouterTheorems.
Context `{Runtime}.
Variable external : Handler -> json -> json -> json -> World -> Response * World.


(** C10.  Whenever the validation of the output directory returns,
    [execute_initialize_command] returns [success = true], with the
    failed validations as a warning in the message, and for a command
    other than the two lifecycle ones the router goes on to call the
    target handler with the call's parameters.  But the validation
    handles [OSError] only: with ["OUTPUT_DIRECTORY": null] in the
    configuration file [os.makedirs] raises [TypeError], which leaves
    [execute_initialize_command] and [main] - an [initialize] frame, or
    a frame naming any other known command, ends the plugin with no
    response written. *)
Theorem initialize_raises_on_unusable_directory (w : World) :
  (match validate_output_directory w with
   | Ok valid =>
       exists r, execute_initialize_command w = Ok r /\ success r = true /\
         message r
         = Some (if valid && truthy (GALLERY_DIRECTORY (globals w))
                 then "initialize success."
                 else "initialize success. Plugin initialized with warnings: "
                      +:+ join "; "
                            ((if valid then []
                              else ["OUTPUT_DIRECTORY configuration is invalid"])
                             ++ (if truthy (GALLERY_DIRECTORY (globals w)) then []
                                 else ["GALLERY_DIRECTORY not configured"])))
   | Raise e => execute_initialize_command w = Raise e
   end) /\
  (forall ikvs call name h cmd,
     assoc FUNCTION_PROPERTY call = Some (JStr name) ->
     assoc name commands = Some h ->
     String.eqb name INITIALIZE_COMMAND || String.eqb name SHUTDOWN_COMMAND = false ->
     match validate_output_directory w with
     | Ok _ =>
         exists rw,
           call_with_arguments external h (dict_get call "params" JNull)
             (dict_get ikvs CONTEXT_PROPERTY JNull)
             (dict_get ikvs SYSTEM_INFO_PROPERTY JNull) w = Ok rw /\
           (h <> H_generate_image_using_kontext ->
            rw = external h (dict_get call "params" JNull)
                   (dict_get ikvs CONTEXT_PROPERTY JNull)
                   (dict_get ikvs SYSTEM_INFO_PROPERTY JNull) w) /\
           (h = H_generate_image_using_kontext ->
            rw.1 = (generate_image_using_kontext (config_file w) (globals w)
                      (dict_get call "params" JNull)
                      (dict_get ikvs CONTEXT_PROPERTY JNull)
                      (dict_get ikvs SYSTEM_INFO_PROPERTY JNull)).1.1) /\
           process_tool_call external (JDict ikvs) (JDict call) cmd w
           = Ok (rw.1, JStr name, rw.2)
     | Raise e => process_tool_call external (JDict ikvs) (JDict call) cmd w = Raise e
     end) /\
  (OUTPUT_DIRECTORY (globals (started null_directory_world)) = JNull /\
   execute_initialize_command (started null_directory_world) = Raise TypeError /\
   main external [initialize_frame] null_directory_world
   = Crashed TypeError [] (started null_directory_world) /\
   main external [status_frame] null_directory_world
   = Crashed TypeError [] (started null_directory_world)).
Proof.
  split; [apply execute_initialize_command_outcome|]. split.
  - intros ikvs call name h cmd Hf Hh Hne.
    rewrite (process_tool_call_dispatch external _ _ _ _ _ _ Hf Hh Hne).
    pose proof (execute_initialize_command_outcome w) as Ho.
    destruct (validate_output_directory w) as [valid|e].
    + destruct Ho as (r & -> & _). cbn [bind].
      destruct (lifecycle_handlers _ _ Hh Hne) as [H1 H2].
      destruct (call_with_arguments_total external h (dict_get call "params" JNull)
                  (dict_get ikvs CONTEXT_PROPERTY JNull)
                  (dict_get ikvs SYSTEM_INFO_PROPERTY JNull) w H1 H2) as [rw Hrw].
      exists rw. split; [exact Hrw|]. split; [|split].
      * intros H3. rewrite (call_with_arguments_external external _ _ _ _ _ H1 H2 H3) in Hrw.
        now injection Hrw as <-.
      * intros ->. cbn [call_with_arguments] in Hrw.
        destruct (generate_image_using_kontext _ _ _ _ _) as [[r1 g1] evs1].
        now injection Hrw as <-.
      * rewrite Hrw. reflexivity.
    + rewrite Ho. reflexivity.
  - repeat split; reflexivity.
Qed.

(** A frame whose ["tool_calls"] is a number, a boolean or [null] makes
    the [for] statement raise [TypeError]; nothing catches it, so
    [main] ends there without writing a response.  The same happens
    when the ["func"] of the first tool call is a list or an object,
    which cannot be looked up in the command table. *)
Theorem ill_typed_frame_crashes_main
    (ikvs : list (string * json)) (v : json)
    (cmd : json) (w : World) (written : list string) (rest : list json) :
  assoc TOOL_CALLS_PROPERTY ikvs = Some v ->
  match v with
  | JNull | JBool _ | JInt _ | JFloat _ => True
  | JList (JDict call :: _) =>
      exists f, assoc FUNCTION_PROPERTY call = Some f /\ hashable f = false
  | _ => False
  end ->
  main_loop external (JDict ikvs :: rest) cmd w written = Crashed TypeError written w.
Proof.
  intros Hv Hshape. cbn [main_loop]. unfold process_frame.
  cbn [contains getitem bind]. rewrite Hv. cbn [bind].
  destruct v as [| | | | |[|[| | | | | |call] calls]|]; try contradiction; try reflexivity.
  destruct Hshape as (f & Hf & Hh).
  cbn [iterate bind process_tool_calls]. unfold process_tool_call.
  cbn [contains getitem bind]. rewrite Hf. cbn [bind].
  destruct f; try discriminate; reflexivity.
Qed.

End RouterTheorems.

(** *** Runs in which the output directory stays usable *)

Section SafeRuns.
Context `{Runtime}.
Variable external : Handler -> json -> json -> json -> World -> Response * World.

(** A property of worlds that the handlers keep and under which the
    validation of the output directory returns: for instance that no
    handler lets the configured directory become anything but a path
    that [os.makedirs] takes. *)
Variable safe : World -> Prop.
Hypothesis safe_validates :
  forall w, safe w -> is_ok (validate_output_directory w) = true.
Hypothesis safe_handlers :
  forall h params context system_info w rw,
    safe w ->
    call_with_arguments external h params context system_info w = Ok rw ->
    safe rw.2.

(** A well-formed tool call in such a world does not raise. *)
Lemma process_tool_call_safe ikvs c cmd w :
  well_formed_call c = true -> safe w ->
  exists st, process_tool_call external (JDict ikvs) c cmd w = Ok st /\ safe st.2.
Proof.
  intros Hwf Hs. destruct c as [| | | | |?|call]; try discriminate.
  unfold well_formed_call in Hwf.
  destruct (execute_initialize_command_returns w (safe_validates w Hs)) as (ri & Hi & _).
  destruct (assoc FUNCTION_PROPERTY call) as [f|] eqn:Hf.
  - destruct f as [| | | |name| |]; try discriminate.
    destruct (assoc name commands) as [h|] eqn:Hh.
    + destruct (String.eqb name INITIALIZE_COMMAND || String.eqb name SHUTDOWN_COMMAND) eqn:Hn.
      * rewrite (process_tool_call_lifecycle external _ _ _ _ _ _ Hf Hh Hn), Hi.
        cbn [bind]. destruct (String.eqb name INITIALIZE_COMMAND); eauto.
      * rewrite (process_tool_call_dispatch external _ _ _ _ _ _ Hf Hh Hn), Hi.
        cbn [bind].
        destruct (lifecycle_handlers _ _ Hh Hn) as [H1 H2].
        destruct (call_with_arguments_total external h (dict_get call "params" JNull)
                    (dict_get ikvs CONTEXT_PROPERTY JNull)
                    (dict_get ikvs SYSTEM_INFO_PROPERTY JNull) w H1 H2) as [rw Hrw].
        rewrite Hrw. cbn [bind]. eexists. split; [reflexivity|].
        exact (safe_handlers _ _ _ _ _ _ Hs Hrw).
    + unfold process_tool_call. cbn [contains getitem bind]. rewrite Hf.
      cbn [bind lookup_command]. rewrite Hh. eauto.
  - unfold process_tool_call. cbn [contains bind]. rewrite Hf. eauto.
Qed.

Lemma process_tool_calls_safe ikvs calls response cmd w :
  forallb well_formed_call calls = true -> safe w ->
  exists st, process_tool_calls external (JDict ikvs) calls response cmd w = Ok st /\
             safe st.2.
Proof.
  revert response cmd w. induction calls as [|c calls IH]; intros response cmd w Hwf Hs.
  - cbn. eauto.
  - cbn [forallb] in Hwf. apply andb_true_iff in Hwf as [Hc Hcs].
    cbn [process_tool_calls].
    destruct (process_tool_call_safe ikvs c cmd w Hc Hs) as (st & -> & Hs'). cbn [bind].
    now apply IH.
Qed.

Lemma process_frame_safe input cmd w :
  well_formed_frame input = true -> safe w ->
  exists st, process_frame external input cmd w = Ok st /\ safe st.2.
Proof.
  intros Hwf Hs.
  apply well_formed_frame_inv in Hwf as (ikvs & -> & [Hnone|(calls & Hsome & Hwf)]).
  - unfold process_frame. cbn [contains bind]. rewrite Hnone. eauto.
  - rewrite (process_frame_calls external _ _ _ _ Hsome).
    now apply process_tool_calls_safe.
Qed.


(** In such a run the loop does not raise on inputs that are [None] or
    frames of the expected shape, and it writes one text for every
    frame it processes: when it is left waiting for the next read it
    has written exactly as many texts as it was given frames, and when
    it stops on [shutdown] at least one and no more than that. *)
Theorem main_loop_answers_each_frame
    (inputs : list json) (cmd : json) (w : World) (written : list string) :
  safe w ->
  forallb acceptable inputs = true ->
  match main_loop external inputs cmd w written with
  | Crashed _ _ _ => False
  | Waiting written' w' =>
      safe w' /\
      exists texts, written' = written ++ texts /\ length texts = count_frames inputs
  | Stopped written' w' =>
      safe w' /\
      exists texts, written' = written ++ texts /\
                    1 <= length texts <= count_frames inputs
  end.
Proof.
  revert cmd w written. induction inputs as [|input rest IH]; intros cmd w written Hs Hok.
  - cbn. split; [exact Hs|]. exists []. now rewrite app_nil_r.
  - cbn [forallb] in Hok. apply andb_true_iff in Hok as [Hin Hrest].
    assert (Hcase : input = JNull \/ input <> JNull)
      by (destruct input; (now left) || (right; discriminate)).
    destruct Hcase as [->|Hnn].
    { cbn [main_loop count_frames]. now apply IH. }
    assert (Hwf : well_formed_frame input = true) by (destruct input; try exact Hin; congruence).
    assert (Hcount : count_frames (input :: rest) = S (count_frames rest))
      by (destruct input; try reflexivity; congruence).
    destruct (process_frame_safe input cmd w Hwf Hs) as ([[response cmd'] w'] & Hp & Hs').
    cbn [snd] in Hs'.
    rewrite (main_loop_frame external _ rest _ _ written _ _ _ Hnn Hp), Hcount.
    destruct (py_eq cmd' (JStr SHUTDOWN_COMMAND)).
    + split; [exact Hs'|]. exists [write_response response]. split; [reflexivity|]. cbn. lia.
    + specialize (IH cmd' w' (written ++ [write_response response]) Hs' Hrest).
      destruct (main_loop external rest cmd' w' (written ++ [write_response response]))
        as [written' w''|written' w''|e written' w'']; [| |exact IH].
      * destruct IH as (Hs'' & texts & -> & Hlen). split; [exact Hs''|].
        exists (write_response response :: texts). rewrite <- app_assoc.
        split; [reflexivity|]. cbn. lia.
      * destruct IH as (Hs'' & texts & -> & Hlen). split; [exact Hs''|].
        exists (write_response response :: texts). rewrite <- app_assoc.
        split; [reflexivity|]. cbn. lia.
Qed.


End SafeRuns.

(** *** Worked frames *)

(** A stand-in for the service handlers: each one reports success. *)
Definition sample_external
    (h : Handler) (params context system_info : json) (w : World) : Response * World :=
  (generate_success_response (Some "done"), w).

Definition sample_world : World :=
  {| globals := configured_globals;
     config_file := CfgMissing;
     probe_directory := fun _ => DirWritable;
     trace := [] |}.

(** No gallery directory, and an output directory that cannot be made. *)
Definition unconfigured_world : World :=
  {| globals := initial_globals "C:/flux_output";
     config_file := CfgMissing;
     probe_directory := fun _ => DirNotCreatable;
     trace := [] |}.

Definition bogus_call : list (string * json) := [("func", JStr "bogus")].

Definition bogus_frame : json :=
  JDict [("tool_calls", JList [JDict bogus_call])].

Definition two_calls_frame : json :=
  JDict [("tool_calls",
          JList [JDict [("func", JStr "comfyui_status")];
                 JDict [("func", JStr "shutdown")]])].

(** Worlds without a configuration file in which the output directory
    validates: the handlers at hand keep them so. *)
Definition steady (w : World) : Prop :=
  config_file w = CfgMissing /\ validate_output_directory w = Ok true.

Lemma steady_validates w : steady w -> is_ok (validate_output_directory w) = true.
Proof. intros [_ Hv]. now rewrite Hv. Qed.

Lemma steady_handlers h params context system_info w rw :
  steady w ->
  call_with_arguments (H := Sample.runtime) sample_external h params context system_info w
  = Ok rw ->
  steady rw.2.
Proof.
  intros [Hc Hv] Hcall. destruct h; cbn in Hcall; try discriminate;
    try (injection Hcall as <-; now split).
  destruct (generate_image_using_kontext (config_file w) (globals w)
              params context system_info) as [[r g] evs] eqn:Hg.
  injection Hcall as <-. cbn [snd].
  assert (g = globals w) as ->.
  { unfold generate_image_using_kontext in Hg. rewrite Hc in Hg. cbn [load_config] in Hg.
    destruct (kontext_body (globals w) params) as [[r' evs']|e]; now injection Hg. }
  split; [exact Hc|exact Hv].
Qed.

Lemma sample_world_steady : steady sample_world.
Proof. split; reflexivity. Qed.





Lemma main_loop_answers_each_frame_witness :
  forallb acceptable [JNull; bogus_frame; two_calls_frame; bogus_frame] = true /\
  main_loop (H := Sample.runtime) sample_external
            [JNull; bogus_frame; two_calls_frame; bogus_frame] (JStr "") sample_world []
  = Stopped [write_response (H := Sample.runtime) (Some (unknown_command "bogus"));
             write_response (H := Sample.runtime) (Some execute_shutdown_command)]
            sample_world.
Proof.
  split; [reflexivity|].
  pose proof (main_loop_answers_each_frame (H := Sample.runtime) sample_external
                steady steady_validates steady_handlers
                [JNull; bogus_frame; two_calls_frame; bogus_frame] (JStr "")
                sample_world [] sample_world_steady eq_refl) as Hloop.
  destruct (main_loop (H := Sample.runtime) sample_external
              [JNull; bogus_frame; two_calls_frame; bogus_frame] (JStr "")
              sample_world []) eqn:E; [| |destruct Hloop].
  - vm_compute in E. injection E as <- <-. reflexivity.
  - vm_compute in E. discriminate.
Defined.



Lemma ill_typed_frame_crashes_main_witness :
  assoc TOOL_CALLS_PROPERTY [("tool_calls", JInt 5)] = Some (JInt 5) /\
  main_loop (H := Sample.runtime) sample_external
            [JDict [("tool_calls", JInt 5)]; two_calls_frame] (JStr "") sample_world []
  = Crashed TypeError [] sample_world.
Proof.
  split; [reflexivity|].
  exact (ill_typed_frame_crashes_main (H := Sample.runtime) sample_external
           [("tool_calls", JInt 5)] (JInt 5) (JStr "") sample_world []
           [two_calls_frame] eq_refl I).
Defined.

End Router.

(* ================================================================== *)
(** ** The ComfyUI execution monitor: [execute_comfyui_workflow] *)
(* ================================================================== *)

Module Monitor.
Import Py.
Local Open Scope string_scope.
Local Open Scope list_scope.
Local Open Scope Z_scope.

(** The bytes of one image. *)
Definition image : Type := list byte.

(** The [output_images] dict: node id to the images received for it. *)
Definition images_by_node : Type := list (string * list image).

(** What a call of [requests.get] or [requests.post] comes to: an
    exception, or a response with its status code, the value of
    [response.json()] ([None] when that raises) and [response.content]. *)
Inductive HttpReply : Type :=
| HttpRaises (e : exn)
| HttpResponse (status_code : Z) (body : option json) (content : list byte).

(** What one call of [ws.recv()] comes to. *)
Inductive Recv : Type :=
| RecvTimeout                       (* WebSocketTimeoutException *)
| RecvError (e : exn)               (* any other exception *)
| RecvText (text : list N)          (* a [str] *)
| RecvBinary (data : list byte).    (* [bytes] *)

(** The services as the function meets them.  [ws_frames] pairs each
    call of [ws.recv()] with the microseconds elapsed since [start_time]
    at the loop test that precedes it; it is the run of calls up to the
    first test after the deadline, so when it is used up the next test
    finds the deadline passed. *)
Record Env : Type := mkEnv {
  client_id : string;                       (* str(uuid.uuid4()) *)
  queue_reply : HttpReply;                  (* POST {url}/prompt *)
  ws_connect : option exn;                  (* ws.connect(ws_url) *)
  ws_frames : list (Z * Recv);
  http_get : string -> HttpReply            (* GET of a history or view URL *)
}.

(** The network calls, in the order they are made. *)
Inductive Net : Type :=
| QueuePost (url : string)
| StatusGet (url : string)
| WsConnect (url : string)
| WsRecv
| WsClose
| HistoryGet (url : string)
| ImageGet (url : string).

Definition is_history_get (n : Net) : bool :=
  match n with HistoryGet _ => true | _ => false end.

Definition is_image_get (n : Net) : bool :=
  match n with ImageGet _ => true | _ => false end.

Definition timeout_seconds : Z := 300.

(** [(datetime.now() - start_time).total_seconds() > timeout_seconds]. *)
Definition deadline_passed (elapsed_microseconds : Z) : bool :=
  timeout_seconds * 1000000 <? elapsed_microseconds.

(** [s.replace(old, "")] for a non-empty [old]: occurrences are removed
    from left to right; [skip] counts the characters of a match still to
    be dropped. *)
Fixpoint remove_all (old : string) (skip : nat) (s : string) : string :=
  match s with
  | EmptyString => EmptyString
  | String c rest =>
      match skip with
      | S k => remove_all old k rest
      | O =>
          if String.prefix old s then remove_all old (String.length old - 1) rest
          else String c (remove_all old O rest)
      end
  end.

Definition ws_url_of (comfyui_url client : string) : string :=
  "ws://" +:+ remove_all "https://" 0 (remove_all "http://" 0 comfyui_url)
  +:+ "/ws?clientId=" +:+ client.

(** [response.raise_for_status()]. *)
Definition raises_for_status (status_code : Z) : bool :=
  (400 <=? status_code) && (status_code <? 600).

(** [output_images["1"].append(data)], creating the list when the key is
    missing. *)
Definition append_image (data : image) (images : images_by_node) : images_by_node :=
  match assoc "1" images with
  | Some l => dict_set "1" (l ++ [data]) images
  | None => dict_set "1" [data] images
  end.

Section Execute.
Context `{Runtime}.

(** The handling of one parsed text message: [true] when the loop is to
    stop with [workflow_completed = True]. *)
Definition handle_message (prompt_id message : json) : result bool :=
  do type <- getitem message (JStr "type");
  if py_eq type (JStr "executing") then
    do data <- getitem message (JStr "data");
    do has_id <- contains data (JStr "prompt_id");
    if has_id then
      do id <- getitem data (JStr "prompt_id");
      if py_eq id prompt_id then
        do node <- getitem data (JStr "node");
        match node with
        | JNull => Ok true
        | _ => Ok false
        end
      else Ok false
    else Ok false
  else if py_eq type (JStr "executed") then
    do data <- getitem message (JStr "data");
    do has_node <- contains data (JStr "node");
    if has_node then
      do node_id <- getitem data (JStr "node");
      if py_eq node_id (JStr "1") then
        do has_output <- contains data (JStr "output");
        if has_output then
          do output <- getitem data (JStr "output");
          do has_images <- contains output (JStr "images");
          if has_images then
            (* the log line takes len(data['output']['images']) *)
            do images <- getitem output (JStr "images");
            do _n <- py_len images;
            Ok true
          else Ok false
        else Ok false
      else Ok false
    else Ok false
  else Ok false.

(** How the monitoring loop is left. *)
Inductive LoopExit : Type :=
| LoopDone (workflow_completed : bool) (images : images_by_node) (calls : list Net)
| LoopRaised (e : exn) (calls : list Net).

(** [while not workflow_completed: ...]. *)
Fixpoint monitor_loop
    (prompt_id : json) (frames : list (Z * Recv))
    (images : images_by_node) (calls : list Net) : LoopExit :=
  match frames with
  | [] => LoopDone false images calls
  | (elapsed, recv) :: rest =>
      if deadline_passed elapsed then LoopDone false images calls
      else
        match recv with
        | RecvTimeout => monitor_loop prompt_id rest images (calls ++ [WsRecv])
        | RecvError _ => monitor_loop prompt_id rest images (calls ++ [WsRecv])
        | RecvText text =>
            match json_loads text with
            | None => monitor_loop prompt_id rest images (calls ++ [WsRecv])
            | Some message =>
                match handle_message prompt_id message with
                | Raise e => LoopRaised e (calls ++ [WsRecv])
                | Ok true => LoopDone true images (calls ++ [WsRecv])
                | Ok false => monitor_loop prompt_id rest images (calls ++ [WsRecv])
                end
            end
        | RecvBinary data =>
            monitor_loop prompt_id rest (append_image data images) (calls ++ [WsRecv])
        end
  end.

Definition view_url (comfyui_url : string) (filename subfolder : json) : string :=
  comfyui_url +:+ "/view?filename=" +:+ py_str filename
  +:+ "&type=output&subfolder=" +:+ py_str subfolder.

(** [for i, image_info in enumerate(images)]: the images appended to
    [output_images["1"]] and the calls made; an exception ends the loop
    and keeps what was appended before. *)
Fixpoint download_images
    (get : string -> HttpReply) (comfyui_url : string)
    (descriptors : list json) (got : list image) (calls : list Net)
  : list image * list Net :=
  match descriptors with
  | [] => (got, calls)
  | image_info :: rest =>
      match (do filename <- getitem image_info (JStr "filename");
             do subfolder <- get_method image_info "subfolder" (JStr "");
             Ok (view_url comfyui_url filename subfolder)) with
      | Raise _ => (got, calls)
      | Ok image_url =>
          match get image_url with
          | HttpRaises _ => (got, calls ++ [ImageGet image_url])
          | HttpResponse status_code _ content =>
              if status_code =? 200 then
                download_images get comfyui_url rest (got ++ [content])
                                (calls ++ [ImageGet image_url])
              else
                download_images get comfyui_url rest got
                                (calls ++ [ImageGet image_url])
          end
      end
  end.

(** The descriptors the history holds for the SaveImage node of this
    prompt: [Ok None] when one of the [if] tests fails, [Raise] when a
    step raises. *)
Definition history_descriptors (prompt_id history : json) : result (option (list json)) :=
  do known <- contains history prompt_id;
  if known then
    do workflow_history <- getitem history prompt_id;
    do outputs <- get_method workflow_history "outputs" (JDict []);
    do has_node <- contains outputs (JStr "1");
    if has_node then
      do outputs' <- getitem workflow_history (JStr "outputs");
      do save_image_output <- getitem outputs' (JStr "1");
      do has_images <- contains save_image_output (JStr "images");
      if has_images then
        do images <- getitem save_image_output (JStr "images");
        do _n <- py_len images;
        do descriptors <- iterate images;
        Ok (Some descriptors)
      else Ok None
    else Ok None
  else Ok None.

(** The fallback under [if not output_images:], with its own
    [try ... except Exception]. *)
Definition history_fallback
    (get : string -> HttpReply) (comfyui_url : string) (prompt_id : json)
  : images_by_node * list Net :=
  let history_url := comfyui_url +:+ "/history" in
  match get history_url with
  | HttpRaises _ => ([], [HistoryGet history_url])
  | HttpResponse status_code body _ =>
      if status_code =? 200 then
        match body with
        | None => ([], [HistoryGet history_url])
        | Some history =>
            match history_descriptors prompt_id history with
            | Ok (Some descriptors) =>
                let '(got, calls) :=
                  download_images get comfyui_url descriptors [] [HistoryGet history_url] in
                ([("1", got)], calls)
            | Ok None | Raise _ => ([], [HistoryGet history_url])
            end
        end
      else ([], [HistoryGet history_url])
  end.

(** What a run comes to: the value returned ([None] for failure), the
    flag [workflow_completed] when the loop was reached, and the network
    calls made. *)
Record Run : Type := mkRun {
  returned : option images_by_node;
  workflow_completed : option bool;
  calls : list Net
}.

Definition truthy_images (images : images_by_node) : bool :=
  match images with [] => false | _ => true end.

(** [execute_comfyui_workflow(workflow_data, comfyui_url)]. *)
Definition execute_comfyui_workflow (env : Env) (comfyui_url : string) : Run :=
  let queue_url := comfyui_url +:+ "/prompt" in
  let failed completed calls :=
    {| returned := None; workflow_completed := completed; calls := calls |} in
  match queue_reply env with
  | HttpRaises _ => failed None [QueuePost queue_url]
  | HttpResponse status_code body _ =>
      if raises_for_status status_code then failed None [QueuePost queue_url]
      else
        match body with
        | None => failed None [QueuePost queue_url]
        | Some result =>
            match get_method result "prompt_id" JNull with
            | Raise _ => failed None [QueuePost queue_url]
            | Ok prompt_id =>
                if negb (truthy prompt_id) then failed None [QueuePost queue_url]
                else
                  let ws_url := ws_url_of comfyui_url (client_id env) in
                  (* the status check cannot raise past its own handler *)
                  let before := [QueuePost queue_url; StatusGet queue_url;
                                 WsConnect ws_url] in
                  match ws_connect env with
                  | Some _ => failed None before
                  | None =>
                      match monitor_loop prompt_id (ws_frames env) [] before with
                      | LoopRaised _ calls => failed None (calls ++ [WsClose])
                      | LoopDone completed images calls =>
                          let '(output_images, calls') :=
                            if negb (truthy_images images) then
                              let '(found, more) :=
                                history_fallback (http_get env) comfyui_url prompt_id in
                              (found, calls ++ [WsClose] ++ more)
                            else (images, calls ++ [WsClose]) in
                          {| returned := if truthy_images output_images
                                         then Some output_images else None;
                             workflow_completed := Some completed;
                             calls := calls' |}
                      end
                  end
            end
        end
  end.

End Execute.

(** *** The monitoring loop *)

(** The prompt id a successful queue call hands to the monitor. *)
Definition queued_prompt_id (env : Env) : option json :=
  match queue_reply env with
  | HttpResponse status_code (Some result) _ =>
      if raises_for_status status_code then None
      else match get_method result "prompt_id" JNull with
           | Ok prompt_id => if truthy prompt_id then Some prompt_id else None
           | Raise _ => None
           end
  | _ => None
  end.

(** The calls made before the loop is entered. *)
Definition opening_calls (env : Env) (url : string) : list Net :=
  [QueuePost (url +:+ "/prompt"); StatusGet (url +:+ "/prompt");
   WsConnect (ws_url_of url (client_id env))].

Definition history_polls (calls : list Net) : nat :=
  length (List.filter is_history_get calls).

(** The payloads of the binary frames, in order. *)
Fixpoint binary_frames (frames : list (Z * Recv)) : list image :=
  match frames with
  | [] => []
  | (_, RecvBinary data) :: rest => data :: binary_frames rest
  | _ :: rest => binary_frames rest
  end.

Section MonitorFacts.
Context `{Runtime}.

(** A frame that leaves the loop running: received before the deadline,
    and not a message that completes the workflow or raises. *)
Definition quiet (prompt_id : json) (frame : Z * Recv) : bool :=
  negb (deadline_passed frame.1) &&
  match frame.2 with
  | RecvText text =>
      match json_loads text with
      | None => true
      | Some message =>
          match handle_message prompt_id message with
          | Ok false => true
          | _ => false
          end
      end
  | _ => true
  end.

(** The message [{"type": "executing", "data": {"node": null,
    "prompt_id": P}}], whatever else it carries. *)
Definition completion_message (prompt_id message : json) : Prop :=
  exists fields data id,
    message = JDict fields /\
    assoc "type" fields = Some (JStr "executing") /\
    assoc "data" fields = Some (JDict data) /\
    assoc "prompt_id" data = Some id /\
    py_eq id prompt_id = true /\
    assoc "node" data = Some JNull.

Lemma handle_completion_message prompt_id message :
  completion_message prompt_id message ->
  handle_message prompt_id message = Ok true.
Proof.
  intros (fields & data & id & -> & Htype & Hdata & Hid & Heq & Hnode).
  unfold handle_message. cbn [getitem bind]. rewrite Htype. cbn [bind py_eq String.eqb].
  cbn. rewrite Hdata. cbn. rewrite Hid. cbn. rewrite Heq, Hnode. reflexivity.
Qed.

Definition images_after (frames : list (Z * Recv)) (images : images_by_node)
  : images_by_node :=
  fold_left (fun acc data => append_image data acc) (binary_frames frames) images.

Lemma monitor_loop_quiet prompt_id pre rest images calls :
  forallb (quiet prompt_id) pre = true ->
  monitor_loop prompt_id (pre ++ rest) images calls
  = monitor_loop prompt_id rest (images_after pre images)
                 (calls ++ replicate (length pre) WsRecv).
Proof.
  revert images calls. induction pre as [|[elapsed recv] pre IH]; intros images calls Hq.
  - cbn. now rewrite app_nil_r.
  - cbn [forallb] in Hq. apply andb_true_iff in Hq as [Hf Hq].
    unfold quiet in Hf. cbn [fst snd] in Hf. apply andb_true_iff in Hf as [Hd Hf].
    apply negb_true_iff in Hd.
    cbn [app monitor_loop]. rewrite Hd.
    cbn [length replicate].
    replace (calls ++ WsRecv :: replicate (length pre) WsRecv)
      with ((calls ++ [WsRecv]) ++ replicate (length pre) WsRecv)
      by (now rewrite <- app_assoc).
    destruct recv as [|e|text|data]; unfold images_after; cbn [binary_frames].
    + now apply IH.
    + now apply IH.
    + destruct (json_loads text) as [message|]; [|now apply IH].
      destruct (handle_message prompt_id message) as [[|]|]; try discriminate.
      now apply IH.
    + cbn [fold_left]. now apply IH.
Qed.

Lemma monitor_loop_completion prompt_id elapsed text message rest images calls :
  deadline_passed elapsed = false ->
  json_loads text = Some message ->
  completion_message prompt_id message ->
  monitor_loop prompt_id ((elapsed, RecvText text) :: rest) images calls
  = LoopDone true images (calls ++ [WsRecv]).
Proof.
  intros Hd Hj Hm. cbn [monitor_loop]. rewrite Hd, Hj.
  now rewrite (handle_completion_message _ _ Hm).
Qed.

(** The loop itself only calls [ws.recv()]. *)
Lemma monitor_loop_calls prompt_id frames images calls :
  exists n,
    match monitor_loop prompt_id frames images calls with
    | LoopDone _ _ calls' | LoopRaised _ calls' => calls' = calls ++ replicate n WsRecv
    end.
Proof.
  revert images calls. induction frames as [|[elapsed recv] frames IH]; intros images calls.
  - exists 0%nat. cbn. now rewrite app_nil_r.
  - cbn [monitor_loop]. destruct (deadline_passed elapsed).
    { exists 0%nat. cbn. now rewrite app_nil_r. }
    assert (Hstep : forall images',
      exists n,
        match monitor_loop prompt_id frames images' (calls ++ [WsRecv]) with
        | LoopDone _ _ calls' | LoopRaised _ calls' => calls' = calls ++ replicate n WsRecv
        end).
    { intros images'. destruct (IH images' (calls ++ [WsRecv])) as [n Hn].
      exists (S n). cbn [replicate].
      replace (calls ++ WsRecv :: replicate n WsRecv)
        with ((calls ++ [WsRecv]) ++ replicate n WsRecv)
        by (now rewrite <- app_assoc).
      exact Hn. }
    destruct recv as [|e|text|data]; try apply Hstep.
    destruct (json_loads text) as [message|]; [|apply Hstep].
    destruct (handle_message prompt_id message) as [[|]|e]; try apply Hstep;
      exists 1%nat; reflexivity.
Qed.

Lemma history_polls_app a b : history_polls (a ++ b) = (history_polls a + history_polls b)%nat.
Proof. unfold history_polls. now rewrite List.filter_app, length_app. Qed.

Lemma history_polls_recv n : history_polls (replicate n WsRecv) = 0%nat.
Proof. induction n; [reflexivity|exact IHn]. Qed.

Lemma download_images_polls get url descriptors got calls :
  history_polls (download_images get url descriptors got calls).2 = history_polls calls.
Proof.
  revert got calls. induction descriptors as [|d ds IH]; intros got calls; [reflexivity|].
  cbn [download_images].
  destruct (bind (getitem d (JStr "filename")) _) as [image_url|]; [|reflexivity].
  destruct (get image_url) as [e|status_code body content].
  - cbn [snd]. rewrite history_polls_app. cbn. lia.
  - destruct (status_code =? 200); rewrite IH, history_polls_app; cbn; lia.
Qed.

(** The fallback asks the history endpoint once, whatever it finds. *)
Lemma history_fallback_polls_once get url prompt_id :
  history_polls (history_fallback get url prompt_id).2 = 1%nat.
Proof.
  unfold history_fallback.
  destruct (get (url +:+ "/history")) as [e|status_code body content]; [reflexivity|].
  destruct (status_code =? 200); [|reflexivity].
  destruct body as [history|]; [|reflexivity].
  destruct (history_descriptors prompt_id history) as [[descriptors|]|]; try reflexivity.
  destruct (download_images get url descriptors [] _) as [got calls] eqn:Hd.
  cbn [snd]. change calls with (got, calls).2. rewrite <- Hd.
  now rewrite download_images_polls.
Qed.

(** The run once the prompt is queued and the socket is open. *)
Lemma execute_monitoring env url prompt_id :
  queued_prompt_id env = Some prompt_id ->
  ws_connect env = None ->
  execute_comfyui_workflow env url
  = match monitor_loop prompt_id (ws_frames env) [] (opening_calls env url) with
    | LoopRaised _ calls =>
        {| returned := None; workflow_completed := None; calls := calls ++ [WsClose] |}
    | LoopDone completed images calls =>
        if truthy_images images then
          {| returned := Some images; workflow_completed := Some completed;
             calls := calls ++ [WsClose] |}
        else
          let fb := history_fallback (http_get env) url prompt_id in
          {| returned := if truthy_images fb.1 then Some fb.1 else None;
             workflow_completed := Some completed;
             calls := calls ++ [WsClose] ++ fb.2 |}
    end.
Proof.
  intros Hq Hc. unfold queued_prompt_id in Hq. unfold execute_comfyui_workflow.
  destruct (queue_reply env) as [e|status_code [result|] content]; try discriminate.
  destruct (raises_for_status status_code); [discriminate|].
  destruct (get_method result "prompt_id" JNull) as [p|]; [|discriminate].
  destruct (truthy p) eqn:Hp; [|discriminate]. injection Hq as ->.
  cbn [negb]. rewrite Hc.
  destruct (monitor_loop _ _ _ _) as [completed images calls|e calls]; [|reflexivity].
  destruct (truthy_images images) eqn:Hi; cbn [negb].
  - now rewrite Hi.
  - now destruct (history_fallback (http_get env) url prompt_id) as [found more].
Qed.

End MonitorFacts.

(** *** What the stream decides and what the fallback adds *)

Section MonitorTheorems.
Context `{Runtime}.

Lemma append_image_singleton data got :
  append_image data [("1", got)] = [("1", got ++ [data])].
Proof. reflexivity. Qed.

Lemma images_after_nonempty frames got :
  images_after frames [("1", got)] = [("1", got ++ binary_frames frames)].
Proof.
  unfold images_after. generalize (binary_frames frames) as l. intros l.
  revert got. induction l as [|d l IH]; intros got; cbn [fold_left].
  - now rewrite app_nil_r.
  - rewrite append_image_singleton, IH, <- app_assoc. reflexivity.
Qed.

(** The images the loop holds after [frames], starting from none: the
    binary payloads under the key ["1"], or an empty dict. *)
Lemma images_after_empty frames :
  images_after frames []
  = match binary_frames frames with
    | [] => []
    | l => [("1", l)]
    end.
Proof.
  unfold images_after. destruct (binary_frames frames) as [|d l] eqn:Hb; [reflexivity|].
  cbn [fold_left]. change (append_image d []) with [("1", [d])].
  pose proof (images_after_nonempty (map (fun x => (0, RecvBinary x)) l) [d]) as E.
  unfold images_after in E.
  assert (Hl : binary_frames (map (fun x => (0, RecvBinary x)) l) = l).
  { clear. induction l as [|x l IH]; [reflexivity|]. cbn. now rewrite IH. }
  rewrite Hl in E. exact E.
Qed.

(** Timeouts and receive errors never end the loop by themselves: it
    runs to the deadline with nothing received. *)
Definition silent (frame : Z * Recv) : bool :=
  match frame.2 with
  | RecvTimeout | RecvError _ => true
  | _ => false
  end.

Lemma monitor_loop_silent prompt_id frames calls :
  forallb silent frames = true ->
  exists calls', monitor_loop prompt_id frames [] calls = LoopDone false [] calls'.
Proof.
  revert calls. induction frames as [|[elapsed recv] frames IH]; intros calls Hs.
  - cbn. eauto.
  - cbn [forallb] in Hs. apply andb_true_iff in Hs as [Hf Hs].
    cbn [monitor_loop]. destruct (deadline_passed elapsed); [eauto|].
    destruct recv; try discriminate; now apply IH.
Qed.

(** C2 (as amended).  When the stream delivers the completion message
    for this prompt before the deadline, after frames that left the loop
    running, the loop stops with [workflow_completed = True].  The
    history poll is then skipped exactly when a binary frame had been
    received before the message, in which case those frames are the
    result; with no binary frame the history endpoint is asked once. *)
Theorem completion_event_ends_monitoring
    (env : Env) (url : string) (prompt_id : json)
    (pre : list (Z * Recv)) (elapsed : Z) (text : list N) (message : json)
    (rest : list (Z * Recv)) :
  queued_prompt_id env = Some prompt_id ->
  ws_connect env = None ->
  ws_frames env = pre ++ (elapsed, RecvText text) :: rest ->
  forallb (quiet prompt_id) pre = true ->
  deadline_passed elapsed = false ->
  json_loads text = Some message ->
  completion_message prompt_id message ->
  let run := execute_comfyui_workflow env url in
  workflow_completed run = Some true /\
  match binary_frames pre with
  | [] => history_polls (calls run) = 1%nat
  | received => history_polls (calls run) = 0%nat /\
                returned run = Some [("1", received)]
  end.
Proof.
  intros Hq Hc Hframes Hquiet Hd Hj Hm run. subst run.
  rewrite (execute_monitoring env url prompt_id Hq Hc), Hframes.
  rewrite (monitor_loop_quiet _ _ _ _ _ Hquiet).
  rewrite (monitor_loop_completion _ _ _ _ _ _ _ Hd Hj Hm).
  rewrite images_after_empty.
  destruct (binary_frames pre) as [|d l]; cbn [truthy_images].
  - split; [reflexivity|]. cbn [calls].
    rewrite !history_polls_app, history_polls_recv, history_fallback_polls_once.
    reflexivity.
  - split; [reflexivity|]. split; [|reflexivity]. cbn [calls].
    rewrite !history_polls_app, history_polls_recv. reflexivity.
Qed.

(** A connection that cannot be opened: [ws.connect] raises outside the
    monitoring [try], so the function returns [None] straight away. *)
Lemma execute_unconnected env url prompt_id e :
  queued_prompt_id env = Some prompt_id ->
  ws_connect env = Some e ->
  execute_comfyui_workflow env url
  = {| returned := None; workflow_completed := None; calls := opening_calls env url |}.
Proof.
  intros Hq Hc. unfold queued_prompt_id in Hq. unfold execute_comfyui_workflow.
  destruct (queue_reply env) as [?|status_code [result|] content]; try discriminate.
  destruct (raises_for_status status_code); [discriminate|].
  destruct (get_method result "prompt_id" JNull) as [p|]; [|discriminate].
  destruct (truthy p); [|discriminate]. cbn [negb]. rewrite Hc. reflexivity.
Qed.

(** C3 (as amended).  Once the socket is open, a loop that ends with no
    binary frame received - at the deadline, after any number of receive
    timeouts and receive errors, or on a completion message - is
    followed by exactly one call of the history endpoint, made after the
    socket is closed and before the function returns.  When the socket
    cannot be opened, whatever [ws.connect] raises, the function returns
    [None] after the three opening calls and the history endpoint is
    never asked. *)
Theorem fallback_polled_once_without_artifact
    (env : Env) (url : string) (prompt_id : json) :
  queued_prompt_id env = Some prompt_id ->
  let run := execute_comfyui_workflow env url in
  let fallback := history_fallback (http_get env) url prompt_id in
  (forall completed loop_calls,
     ws_connect env = None ->
     monitor_loop prompt_id (ws_frames env) [] (opening_calls env url)
     = LoopDone completed [] loop_calls ->
     history_polls (calls run) = 1%nat /\
     calls run = loop_calls ++ [WsClose] ++ fallback.2 /\
     returned run = (if truthy_images fallback.1 then Some fallback.1 else None)) /\
  (forall e,
     ws_connect env = Some e ->
     returned run = None /\
     history_polls (calls run) = 0%nat /\
     calls run = opening_calls env url).
Proof.
  intros Hq run fallback. subst run fallback. split.
  - intros completed loop_calls Hc Hloop.
    rewrite (execute_monitoring env url prompt_id Hq Hc), Hloop.
    cbn [truthy_images calls returned]. split; [|split; reflexivity].
    destruct (monitor_loop_calls prompt_id (ws_frames env) [] (opening_calls env url))
      as [n Hn].
    rewrite Hloop in Hn. subst loop_calls.
    rewrite !history_polls_app, history_polls_recv, history_fallback_polls_once.
    reflexivity.
  - intros e Hc. rewrite (execute_unconnected env url prompt_id e Hq Hc).
    repeat split; reflexivity.
Qed.

(** Every descriptor whose URL answers 200 contributes its content. *)
Lemma download_images_all_ok get url descriptors got calls :
  Forall (fun d => exists filename content body,
            getitem d (JStr "filename") = Ok filename /\
            is_ok (get_method d "subfolder" (JStr "")) = true /\
            get (view_url url filename (dict_get
                   (match d with JDict kvs => kvs | _ => [] end) "subfolder" (JStr "")))
            = HttpResponse 200 body content) descriptors ->
  length (download_images get url descriptors got calls).1
  = (length got + length descriptors)%nat.
Proof.
  intros Hall. revert got calls.
  induction Hall as [|d ds (filename & content & body & Hf & Hs & Hg) _ IH]; intros got calls.
  - cbn. lia.
  - cbn [download_images]. rewrite Hf. cbn [bind].
    destruct d as [| | | | | |kvs]; try discriminate. cbn [get_method bind].
    rewrite Hg. cbn. rewrite IH, length_app. cbn. lia.
Qed.

End MonitorTheorems.

(** *** Worked sessions *)

Definition quoted (s : string) : string := Kontext.dquote +:+ s +:+ Kontext.dquote.

(** The text of the completion event for prompt [p-1]. *)
Definition completion_text : string :=
  "{" +:+ quoted "type" +:+ ": " +:+ quoted "executing" +:+ ", "
  +:+ quoted "data" +:+ ": {" +:+ quoted "node" +:+ ": null, "
  +:+ quoted "prompt_id" +:+ ": " +:+ quoted "p-1" +:+ "}}".

Definition completion_value : json :=
  JDict [("type", JStr "executing");
         ("data", JDict [("node", JNull); ("prompt_id", JStr "p-1")])].

Definition session_runtime : Runtime :=
  Sample.runtime_for [(completion_text, completion_value)].

Definition server : string := "http://localhost:8188".

Definition queued_reply : HttpReply :=
  HttpResponse 200 (Some (JDict [("prompt_id", JStr "p-1"); ("number", JInt 7)])) [].

Definition descriptor (filename : string) : json :=
  JDict [("filename", JStr filename); ("subfolder", JStr ""); ("type", JStr "output")].

Definition history_of (descriptors : list json) : json :=
  JDict [("p-1", JDict [("outputs", JDict [("1", JDict [("images", JList descriptors)])])])].

Definition png : list byte := [x89; x50; x4e; x47].

(** A server that answers the history call with [descriptors] and every
    other GET with [other]. *)
Definition get_with (descriptors : list json) (other : HttpReply) (url : string)
  : HttpReply :=
  if String.eqb url (server +:+ "/history")
  then HttpResponse 200 (Some (history_of descriptors)) []
  else other.

Definition session (connect : option exn) (frames : list (Z * Recv))
    (get : string -> HttpReply) : Env :=
  {| client_id := "c0ffee";
     queue_reply := queued_reply;
     ws_connect := connect;
     ws_frames := frames;
     http_get := get |}.

Definition completion_frame : Z * Recv :=
  (2000000, RecvText (Sample.text_of completion_text)).

(** C2 (as stated) fails.  The stream delivers only the completion
    message, two seconds into the session: the loop stops with
    [workflow_completed = True], no image has been received, and the
    history endpoint is polled all the same. *)
Lemma completion_event_still_polls_history :
  let env := session None [completion_frame]
               (get_with [descriptor "ComfyUI_00001_.png"] (HttpResponse 200 None png)) in
  let run := execute_comfyui_workflow (H := session_runtime) env server in
  json_loads (Runtime := session_runtime) (Sample.text_of completion_text)
  = Some completion_value /\
  workflow_completed run = Some true /\
  calls run
  = [QueuePost "http://localhost:8188/prompt";
     StatusGet "http://localhost:8188/prompt";
     WsConnect "ws://localhost:8188/ws?clientId=c0ffee";
     WsRecv; WsClose;
     HistoryGet "http://localhost:8188/history";
     ImageGet "http://localhost:8188/view?filename=ComfyUI_00001_.png&type=output&subfolder="] /\
  returned run = Some [("1", [png])].
Proof.
  cbv zeta. split; [vm_compute; reflexivity|].
  split; [vm_compute; reflexivity|].
  split; vm_compute; reflexivity.
Qed.

Lemma completion_event_ends_monitoring_witness :
  let env := session None [(1000000, RecvBinary png); completion_frame]
               (get_with [] (HttpResponse 404 None [])) in
  let run := execute_comfyui_workflow (H := session_runtime) env server in
  workflow_completed run = Some true /\
  history_polls (calls run) = 0%nat /\
  returned run = Some [("1", [png])].
Proof.
  cbv zeta.
  assert (Hm : completion_message (JStr "p-1") completion_value).
  { exists [("type", JStr "executing");
            ("data", JDict [("node", JNull); ("prompt_id", JStr "p-1")])],
           [("node", JNull); ("prompt_id", JStr "p-1")], (JStr "p-1").
    repeat split; reflexivity. }
  exact (completion_event_ends_monitoring (H := session_runtime)
           (session None [(1000000, RecvBinary png); completion_frame]
              (get_with [] (HttpResponse 404 None [])))
           server (JStr "p-1") [(1000000, RecvBinary png)] 2000000
           (Sample.text_of completion_text) completion_value []
           eq_refl eq_refl eq_refl eq_refl eq_refl eq_refl Hm).
Defined.

(** C3 (as stated) fails.  When the connection to the event stream
    cannot be opened, [ws.connect] raises outside the monitoring loop:
    the function returns [None] and the history endpoint is never
    asked. *)
Lemma refused_connection_skips_fallback :
  let env := session (Some ConnectionError) []
               (get_with [descriptor "ComfyUI_00001_.png"] (HttpResponse 200 None png)) in
  let run := execute_comfyui_workflow (H := session_runtime) env server in
  returned run = None /\
  history_polls (calls run) = 0%nat /\
  calls run
  = [QueuePost "http://localhost:8188/prompt";
     StatusGet "http://localhost:8188/prompt";
     WsConnect "ws://localhost:8188/ws?clientId=c0ffee"].
Proof.
  cbv zeta. split; [reflexivity|]. split; vm_compute; reflexivity.
Qed.

Lemma fallback_polled_once_without_artifact_witness :
  let env := session None [(1000000, RecvError ConnectionError); (6000000, RecvTimeout)]
               (get_with [] (HttpResponse 404 None [])) in
  let run := execute_comfyui_workflow (H := session_runtime) env server in
  monitor_loop (H := session_runtime) (JStr "p-1") (ws_frames env) []
               (opening_calls env server)
  = LoopDone false [] (opening_calls env server ++ [WsRecv; WsRecv]) /\
  history_polls (calls run) = 1%nat.
Proof.
  cbv zeta. split; [reflexivity|].
  exact (proj1 (proj1 (fallback_polled_once_without_artifact (H := session_runtime)
                         (session None [(1000000, RecvError ConnectionError);
                                        (6000000, RecvTimeout)]
                            (get_with [] (HttpResponse 404 None [])))
                         server (JStr "p-1") eq_refl)
                      false _ eq_refl eq_refl)).
Defined.

(** C6.  The stream yields nothing and the history lists one image.
    When its download is answered with 404 nothing was retrieved, yet
    the function returns the dict [{"1": []}] rather than [None]: the
    key was created before the downloads, so [if output_images:] holds.
    When the first of two downloads raises, the second is never
    attempted. *)
Theorem empty_retrieval_is_not_reported_as_failure :
  let missing := session None []
                   (get_with [descriptor "ComfyUI_00001_.png"]
                             (HttpResponse 404 None [])) in
  let broken := session None []
                  (get_with [descriptor "a.png"; descriptor "b.png"]
                            (HttpRaises Timeout)) in
  let run := execute_comfyui_workflow (H := session_runtime) missing server in
  let run' := execute_comfyui_workflow (H := session_runtime) broken server in
  (returned run = Some [("1", [])] /\
   List.filter is_image_get (calls run)
   = [ImageGet "http://localhost:8188/view?filename=ComfyUI_00001_.png&type=output&subfolder="]) /\
  (returned run' = Some [("1", [])] /\
   List.filter is_image_get (calls run')
   = [ImageGet "http://localhost:8188/view?filename=a.png&type=output&subfolder="]).
Proof.
  cbv zeta. split; split; vm_compute; reflexivity.
Qed.

(** *** Further properties of a session *)

Definition is_close (n : Net) : bool :=
  match n with WsClose => true | _ => false end.

Definition closes (calls : list Net) : nat := length (List.filter is_close calls).

Section SessionProperties.
Context `{Runtime}.

(** The URL an image descriptor is fetched from. *)
Definition descriptor_url (comfyui_url : string) (image_info : json) : result string :=
  do filename <- getitem image_info (JStr "filename");
  do subfolder <- get_method image_info "subfolder" (JStr "");
  Ok (view_url comfyui_url filename subfolder).

(** The download of a descriptor that is answered at all. *)
Definition answered (get : string -> HttpReply) (comfyui_url : string) (d : json) : bool :=
  match descriptor_url comfyui_url d with
  | Ok image_url => match get image_url with HttpResponse _ _ _ => true | _ => false end
  | Raise _ => false
  end.

Definition fetched (get : string -> HttpReply) (comfyui_url : string) (d : json)
  : option image :=
  match descriptor_url comfyui_url d with
  | Ok image_url =>
      match get image_url with
      | HttpResponse status_code _ content =>
          if status_code =? 200 then Some content else None
      | HttpRaises _ => None
      end
  | Raise _ => None
  end.

Definition requested (comfyui_url : string) (d : json) : option Net :=
  match descriptor_url comfyui_url d with
  | Ok image_url => Some (ImageGet image_url)
  | Raise _ => None
  end.

(** When every descriptor names a file and every download is answered,
    each descriptor is requested once, in order, at the URL built from
    its filename and subfolder, and the images kept are the contents of
    the answers with status 200, in that order: an answer with another
    status drops that image only.  With N answers of status 200 there
    are N images. *)
Theorem downloads_keep_the_200_answers
    (get : string -> HttpReply) (comfyui_url : string)
    (descriptors : list json) (got : list image) (calls : list Net) :
  forallb (answered get comfyui_url) descriptors = true ->
  download_images get comfyui_url descriptors got calls
  = (got ++ omap (fetched get comfyui_url) descriptors,
     calls ++ omap (requested comfyui_url) descriptors) /\
  length (omap (requested comfyui_url) descriptors) = length descriptors.
Proof.
  revert got calls. induction descriptors as [|d ds IH]; intros got calls Hall.
  - cbn. now rewrite !app_nil_r.
  - cbn [forallb] in Hall. apply andb_true_iff in Hall as [Hd Hds].
    unfold answered in Hd. cbn [download_images omap list_omap].
    assert (Hf : fetched get comfyui_url d
                 = match descriptor_url comfyui_url d with
                   | Ok image_url =>
                       match get image_url with
                       | HttpResponse status_code _ content =>
                           if status_code =? 200 then Some content else None
                       | HttpRaises _ => None
                       end
                   | Raise _ => None
                   end) by reflexivity.
    assert (Hr : requested comfyui_url d
                 = match descriptor_url comfyui_url d with
                   | Ok image_url => Some (ImageGet image_url)
                   | Raise _ => None
                   end) by reflexivity.
    change (bind (getitem d (JStr "filename")) _) with (descriptor_url comfyui_url d).
    destruct (descriptor_url comfyui_url d) as [image_url|e]; [|discriminate].
    destruct (get image_url) as [e|status_code body content]; [discriminate|].
    rewrite Hf, Hr.
    destruct (status_code =? 200).
    + destruct (IH (got ++ [content]) (calls ++ [ImageGet image_url]) Hds) as [-> Hlen].
      rewrite <- !app_assoc. split; [reflexivity|]. cbn [length]. now rewrite Hlen.
    + destruct (IH got (calls ++ [ImageGet image_url]) Hds) as [-> Hlen].
      rewrite <- !app_assoc. split; [reflexivity|]. cbn [length]. now rewrite Hlen.
Qed.

Lemma execute_without_prompt_id (env : Env) (url : string) :
  queued_prompt_id env = None ->
  execute_comfyui_workflow env url
  = {| returned := None; workflow_completed := None;
       calls := [QueuePost (url +:+ "/prompt")] |}.
Proof.
  unfold queued_prompt_id, execute_comfyui_workflow. intros Hq.
  destruct (queue_reply env) as [e|status_code [result|] content]; [reflexivity| |].
  - destruct (raises_for_status status_code); [reflexivity|].
    destruct (get_method result "prompt_id" JNull) as [p|]; [|reflexivity].
    destruct (truthy p); [discriminate|reflexivity].
  - destruct (raises_for_status status_code); reflexivity.
Qed.

(** When the queue call fails - it raises, answers with an error
    status, answers with something that is not JSON or not an object,
    or gives no prompt id - the function returns [None] after that one
    call: no socket is opened and the history is not asked. *)
Theorem failed_queue_call_ends_the_session (env : Env) (url : string) :
  queued_prompt_id env = None ->
  returned (execute_comfyui_workflow env url) = None /\
  calls (execute_comfyui_workflow env url) = [QueuePost (url +:+ "/prompt")].
Proof.
  intros Hq. now rewrite (execute_without_prompt_id env url Hq).
Qed.

(** An ["executed"] message for node ["1"] that carries images ends the
    monitoring whatever prompt it belongs to - its prompt id is not
    looked at - while an ["executing"] message of another prompt is
    passed over. *)
Theorem executed_event_ignores_prompt_id
    (prompt_id : json) (fields data output : list (string * json)) (images : json) :
  assoc "data" fields = Some (JDict data) ->
  (assoc "type" fields = Some (JStr "executed") ->
   assoc "node" data = Some (JStr "1") ->
   assoc "output" data = Some (JDict output) ->
   assoc "images" output = Some images ->
   is_ok (py_len images) = true ->
   handle_message prompt_id (JDict fields) = Ok true) /\
  (forall id,
     assoc "type" fields = Some (JStr "executing") ->
     assoc "prompt_id" data = Some id ->
     py_eq id prompt_id = false ->
     handle_message prompt_id (JDict fields) = Ok false).
Proof.
  intros Hdata. split.
  - intros Htype Hnode Hout Himg Hlen. unfold handle_message.
    cbn [getitem bind]. rewrite Htype. cbn. rewrite Hdata. cbn.
    rewrite Hnode. cbn. rewrite Hout. cbn. rewrite Himg. cbn.
    destruct (py_len images); [reflexivity|discriminate].
  - intros id Htype Hid Hne. unfold handle_message.
    cbn [getitem bind]. rewrite Htype. cbn. rewrite Hdata. cbn.
    rewrite Hid. cbn. now rewrite Hne.
Qed.

(** A text frame that parses to something without a ["type"] - an object
    lacking the key, or a list, a number, a string, [null] - raises out
    of the loop: the socket is closed, the function returns [None], the
    history is not asked, and images received before it are dropped. *)
Theorem untyped_message_aborts_the_session
    (env : Env) (url : string) (prompt_id : json)
    (pre : list (Z * Recv)) (elapsed : Z) (text : list N) (message : json)
    (rest : list (Z * Recv)) (e : exn) :
  queued_prompt_id env = Some prompt_id ->
  ws_connect env = None ->
  ws_frames env = pre ++ (elapsed, RecvText text) :: rest ->
  forallb (quiet prompt_id) pre = true ->
  deadline_passed elapsed = false ->
  json_loads text = Some message ->
  getitem message (JStr "type") = Raise e ->
  execute_comfyui_workflow env url
  = {| returned := None; workflow_completed := None;
       calls := opening_calls env url ++ replicate (S (length pre)) WsRecv ++ [WsClose] |}.
Proof.
  intros Hq Hc Hframes Hquiet Hd Hj Htype.
  rewrite (execute_monitoring env url prompt_id Hq Hc), Hframes.
  rewrite (monitor_loop_quiet _ _ _ _ _ Hquiet).
  cbn [monitor_loop]. rewrite Hd, Hj. unfold handle_message. rewrite Htype.
  cbn [bind]. f_equal.
  assert (Hrep : forall n, replicate (S n) WsRecv = replicate n WsRecv ++ [WsRecv]).
  { clear. induction n as [|n IH]; [reflexivity|].
    cbn [replicate app]. f_equal. exact IH. }
  rewrite Hrep, <- !app_assoc. reflexivity.
Qed.

(** A stream that stays quiet up to the deadline: if it carried binary
    frames, they are the result, in the order received, and no HTTP
    request follows the closing of the socket; the loop was not
    completed. *)
Theorem binary_frames_are_the_result
    (env : Env) (url : string) (prompt_id : json) (first : image) (others : list image) :
  queued_prompt_id env = Some prompt_id ->
  ws_connect env = None ->
  forallb (quiet prompt_id) (ws_frames env) = true ->
  binary_frames (ws_frames env) = first :: others ->
  execute_comfyui_workflow env url
  = {| returned := Some [("1", first :: others)];
       workflow_completed := Some false;
       calls := opening_calls env url
                ++ replicate (length (ws_frames env)) WsRecv ++ [WsClose] |}.
Proof.
  intros Hq Hc Hquiet Hb.
  rewrite (execute_monitoring env url prompt_id Hq Hc).
  rewrite <- (app_nil_r (ws_frames env)) at 1.
  rewrite (monitor_loop_quiet _ _ _ _ _ Hquiet). cbn [monitor_loop].
  rewrite images_after_empty, Hb. cbn [truthy_images].
  now rewrite <- app_assoc.
Qed.

Lemma closes_app a b : closes (a ++ b) = (closes a + closes b)%nat.
Proof. unfold closes. now rewrite List.filter_app, length_app. Qed.

Lemma closes_recv n : closes (replicate n WsRecv) = 0%nat.
Proof. induction n; [reflexivity|exact IHn]. Qed.

Lemma download_images_closes get url descriptors got calls :
  closes (download_images get url descriptors got calls).2 = closes calls.
Proof.
  revert got calls. induction descriptors as [|d ds IH]; intros got calls; [reflexivity|].
  cbn [download_images].
  destruct (bind (getitem d (JStr "filename")) _) as [image_url|]; [|reflexivity].
  destruct (get image_url) as [e|status_code body content].
  - cbn [snd]. rewrite closes_app. cbn. lia.
  - destruct (status_code =? 200); rewrite IH, closes_app; cbn; lia.
Qed.

Lemma history_fallback_closes get url prompt_id :
  closes (history_fallback get url prompt_id).2 = 0%nat.
Proof.
  unfold history_fallback.
  destruct (get (url +:+ "/history")) as [e|status_code body content]; [reflexivity|].
  destruct (status_code =? 200); [|reflexivity].
  destruct body as [history|]; [|reflexivity].
  destruct (history_descriptors prompt_id history) as [[descriptors|]|]; try reflexivity.
  destruct (download_images get url descriptors [] _) as [got calls] eqn:Hd.
  cbn [snd]. change calls with (got, calls).2. rewrite <- Hd.
  now rewrite download_images_closes.
Qed.

(** The socket is closed exactly once in every run that opened it -
    whether the loop completed, timed out or raised - and never
    otherwise. *)
Theorem socket_closed_once (env : Env) (url : string) :
  closes (calls (execute_comfyui_workflow env url))
  = match queued_prompt_id env, ws_connect env with
    | Some _, None => 1%nat
    | _, _ => 0%nat
    end.
Proof.
  destruct (queued_prompt_id env) as [prompt_id|] eqn:Hq.
  2:{ now rewrite (execute_without_prompt_id env url Hq). }
  destruct (ws_connect env) as [e|] eqn:Hc.
  { unfold queued_prompt_id in Hq. unfold execute_comfyui_workflow.
    destruct (queue_reply env) as [?|status_code [result|] content]; try discriminate.
    destruct (raises_for_status status_code); [discriminate|].
    destruct (get_method result "prompt_id" JNull) as [p|]; [|discriminate].
    destruct (truthy p); [|discriminate]. cbn [negb]. rewrite Hc. reflexivity. }
  rewrite (execute_monitoring env url prompt_id Hq Hc).
  destruct (monitor_loop_calls prompt_id (ws_frames env) [] (opening_calls env url))
    as [n Hn].
  destruct (monitor_loop _ _ _ _) as [completed images loop_calls|e loop_calls]; subst.
  - destruct (truthy_images images); cbn [calls];
      rewrite !closes_app, closes_recv, ?history_fallback_closes; reflexivity.
  - cbn [calls]. rewrite !closes_app, closes_recv. reflexivity.
Qed.

End SessionProperties.

(** *** Worked sessions, continued *)

(** A server on which only [a.png] and [c.png] are still there. *)
Definition partial_get (url : string) : HttpReply :=
  if String.eqb url "http://localhost:8188/view?filename=b.png&type=output&subfolder="
  then HttpResponse 404 None []
  else HttpResponse 200 None png.

Lemma downloads_keep_the_200_answers_witness :
  download_images (H := session_runtime) partial_get server
    [descriptor "a.png"; descriptor "b.png"; descriptor "c.png"] [] []
  = ([png; png],
     [ImageGet "http://localhost:8188/view?filename=a.png&type=output&subfolder=";
      ImageGet "http://localhost:8188/view?filename=b.png&type=output&subfolder=";
      ImageGet "http://localhost:8188/view?filename=c.png&type=output&subfolder="]).
Proof.
  exact (proj1 (downloads_keep_the_200_answers (H := session_runtime) partial_get server
                  [descriptor "a.png"; descriptor "b.png"; descriptor "c.png"] [] []
                  eq_refl)).
Defined.

(** A server whose queue endpoint answers 500. *)
Definition overloaded : Env :=
  {| client_id := "c0ffee";
     queue_reply := HttpResponse 500 None [];
     ws_connect := None;
     ws_frames := [(1000000, RecvBinary png)];
     http_get := get_with [descriptor "a.png"] (HttpResponse 200 None png) |}.

Lemma failed_queue_call_ends_the_session_witness :
  returned (execute_comfyui_workflow (H := session_runtime) overloaded server) = None /\
  calls (execute_comfyui_workflow (H := session_runtime) overloaded server)
  = [QueuePost "http://localhost:8188/prompt"].
Proof.
  exact (failed_queue_call_ends_the_session (H := session_runtime) overloaded server eq_refl).
Defined.

Lemma executed_event_ignores_prompt_id_witness :
  handle_message (JStr "p-1")
    (JDict [("type", JStr "executed");
            ("data", JDict [("node", JStr "1"); ("prompt_id", JStr "p-2");
                            ("output", JDict [("images", JList [descriptor "a.png"])])])])
  = Ok true.
Proof.
  exact (proj1 (executed_event_ignores_prompt_id (JStr "p-1")
                  [("type", JStr "executed");
                   ("data", JDict [("node", JStr "1"); ("prompt_id", JStr "p-2");
                                   ("output", JDict [("images", JList [descriptor "a.png"])])])]
                  [("node", JStr "1"); ("prompt_id", JStr "p-2");
                   ("output", JDict [("images", JList [descriptor "a.png"])])]
                  [("images", JList [descriptor "a.png"])]
                  (JList [descriptor "a.png"]) eq_refl)
           eq_refl eq_refl eq_refl eq_refl eq_refl).
Defined.

(** A runtime on which the text [[1]] parses to a list. *)
Definition list_runtime : Runtime := Sample.runtime_for [("[1]", JList [JInt 1])].

Lemma untyped_message_aborts_the_session_witness :
  let env := session None [(1000000, RecvBinary png); (2000000, RecvText (Sample.text_of "[1]"))]
               (get_with [descriptor "a.png"] (HttpResponse 200 None png)) in
  execute_comfyui_workflow (H := list_runtime) env server
  = {| returned := None; workflow_completed := None;
       calls := opening_calls env server ++ [WsRecv; WsRecv; WsClose] |}.
Proof.
  cbv zeta.
  exact (untyped_message_aborts_the_session (H := list_runtime)
           (session None [(1000000, RecvBinary png);
                          (2000000, RecvText (Sample.text_of "[1]"))]
              (get_with [descriptor "a.png"] (HttpResponse 200 None png)))
           server (JStr "p-1") [(1000000, RecvBinary png)] 2000000
           (Sample.text_of "[1]") (JList [JInt 1]) [] TypeError
           eq_refl eq_refl eq_refl eq_refl eq_refl eq_refl eq_refl).
Defined.

Lemma binary_frames_are_the_result_witness :
  let env := session None [(1000000, RecvBinary png); (6000000, RecvTimeout);
                           (7000000, RecvBinary [x00])]
               (get_with [descriptor "a.png"] (HttpResponse 200 None png)) in
  execute_comfyui_workflow (H := session_runtime) env server
  = {| returned := Some [("1", [png; [x00]])];
       workflow_completed := Some false;
       calls := opening_calls env server ++ [WsRecv; WsRecv; WsRecv; WsClose] |}.
Proof.
  cbv zeta.
  exact (binary_frames_are_the_result (H := session_runtime)
           (session None [(1000000, RecvBinary png); (6000000, RecvTimeout);
                          (7000000, RecvBinary [x00])]
              (get_with [descriptor "a.png"] (HttpResponse 200 None png)))
           server (JStr "p-1") png [[x00]] eq_refl eq_refl eq_refl eq_refl).
Defined.

End Monitor.

(* ================================================================== *)
(** ** The workflow templates and their per-request copies *)
(* ================================================================== *)

Module Workflow.
Import Py.
Local Open Scope string_scope.
Local Open Scope list_scope.

(** Python objects live in a store; a dict or list is known by its
    address, so two names can hold the same object. *)
Abbreviation loc := nat (only parsing).

Inductive pyval : Type :=
| VNone
| VBool (b : bool)
| VInt (z : Z)
| VFloat (x : pyfloat)
| VStr (s : string)
| VRef (l : loc).

Inductive pyobj : Type :=
| ODict (items : list (string * pyval))
| OList (items : list pyval).

Abbreviation heap := (list pyobj) (only parsing).

(** Building the objects of a literal: the items first, then the
    container that holds them. *)
Fixpoint store (j : json) (h : heap) : pyval * heap :=
  match j with
  | JNull => (VNone, h)
  | JBool b => (VBool b, h)
  | JInt z => (VInt z, h)
  | JFloat x => (VFloat x, h)
  | JStr s => (VStr s, h)
  | JList items =>
      let '(vals, h') :=
        (fix go (items : list json) (h : heap) : list pyval * heap :=
           match items with
           | [] => ([], h)
           | x :: rest =>
               let '(v, h1) := store x h in
               let '(vs, h2) := go rest h1 in
               (v :: vs, h2)
           end) items h in
      (VRef (length h'), h' ++ [OList vals])
  | JDict kvs =>
      let '(vals, h') :=
        (fix go (kvs : list (string * json)) (h : heap) : list (string * pyval) * heap :=
           match kvs with
           | [] => ([], h)
           | (k, x) :: rest =>
               let '(v, h1) := store x h in
               let '(vs, h2) := go rest h1 in
               ((k, v) :: vs, h2)
           end) kvs h in
      (VRef (length h'), h' ++ [ODict vals])
  end.

(** *** [copy.deepcopy] *)

(** The memo maps the address of an object already copied to the address
    of its copy. *)
Definition memo : Type := list (loc * loc).

Fixpoint memo_lookup (l : loc) (m : memo) : option loc :=
  match m with
  | [] => None
  | (a, b) :: rest => if Nat.eqb l a then Some b else memo_lookup l rest
  end.

(** Copying the values of a container one after the other, threading
    the memo and the store. *)
Fixpoint copy_values
    (copy : pyval -> memo -> heap -> option (pyval * memo * heap))
    (vals : list pyval) (m : memo) (h : heap)
  : option (list pyval * memo * heap) :=
  match vals with
  | [] => Some ([], m, h)
  | v :: rest =>
      match copy v m h with
      | Some (v', m1, h1) =>
          match copy_values copy rest m1 h1 with
          | Some (rest', m2, h2) => Some (v' :: rest', m2, h2)
          | None => None
          end
      | None => None
      end
  end.

(** [copy.deepcopy(v, memo)]: atoms are returned as they are; a
    container is looked up in the memo, else an empty copy is allocated
    and recorded before its items are copied into it.  [depth] bounds
    the nesting of calls, as the interpreter's recursion limit does;
    [None] stands for [RecursionError]. *)
Fixpoint deepcopy (depth : nat) (v : pyval) (m : memo) (h : heap)
  : option (pyval * memo * heap) :=
  match v with
  | VRef l =>
      match memo_lookup l m with
      | Some l' => Some (VRef l', m, h)
      | None =>
          match depth with
          | O => None
          | S depth' =>
              let l' := length h in
              match h !! l with
              | None => None
              | Some (ODict items) =>
                  match copy_values (deepcopy depth') (map snd items)
                                    ((l, l') :: m) (h ++ [ODict []]) with
                  | Some (vals, m', h') =>
                      Some (VRef l', m', <[l' := ODict (combine (map fst items) vals)]> h')
                  | None => None
                  end
              | Some (OList items) =>
                  match copy_values (deepcopy depth') items
                                    ((l, l') :: m) (h ++ [OList []]) with
                  | Some (vals, m', h') => Some (VRef l', m', <[l' := OList vals]> h')
                  | None => None
                  end
              end
          end
      end
  | _ => Some (v, m, h)
  end.

(** *** Statements that read and write the store *)

Definition M (A : Type) : Type := heap -> result A * heap.

Definition ret {A} (a : A) : M A := fun h => (Ok a, h).

Definition raise {A} (e : exn) : M A := fun h => (Raise e, h).

Definition bindM {A B} (c : M A) (k : A -> M B) : M B :=
  fun h => match c h with
           | (Ok a, h') => k a h'
           | (Raise e, h') => (Raise e, h')
           end.

Notation "'run' x <- c ; k" := (bindM c (fun x => k))
  (at level 10, x name, c at level 100, k at level 200).

(** The object a value names, when it names one. *)
Definition object_of (v : pyval) (h : heap) : option pyobj :=
  match v with
  | VRef l => h !! l
  | _ => None
  end.

(** [copy.deepcopy(v)] with a fresh memo. *)
Definition deepcopy_top (v : pyval) : M pyval :=
  fun h => match deepcopy (S (length h)) v [] h with
           | Some (v', _, h') => (Ok v', h')
           | None => (Raise RuntimeError, h)
           end.

(** [v[key]] with a string key. *)
Definition h_getitem (v : pyval) (key : string) : M pyval :=
  fun h => match object_of v h with
           | Some (ODict items) =>
               match assoc key items with
               | Some x => (Ok x, h)
               | None => (Raise KeyError, h)
               end
           | _ => (Raise TypeError, h)
           end.

(** [v[key] = x] with a string key: only a dict accepts it. *)
Definition h_setitem (v : pyval) (key : string) (x : pyval) : M unit :=
  fun h => match v with
           | VRef l =>
               match h !! l with
               | Some (ODict items) => (Ok tt, <[l := ODict (dict_set key x items)]> h)
               | _ => (Raise TypeError, h)
               end
           | _ => (Raise TypeError, h)
           end.

Definition is_str (s : string) (v : pyval) : bool :=
  match v with
  | VStr t => String.eqb s t
  | _ => false
  end.

(** [key in v] with a string key. *)
Definition h_contains (v : pyval) (key : string) : M bool :=
  fun h => match v with
           | VStr hay => (Ok (substring key hay), h)
           | VRef l =>
               match h !! l with
               | Some (ODict items) =>
                   (Ok (match assoc key items with Some _ => true | None => false end), h)
               | Some (OList items) => (Ok (existsb (is_str key) items), h)
               | None => (Raise RuntimeError, h)
               end
           | _ => (Raise TypeError, h)
           end.

(** [v.get(key)]: only a dict has the method; a missing key gives
    [None]. *)
Definition h_get (v : pyval) (key : string) : M pyval :=
  fun h => match object_of v h with
           | Some (ODict items) =>
               (Ok (match assoc key items with Some x => x | None => VNone end), h)
           | _ => (Raise AttributeError, h)
           end.

(** [len(v)]. *)
Definition h_len (v : pyval) : M nat :=
  fun h => match v with
           | VStr s => (Ok (String.length s), h)
           | VRef l =>
               match h !! l with
               | Some (ODict items) => (Ok (length items), h)
               | Some (OList items) => (Ok (length items), h)
               | None => (Raise RuntimeError, h)
               end
           | _ => (Raise TypeError, h)
           end.

(** [v.items()], also read for [v.keys()]: only a dict has them. *)
Definition h_items (v : pyval) : M (list (string * pyval)) :=
  fun h => match object_of v h with
           | Some (ODict items) => (Ok items, h)
           | _ => (Raise AttributeError, h)
           end.

(** *** [modify_workflow_for_kontext] (InvokeAI) *)

Definition prompt_node_id : string := "positive_prompt:0oQdkhpu9K".
Definition kontext_node_id : string := "flux_kontext:MsQ9ynwazR".

(** [w["batch"]["graph"]["nodes"]]. *)
Definition graph_nodes (w : pyval) : M pyval :=
  run batch <- h_getitem w "batch";
  run graph <- h_getitem batch "graph";
  h_getitem graph "nodes".

(** The body of the [try]. *)
Definition modify_workflow_for_kontext_body
    (workflow_data prompt image_name : pyval) : M pyval :=
  run modified_workflow <- deepcopy_top workflow_data;
  run nodes <- graph_nodes modified_workflow;
  run prompt_node <- h_getitem nodes prompt_node_id;
  run _ <- h_setitem prompt_node "value" prompt;
  run nodes' <- graph_nodes modified_workflow;
  run kontext_node <- h_getitem nodes' kontext_node_id;
  run image <- h_getitem kontext_node "image";
  run _ <- h_setitem image "image_name" image_name;
  ret modified_workflow.

(** [modify_workflow_for_kontext(workflow_data, prompt, image_name)]:
    the value returned ([None] from the [except] branch) and the store
    afterwards. *)
Definition modify_workflow_for_kontext
    (workflow_data prompt image_name : pyval) (h : heap) : option pyval * heap :=
  match modify_workflow_for_kontext_body workflow_data prompt image_name h with
  | (Ok w, h') => (Some w, h')
  | (Raise _, h') => (None, h')
  end.

(** *** [modify_comfyui_workflow_for_kontext] (ComfyUI) *)

(** [[modified_workflow[node_id].get("class_type") for node_id in node_ids]]. *)
Fixpoint node_types (w : pyval) (node_ids : list string) : M (list pyval) :=
  match node_ids with
  | [] => ret []
  | node_id :: rest =>
      run node <- h_getitem w node_id;
      run class_type <- h_get node "class_type";
      run types <- node_types w rest;
      ret (class_type :: types)
  end.

(** The [for node_id, node_data in modified_workflow.items()] loop: the
    last node of each class wins. *)
Fixpoint find_nodes (items : list (string * pyval))
    (nimflux_node_id loadimage_node_id : option string)
  : M (option string * option string) :=
  match items with
  | [] => ret (nimflux_node_id, loadimage_node_id)
  | (node_id, node_data) :: rest =>
      run class_type <- h_get node_data "class_type";
      if is_str "NIMFLUXNode" class_type then
        find_nodes rest (Some node_id) loadimage_node_id
      else if is_str "LoadImage" class_type then
        find_nodes rest nimflux_node_id (Some node_id)
      else find_nodes rest nimflux_node_id loadimage_node_id
  end.

(** [if not node_id]: never assigned, or the empty string. *)
Definition usable_id (node_id : option string) : option string :=
  match node_id with
  | Some s => if String.eqb s "" then None else Some s
  | None => None
  end.

(** [if key in node["inputs"]: node["inputs"][key] = x], with [false]
    for the [else] branch. *)
Definition patch_input (node : pyval) (key : string) (x : pyval) : M bool :=
  run inputs <- h_getitem node "inputs";
  run present <- h_contains inputs key;
  if present then
    run inputs' <- h_getitem node "inputs";
    run _ <- h_setitem inputs' key x;
    ret true
  else ret false.

(** The body of the [try]; [None] is an explicit [return None]. *)
Definition modify_comfyui_workflow_for_kontext_body
    (workflow_data prompt image_name steps : pyval) : M (option pyval) :=
  run modified_workflow <- deepcopy_top workflow_data;
  run _n <- h_len modified_workflow;
  run items <- h_items modified_workflow;
  run _types <- node_types modified_workflow (map fst items);
  run items' <- h_items modified_workflow;
  run found <- find_nodes items' None None;
  match usable_id found.1, usable_id found.2 with
  | None, _ => ret None
  | Some _, None => ret None
  | Some nimflux_node_id, Some loadimage_node_id =>
      run nimflux_node <- h_getitem modified_workflow nimflux_node_id;
      run loadimage_node <- h_getitem modified_workflow loadimage_node_id;
      run has_inputs <- h_contains nimflux_node "inputs";
      if negb has_inputs then ret None
      else
        run prompt_set <- patch_input nimflux_node "prompt" prompt;
        if negb prompt_set then ret None
        else
          run steps_set <- patch_input nimflux_node "steps" steps;
          if negb steps_set then ret None
          else
            run image_set <- patch_input loadimage_node "image" image_name;
            if negb image_set then ret None
            else ret (Some modified_workflow)
  end.

(** [modify_comfyui_workflow_for_kontext(workflow_data, prompt,
    image_name, steps)]. *)
Definition modify_comfyui_workflow_for_kontext
    (workflow_data prompt image_name steps : pyval) (h : heap) : option pyval * heap :=
  match modify_comfyui_workflow_for_kontext_body workflow_data prompt image_name steps h with
  | (Ok r, h') => (r, h')
  | (Raise _, h') => (None, h')
  end.

(** *** The copy lives in new objects *)

(** A value is fresh when it does not name an object older than [n0]. *)
Definition fresh (n0 : nat) (v : pyval) : Prop :=
  match v with
  | VRef r => n0 <= r
  | _ => True
  end.

(** In every dict allocated from [n0] on, the values under the keys
    outside [written] are fresh. *)
Definition closed_except (written : list string) (n0 : nat) (h : heap) : Prop :=
  forall l items k x,
    n0 <= l -> h !! l = Some (ODict items) -> ~ In k written ->
    assoc k items = Some x -> fresh n0 x.

(** The objects older than [n0] are what they were. *)
Definition agree (n0 : nat) (h h' : heap) : Prop :=
  forall l, l < n0 -> h' !! l = h !! l.

Definition memo_fresh (n0 : nat) (m : memo) : Prop :=
  forall l l', memo_lookup l m = Some l' -> n0 <= l'.

Lemma agree_refl n0 h : agree n0 h h.
Proof. intros l _. reflexivity. Qed.

Lemma agree_trans n0 h1 h2 h3 : agree n0 h1 h2 -> agree n0 h2 h3 -> agree n0 h1 h3.
Proof. intros H12 H23 l Hl. now rewrite (H23 l Hl), (H12 l Hl). Qed.

Lemma agree_alloc n0 h o : n0 <= length h -> agree n0 h (h ++ [o]).
Proof. intros Hn l Hl. apply lookup_app_l. lia. Qed.

Lemma agree_insert n0 h l o : n0 <= l -> agree n0 h (<[l := o]> h).
Proof. intros Hn l' Hl. apply list_lookup_insert_ne. lia. Qed.

Lemma closed_except_weaken written n0 h :
  closed_except [] n0 h -> closed_except written n0 h.
Proof. intros Hc l items k x Hl Ho _. apply (Hc l items k x Hl Ho). intros []. Qed.

Lemma closed_except_initial written h : closed_except written (length h) h.
Proof.
  intros l items k x Hl Ho. apply lookup_lt_Some in Ho. lia.
Qed.

Lemma closed_except_alloc n0 h :
  closed_except [] n0 h -> closed_except [] n0 (h ++ [ODict []]) /\
                           closed_except [] n0 (h ++ [OList []]).
Proof.
  intros Hc. split; intros l items k x Hl Ho Hk Hx.
  - destruct (decide (l < length h)) as [Hlt|Hge].
    + rewrite lookup_app_l in Ho by exact Hlt. exact (Hc l items k x Hl Ho Hk Hx).
    + rewrite lookup_app_r in Ho by lia.
      destruct (l - length h) as [|i]; cbn in Ho; [|discriminate].
      injection Ho as <-. discriminate.
  - destruct (decide (l < length h)) as [Hlt|Hge].
    + rewrite lookup_app_l in Ho by exact Hlt. exact (Hc l items k x Hl Ho Hk Hx).
    + rewrite lookup_app_r in Ho by lia.
      destruct (l - length h) as [|i]; cbn in Ho; discriminate.
Qed.

Lemma assoc_combine_in {A} k (keys : list string) (vals : list A) x :
  assoc k (combine keys vals) = Some x -> In x vals.
Proof.
  revert vals. induction keys as [|k' keys IH]; intros [|v vals]; try discriminate.
  cbn. destruct (String.eqb k k').
  - intros [= ->]. now left.
  - intros Hx. right. now apply IH.
Qed.

Lemma assoc_dict_set_ne {A} k key (x : A) items :
  k <> key -> assoc k (dict_set key x items) = assoc k items.
Proof.
  intros Hne. induction items as [|[k' v] items IH]; cbn.
  - destruct (String.eqb k key) eqn:E; [|reflexivity].
    apply String.eqb_eq in E. contradiction.
  - destruct (String.eqb key k') eqn:E; cbn.
    + apply String.eqb_eq in E. subst k'.
      destruct (String.eqb k key) eqn:E'; [|reflexivity].
      apply String.eqb_eq in E'. contradiction.
    + destruct (String.eqb k k'); [reflexivity|exact IH].
Qed.

(** What a copy step guarantees, relative to the size [n0] of the store
    when the outermost call was made. *)
Definition copy_post (n0 : nat) (h : heap) (m' : memo) (h' : heap) : Prop :=
  length h <= length h' /\ agree n0 h h' /\ memo_fresh n0 m' /\ closed_except [] n0 h'.

Definition copy_ok (n0 : nat)
    (copy : pyval -> memo -> heap -> option (pyval * memo * heap)) : Prop :=
  forall v m h v' m' h',
    copy v m h = Some (v', m', h') ->
    n0 <= length h -> memo_fresh n0 m -> closed_except [] n0 h ->
    copy_post n0 h m' h' /\ fresh n0 v'.

Lemma copy_values_ok n0 copy :
  copy_ok n0 copy ->
  forall vals m h vals' m' h',
    copy_values copy vals m h = Some (vals', m', h') ->
    n0 <= length h -> memo_fresh n0 m -> closed_except [] n0 h ->
    copy_post n0 h m' h' /\ Forall (fresh n0) vals'.
Proof.
  intros Hcopy vals. induction vals as [|v vals IH]; intros m h vals' m' h' Hc Hn Hm Hcl.
  - cbn in Hc. injection Hc as <- <- <-.
    split; [|constructor]. repeat split; auto using agree_refl.
  - cbn in Hc.
    destruct (copy v m h) as [[[v1 m1] h1]|] eqn:Hv; [|discriminate].
    destruct (copy_values copy vals m1 h1) as [[[vs m2] h2]|] eqn:Hvs; [|discriminate].
    injection Hc as <- <- <-.
    destruct (Hcopy _ _ _ _ _ _ Hv Hn Hm Hcl) as [(Hlen1 & Hag1 & Hm1 & Hcl1) Hf1].
    destruct (IH _ _ _ _ _ Hvs ltac:(lia) Hm1 Hcl1) as [(Hlen2 & Hag2 & Hm2 & Hcl2) Hf2].
    split; [|constructor; assumption].
    repeat split; [lia|eauto using agree_trans|assumption|assumption].
Qed.

Lemma memo_fresh_cons n0 l l' m :
  n0 <= l' -> memo_fresh n0 m -> memo_fresh n0 ((l, l') :: m).
Proof.
  intros Hl Hm a b. cbn. destruct (Nat.eqb a l); [intros [= <-]; exact Hl|apply Hm].
Qed.

Lemma closed_except_insert_dict n0 h l items :
  n0 <= l ->
  closed_except [] n0 h ->
  (forall k x, assoc k items = Some x -> fresh n0 x) ->
  closed_except [] n0 (<[l := ODict items]> h).
Proof.
  intros Hl Hcl Hitems l1 items1 k x Hl1 Ho Hk Hx.
  destruct (decide (l = l1)) as [->|Hne].
  - destruct (decide (l1 < length h)) as [Hlt|Hge].
    + rewrite list_lookup_insert_eq in Ho by exact Hlt. injection Ho as <-.
      exact (Hitems k x Hx).
    + rewrite list_insert_ge in Ho by lia. exact (Hcl l1 items1 k x Hl1 Ho Hk Hx).
  - rewrite list_lookup_insert_ne in Ho by exact Hne.
    exact (Hcl l1 items1 k x Hl1 Ho Hk Hx).
Qed.

Lemma closed_except_insert_list n0 h l vals :
  closed_except [] n0 h -> closed_except [] n0 (<[l := OList vals]> h).
Proof.
  intros Hcl l1 items1 k x Hl1 Ho Hk Hx.
  destruct (decide (l = l1)) as [->|Hne].
  - destruct (decide (l1 < length h)) as [Hlt|Hge].
    + rewrite list_lookup_insert_eq in Ho by exact Hlt. discriminate.
    + rewrite list_insert_ge in Ho by lia. exact (Hcl l1 items1 k x Hl1 Ho Hk Hx).
  - rewrite list_lookup_insert_ne in Ho by exact Hne.
    exact (Hcl l1 items1 k x Hl1 Ho Hk Hx).
Qed.

(** [deepcopy] only allocates: old objects are untouched, and the value
    it returns and everything stored in the new dicts is new. *)
Lemma deepcopy_ok n0 depth : copy_ok n0 (deepcopy depth).
Proof.
  induction depth as [|depth IH]; intros v m h v' m' h' Hc Hn Hm Hcl.
  - destruct v; cbn in Hc; try (injection Hc as <- <- <-;
      split; [repeat split; auto using agree_refl|exact I]).
    destruct (memo_lookup l m) as [l'|] eqn:Hl; [|discriminate].
    injection Hc as <- <- <-.
    split; [repeat split; auto using agree_refl|exact (Hm _ _ Hl)].
  - destruct v; cbn [deepcopy] in Hc; try (injection Hc as <- <- <-;
      split; [repeat split; auto using agree_refl|exact I]).
    destruct (memo_lookup l m) as [l'|] eqn:Hl.
    { injection Hc as <- <- <-.
      split; [repeat split; auto using agree_refl|exact (Hm _ _ Hl)]. }
    destruct (h !! l) as [[items|items]|] eqn:Ho; [| |discriminate].
    + destruct (copy_values _ _ _ _) as [[[vals m1] h1]|] eqn:Hvs; [|discriminate].
      injection Hc as <- <- <-.
      destruct (closed_except_alloc n0 h Hcl) as [Hcl0 _].
      destruct (copy_values_ok n0 _ IH _ _ _ _ _ _ Hvs
                  ltac:(rewrite length_app; cbn; lia)
                  (memo_fresh_cons n0 l (length h) m Hn Hm) Hcl0)
        as [(Hlen & Hag & Hm1 & Hcl1) Hf].
      rewrite length_app in Hlen. cbn in Hlen.
      split; [|exact Hn].
      repeat split.
      * rewrite length_insert. lia.
      * eapply agree_trans; [apply agree_alloc; exact Hn|].
        eapply agree_trans; [exact Hag|apply agree_insert; exact Hn].
      * exact Hm1.
      * apply closed_except_insert_dict; [exact Hn|exact Hcl1|].
        intros k x Hx. apply assoc_combine_in in Hx.
        rewrite Forall_forall in Hf. apply Hf, list_elem_of_In, Hx.
    + destruct (copy_values _ _ _ _) as [[[vals m1] h1]|] eqn:Hvs; [|discriminate].
      injection Hc as <- <- <-.
      destruct (closed_except_alloc n0 h Hcl) as [_ Hcl0].
      destruct (copy_values_ok n0 _ IH _ _ _ _ _ _ Hvs
                  ltac:(rewrite length_app; cbn; lia)
                  (memo_fresh_cons n0 l (length h) m Hn Hm) Hcl0)
        as [(Hlen & Hag & Hm1 & Hcl1) Hf].
      rewrite length_app in Hlen. cbn in Hlen.
      split; [|exact Hn].
      repeat split.
      * rewrite length_insert. lia.
      * eapply agree_trans; [apply agree_alloc; exact Hn|].
        eapply agree_trans; [exact Hag|apply agree_insert; exact Hn].
      * exact Hm1.
      * apply closed_except_insert_list. exact Hcl1.
Qed.

(** *** The copy is always produced *)

Definition below (n : nat) (v : pyval) : Prop :=
  match v with
  | VRef r => r < n
  | _ => True
  end.

(** The first [n0] addresses hold objects that refer to one another
    only: the state of a store before the call. *)
Definition closed_store (n0 : nat) (h : heap) : Prop :=
  forall l, l < n0 ->
    exists o, h !! l = Some o /\
      match o with
      | ODict items => Forall (below n0) (map snd items)
      | OList items => Forall (below n0) items
      end.

Definition visited (m : memo) (l : nat) : bool :=
  match memo_lookup l m with Some _ => true | None => false end.

(** The old objects the memo does not know yet; the nesting of calls
    cannot exceed their number. *)
Definition unvisited (n0 : nat) (m : memo) : nat :=
  length (List.filter (fun l => negb (visited m l)) (seq 0 n0)).

Definition memo_le (m m' : memo) : Prop :=
  forall l, visited m l = true -> visited m' l = true.

Lemma filter_length_mono {A} (f g : A -> bool) (xs : list A) :
  (forall x, f x = true -> g x = true) ->
  length (List.filter f xs) <= length (List.filter g xs).
Proof.
  intros Hfg. induction xs as [|x xs IH]; cbn; [lia|].
  destruct (f x) eqn:Hf.
  - rewrite (Hfg x Hf). cbn. lia.
  - destruct (g x); cbn; lia.
Qed.

Lemma filter_length_lt {A} (f g : A -> bool) (xs : list A) (a : A) :
  (forall x, f x = true -> g x = true) ->
  In a xs -> f a = false -> g a = true ->
  length (List.filter f xs) < length (List.filter g xs).
Proof.
  intros Hfg Hin Hfa Hga. induction xs as [|x xs IH]; [destruct Hin|].
  cbn. destruct Hin as [->|Hin].
  - rewrite Hfa, Hga. cbn. pose proof (filter_length_mono f g xs Hfg). lia.
  - specialize (IH Hin). destruct (f x) eqn:Hf.
    + rewrite (Hfg x Hf). cbn. lia.
    + destruct (g x); cbn; lia.
Qed.

Lemma unvisited_le n0 m m' : memo_le m m' -> unvisited n0 m' <= unvisited n0 m.
Proof.
  intros Hle. apply filter_length_mono. intros l Hl.
  apply negb_true_iff in Hl. apply negb_true_iff.
  destruct (visited m l) eqn:Hv; [|reflexivity].
  now rewrite (Hle l Hv) in Hl.
Qed.

Lemma visited_cons l l' m a :
  visited ((l, l') :: m) a = Nat.eqb a l || visited m a.
Proof. unfold visited. cbn. destruct (Nat.eqb a l); reflexivity. Qed.

Lemma unvisited_lt n0 m l l' :
  l < n0 -> visited m l = false ->
  unvisited n0 ((l, l') :: m) < unvisited n0 m.
Proof.
  intros Hl Hv. apply (filter_length_lt _ _ _ l).
  - intros a Ha. rewrite visited_cons in Ha.
    apply negb_true_iff, orb_false_iff in Ha as [_ Ha]. now rewrite Ha.
  - apply in_seq. lia.
  - rewrite visited_cons, Nat.eqb_refl. reflexivity.
  - now rewrite Hv.
Qed.

Lemma memo_le_refl m : memo_le m m.
Proof. intros l Hl. exact Hl. Qed.

Lemma memo_le_trans m1 m2 m3 : memo_le m1 m2 -> memo_le m2 m3 -> memo_le m1 m3.
Proof. intros H12 H23 l Hl. apply H23, H12, Hl. Qed.

Lemma memo_le_cons l l' m : memo_le m ((l, l') :: m).
Proof. intros a Ha. rewrite visited_cons, Ha. apply orb_true_r. Qed.

Lemma closed_store_agree n0 h h' :
  closed_store n0 h -> agree n0 h h' -> closed_store n0 h'.
Proof.
  intros Hc Hag l Hl. destruct (Hc l Hl) as (o & Ho & Hrefs).
  exists o. split; [now rewrite (Hag l Hl)|exact Hrefs].
Qed.

(** The conditions under which a copy step is taken. *)
Record copy_pre (n0 : nat) (m : memo) (h : heap) : Prop := mkCopyPre {
  pre_length : n0 <= length h;
  pre_store : closed_store n0 h;
  pre_memo : memo_fresh n0 m;
  pre_closed : closed_except [] n0 h
}.

Definition copy_total (n0 depth : nat)
    (copy : pyval -> memo -> heap -> option (pyval * memo * heap)) : Prop :=
  forall v m h,
    below n0 v -> copy_pre n0 m h -> unvisited n0 m <= depth ->
    exists v' m' h', copy v m h = Some (v', m', h') /\ memo_le m m'.

Lemma copy_pre_after n0 copy v m h v' m' h' :
  copy_ok n0 copy -> copy_pre n0 m h ->
  copy v m h = Some (v', m', h') -> copy_pre n0 m' h'.
Proof.
  intros Hok [Hn Hs Hm Hc] Hv.
  destruct (Hok _ _ _ _ _ _ Hv Hn Hm Hc) as [(Hlen & Hag & Hm' & Hc') _].
  constructor; [lia|eauto using closed_store_agree|assumption|assumption].
Qed.

Lemma copy_values_total n0 depth copy :
  copy_ok n0 copy -> copy_total n0 depth copy ->
  forall vals m h,
    Forall (below n0) vals -> copy_pre n0 m h -> unvisited n0 m <= depth ->
    exists vals' m' h', copy_values copy vals m h = Some (vals', m', h') /\ memo_le m m'.
Proof.
  intros Hok Htot vals. induction vals as [|v vals IH]; intros m h Hvals Hpre Hu.
  - exists [], m, h. split; [reflexivity|apply memo_le_refl].
  - inversion Hvals as [|? ? Hv Hrest]; subst.
    destruct (Htot v m h Hv Hpre Hu) as (v' & m1 & h1 & Hc & Hle1).
    pose proof (copy_pre_after _ _ _ _ _ _ _ _ Hok Hpre Hc) as Hpre1.
    pose proof (unvisited_le n0 _ _ Hle1) as Hu1.
    destruct (IH m1 h1 Hrest Hpre1 ltac:(lia)) as (vs & m2 & h2 & Hcs & Hle2).
    exists (v' :: vs), m2, h2. cbn. rewrite Hc, Hcs.
    split; [reflexivity|eauto using memo_le_trans].
Qed.

(** With a depth of at least the number of old objects not yet copied,
    [deepcopy] returns. *)
Lemma deepcopy_total n0 depth : copy_total n0 depth (deepcopy depth).
Proof.
  induction depth as [|depth IH]; intros v m h Hv Hpre Hu.
  - destruct v; try (eexists _, _, _; split; [reflexivity|apply memo_le_refl]).
    cbn in Hv. cbn [deepcopy].
    destruct (memo_lookup l m) as [l'|] eqn:Hl.
    { eexists _, _, _. split; [reflexivity|apply memo_le_refl]. }
    assert (Hvis : visited m l = false) by (unfold visited; now rewrite Hl).
    pose proof (unvisited_lt n0 m l (length h) Hv Hvis). lia.
  - destruct v; try (eexists _, _, _; split; [reflexivity|apply memo_le_refl]).
    cbn in Hv. cbn [deepcopy].
    destruct (memo_lookup l m) as [l'|] eqn:Hl.
    { eexists _, _, _. split; [reflexivity|apply memo_le_refl]. }
    assert (Hvis : visited m l = false) by (unfold visited; now rewrite Hl).
    pose proof (unvisited_lt n0 m l (length h) Hv Hvis) as Hlt.
    destruct Hpre as [Hn Hs Hm Hc].
    destruct (Hs l Hv) as (o & Ho & Hrefs). rewrite Ho.
    destruct (closed_except_alloc n0 h Hc) as [Hcd Hcl].
    destruct o as [items|items].
    + assert (Hpre1 : copy_pre n0 ((l, length h) :: m) (h ++ [ODict []])).
      { constructor; [rewrite length_app; lia
                     |eauto using closed_store_agree, agree_alloc
                     |now apply memo_fresh_cons|exact Hcd]. }
      destruct (copy_values_total n0 depth _ (deepcopy_ok n0 depth) IH
                  (map snd items) _ _ Hrefs Hpre1 ltac:(lia))
        as (vals & m' & h' & -> & Hle).
      eexists _, _, _. split; [reflexivity|].
      eapply memo_le_trans; [apply memo_le_cons|exact Hle].
    + assert (Hpre1 : copy_pre n0 ((l, length h) :: m) (h ++ [OList []])).
      { constructor; [rewrite length_app; lia
                     |eauto using closed_store_agree, agree_alloc
                     |now apply memo_fresh_cons|exact Hcl]. }
      destruct (copy_values_total n0 depth _ (deepcopy_ok n0 depth) IH
                  items _ _ Hrefs Hpre1 ltac:(lia))
        as (vals & m' & h' & -> & Hle).
      eexists _, _, _. split; [reflexivity|].
      eapply memo_le_trans; [apply memo_le_cons|exact Hle].
Qed.

(** On a store whose objects refer to one another only,
    [copy.deepcopy] returns: it never runs out of depth. *)
Lemma deepcopy_top_returns h v :
  closed_store (length h) h -> below (length h) v ->
  exists v' h', deepcopy_top v h = (Ok v', h').
Proof.
  intros Hs Hv. unfold deepcopy_top.
  assert (Hpre : copy_pre (length h) [] h).
  { constructor; [lia|exact Hs|intros ? ? [=]|apply closed_except_initial]. }
  assert (Hu : unvisited (length h) [] <= S (length h)).
  { unfold unvisited.
    pose proof (List.filter_length_le (fun l => negb (visited [] l))
                  (seq 0 (length h))) as Hle.
    rewrite length_seq in Hle. lia. }
  destruct (deepcopy_total (length h) (S (length h)) v [] h Hv Hpre Hu)
    as (v' & m' & h' & -> & _).
  eauto.
Qed.

(** *** Reasoning about statements *)

(** From a store satisfying [P], the statement [c] leaves the objects
    older than [n0] alone, and when it returns [a] the store satisfies
    [Q a]. *)
Definition triple (n0 : nat) {A} (P : heap -> Prop) (c : M A) (Q : A -> heap -> Prop)
  : Prop :=
  forall h, P h ->
    agree n0 h (c h).2 /\
    match (c h).1 with
    | Ok a => Q a (c h).2
    | Raise _ => True
    end.

Lemma triple_ret n0 {A} (P : heap -> Prop) (a : A) (Q : A -> heap -> Prop) :
  (forall h, P h -> Q a h) -> triple n0 P (ret a) Q.
Proof. intros HPQ h HP. split; [apply agree_refl|exact (HPQ h HP)]. Qed.

Lemma triple_bind n0 {A B} (P : heap -> Prop) (c : M A) (Q : A -> heap -> Prop)
    (k : A -> M B) (R : B -> heap -> Prop) :
  triple n0 P c Q -> (forall a, triple n0 (Q a) (k a) R) -> triple n0 P (bindM c k) R.
Proof.
  intros Hc Hk h HP. destruct (Hc h HP) as [Hag HQ]. unfold bindM.
  destruct (c h) as [[a|e] h1]; cbn in *.
  - destruct (Hk a h1 HQ) as [Hag' HR]. split; [eauto using agree_trans|exact HR].
  - split; [exact Hag|exact I].
Qed.

Lemma triple_weaken n0 {A} (P P' : heap -> Prop) (c : M A) (Q Q' : A -> heap -> Prop) :
  triple n0 P' c Q' ->
  (forall h, P h -> P' h) -> (forall a h, Q' a h -> Q a h) ->
  triple n0 P c Q.
Proof.
  intros Hc HP HQ h Hh. destruct (Hc h (HP h Hh)) as [Hag Hq].
  split; [exact Hag|]. destruct (c h).1; [apply HQ, Hq|exact I].
Qed.

(** A statement that only reads. *)
Definition reads_only {A} (c : M A) : Prop := forall h, (c h).2 = h.

Lemma triple_reads_only n0 {A} (P : heap -> Prop) (c : M A) :
  reads_only c -> triple n0 P c (fun _ h => P h).
Proof.
  intros Hr h HP. rewrite (Hr h). split; [apply agree_refl|].
  destruct (c h).1; [exact HP|exact I].
Qed.

Lemma reads_only_ret {A} (a : A) : reads_only (ret a).
Proof. intros h. reflexivity. Qed.

Lemma reads_only_bind {A B} (c : M A) (k : A -> M B) :
  reads_only c -> (forall a, reads_only (k a)) -> reads_only (bindM c k).
Proof.
  intros Hc Hk h. unfold bindM. specialize (Hc h).
  destruct (c h) as [[a|e] h1]; cbn in *; subst h1; [apply Hk|reflexivity].
Qed.

Lemma reads_only_getitem v key : reads_only (h_getitem v key).
Proof.
  intros h. unfold h_getitem.
  destruct (object_of v h) as [[items|items]|]; try reflexivity.
  destruct (assoc key items); reflexivity.
Qed.

Lemma reads_only_get v key : reads_only (h_get v key).
Proof.
  intros h. unfold h_get. destruct (object_of v h) as [[items|items]|]; reflexivity.
Qed.

Lemma reads_only_contains v key : reads_only (h_contains v key).
Proof.
  intros h. unfold h_contains. destruct v; try reflexivity.
  destruct (h !! l) as [[items|items]|]; reflexivity.
Qed.

Lemma reads_only_len v : reads_only (h_len v).
Proof.
  intros h. unfold h_len. destruct v; try reflexivity.
  destruct (h !! l) as [[items|items]|]; reflexivity.
Qed.

Lemma reads_only_items v : reads_only (h_items v).
Proof.
  intros h. unfold h_items. destruct (object_of v h) as [[items|items]|]; reflexivity.
Qed.

Lemma reads_only_node_types w node_ids : reads_only (node_types w node_ids).
Proof.
  induction node_ids as [|node_id rest IH]; cbn [node_types].
  - apply reads_only_ret.
  - apply reads_only_bind; [apply reads_only_getitem|]. intros node.
    apply reads_only_bind; [apply reads_only_get|]. intros class_type.
    apply reads_only_bind; [exact IH|]. intros types. apply reads_only_ret.
Qed.

Lemma reads_only_find_nodes items nimflux loadimage :
  reads_only (find_nodes items nimflux loadimage).
Proof.
  revert nimflux loadimage. induction items as [|[node_id node_data] rest IH];
    intros nimflux loadimage; cbn [find_nodes].
  - apply reads_only_ret.
  - apply reads_only_bind; [apply reads_only_get|]. intros class_type.
    destruct (is_str "NIMFLUXNode" class_type); [apply IH|].
    destruct (is_str "LoadImage" class_type); apply IH.
Qed.

Section Frame.
Variable n0 : nat.
Variable written : list string.

Let inv (h : heap) : Prop := closed_except written n0 h.

(** Reading a key that is never written, in a new dict, gives a new
    value. *)
Lemma triple_getitem v key :
  fresh n0 v -> ~ In key written ->
  triple n0 inv (h_getitem v key) (fun x h => inv h /\ fresh n0 x).
Proof.
  intros Hv Hk h Hinv. rewrite (reads_only_getitem v key h).
  split; [apply agree_refl|].
  unfold h_getitem. destruct v; cbn [object_of]; try exact I.
  destruct (h !! l) as [[items|items]|] eqn:Ho; try exact I.
  destruct (assoc key items) as [x|] eqn:Hx; [|exact I].
  cbn. split; [exact Hinv|]. exact (Hinv l items key x Hv Ho Hk Hx).
Qed.

(** Writing one of the [written] keys of a new dict. *)
Lemma triple_setitem v key x :
  fresh n0 v -> In key written ->
  triple n0 inv (h_setitem v key x) (fun _ h => inv h).
Proof.
  intros Hv Hk h Hinv. unfold h_setitem.
  destruct v; cbn; try (split; [apply agree_refl|exact I]).
  destruct (h !! l) as [[items|items]|] eqn:Ho; cbn;
    try (split; [apply agree_refl|exact I]).
  split; [apply agree_insert; exact Hv|].
  intros l1 items1 k y Hl1 Ho1 Hk1 Hy.
  destruct (decide (l = l1)) as [->|Hne].
  - rewrite list_lookup_insert_eq in Ho1 by (apply lookup_lt_Some in Ho; exact Ho).
    injection Ho1 as <-.
    rewrite assoc_dict_set_ne in Hy by (intros ->; contradiction).
    exact (Hinv l1 items k y Hl1 Ho Hk1 Hy).
  - rewrite list_lookup_insert_ne in Ho1 by exact Hne.
    exact (Hinv l1 items1 k y Hl1 Ho1 Hk1 Hy).
Qed.

Lemma triple_read {A} (c : M A) :
  reads_only c -> triple n0 inv c (fun _ h => inv h).
Proof. apply triple_reads_only. Qed.

End Frame.

(** [copy.deepcopy] on a store of size [n0]: a new value in a store
    whose new dicts hold new values only. *)
Lemma triple_deepcopy_top h0 v :
  triple (length h0) (fun h => h = h0) (deepcopy_top v)
         (fun v' h => closed_except [] (length h0) h /\ fresh (length h0) v').
Proof.
  intros h ->. unfold deepcopy_top.
  destruct (deepcopy (S (length h0)) v [] h0) as [[[v' m'] h']|] eqn:Hc; cbn.
  - destruct (deepcopy_ok (length h0) _ _ _ _ _ _ _ Hc (le_n _)
                ltac:(intros ? ? [=]) (closed_except_initial [] h0))
      as [(_ & Hag & _ & Hcl) Hf].
    split; [exact Hag|]. split; assumption.
  - split; [apply agree_refl|exact I].
Qed.

Lemma triple_pure_pre n0 {A} (P : heap -> Prop) (fact : Prop) (c : M A)
    (Q : A -> heap -> Prop) :
  (fact -> triple n0 P c Q) -> triple n0 (fun h => P h /\ fact) c Q.
Proof. intros Hc h [HP Hf]. exact (Hc Hf h HP). Qed.

Lemma triple_any_post n0 {A} (P : heap -> Prop) (c : M A) (Q : A -> heap -> Prop) :
  triple n0 P c Q -> triple n0 P c (fun _ _ => True).
Proof. intros Hc. eapply triple_weaken; [exact Hc|auto|auto]. Qed.

(** One step of a chain: read a key nobody writes from a new dict and
    keep the fact that the result is new; or run a statement that only
    reads. *)
Ltac not_written := cbn; intuition discriminate.

Ltac read_key :=
  eapply triple_bind;
  [apply triple_getitem; [assumption|not_written]
  |intros ?; apply triple_pure_pre; intros ?].

Ltac write_key :=
  eapply triple_bind;
  [apply triple_setitem; [assumption|cbn; tauto]|intros ?].

Ltac read_with lemma :=
  eapply triple_bind; [apply triple_read, lemma|intros ?].

Definition invokeai_written : list string := ["value"; "image_name"].
Definition comfyui_written : list string := ["prompt"; "steps"; "image"].

Lemma triple_graph_nodes n0 w :
  fresh n0 w ->
  triple n0 (closed_except invokeai_written n0) (graph_nodes w)
         (fun x h => closed_except invokeai_written n0 h /\ fresh n0 x).
Proof.
  intros Hw. unfold graph_nodes.
  read_key. read_key.
  apply triple_getitem; [assumption|not_written].
Qed.

Lemma triple_modify_workflow_for_kontext_body h0 workflow_data prompt image_name :
  triple (length h0) (fun h => h = h0)
         (modify_workflow_for_kontext_body workflow_data prompt image_name)
         (fun _ _ => True).
Proof.
  unfold modify_workflow_for_kontext_body.
  eapply triple_bind; [apply triple_deepcopy_top|]. intros w.
  eapply triple_weaken with
    (P' := fun h => closed_except invokeai_written (length h0) h /\ fresh (length h0) w)
    (Q' := fun _ _ => True);
    [|intros h [Hc Hf]; split; [apply closed_except_weaken, Hc|exact Hf]|auto].
  apply triple_pure_pre. intros Hw.
  eapply triple_bind; [apply triple_graph_nodes, Hw|].
  intros nodes. apply triple_pure_pre. intros Hnodes.
  read_key. write_key.
  eapply triple_bind; [apply triple_graph_nodes, Hw|].
  intros nodes'. apply triple_pure_pre. intros Hnodes'.
  read_key. read_key. write_key.
  apply triple_ret. auto.
Qed.

Lemma triple_patch_input n0 node key x :
  fresh n0 node -> In key comfyui_written ->
  triple n0 (closed_except comfyui_written n0) (patch_input node key x)
         (fun _ h => closed_except comfyui_written n0 h).
Proof.
  intros Hn Hk. unfold patch_input.
  read_key. read_with reads_only_contains.
  match goal with |- context [if ?b then _ else _] => destruct b end.
  - read_key.
    eapply triple_bind; [apply triple_setitem; [assumption|exact Hk]|]. intros ?.
    apply triple_ret. auto.
  - apply triple_ret. auto.
Qed.

Lemma triple_modify_comfyui_body h0 workflow_data prompt image_name steps :
  triple (length h0) (fun h => h = h0)
         (modify_comfyui_workflow_for_kontext_body workflow_data prompt image_name steps)
         (fun _ _ => True).
Proof.
  unfold modify_comfyui_workflow_for_kontext_body.
  eapply triple_bind; [apply triple_deepcopy_top|]. intros w.
  apply triple_pure_pre. intros Hw.
  read_with reads_only_len.
  read_with reads_only_items.
  read_with reads_only_node_types.
  read_with reads_only_items.
  read_with reads_only_find_nodes.
  match goal with |- context [usable_id ?a] => destruct (usable_id a) as [nimflux|] end;
    [|apply triple_ret; auto].
  match goal with |- context [usable_id ?a] => destruct (usable_id a) as [loadimage|] end;
    [|apply triple_ret; auto].
  eapply triple_bind; [apply triple_getitem; [exact Hw|intros []]|].
  intros nimflux_node. apply triple_pure_pre. intros Hnim.
  eapply triple_bind; [apply triple_getitem; [exact Hw|intros []]|].
  intros loadimage_node. apply triple_pure_pre. intros Hload.
  read_with reads_only_contains.
  match goal with |- context [if negb ?b then _ else _] => destruct b end; cbn [negb];
    [|apply triple_ret; auto].
  eapply triple_weaken with
    (P' := closed_except comfyui_written (length h0)) (Q' := fun _ _ => True);
    [|intros h Hc; apply closed_except_weaken, Hc|auto].
  eapply triple_bind; [apply triple_patch_input; [assumption|cbn; tauto]|].
  intros [|]; cbn [negb]; [|apply triple_ret; auto].
  eapply triple_bind; [apply triple_patch_input; [assumption|cbn; tauto]|].
  intros [|]; cbn [negb]; [|apply triple_ret; auto].
  eapply triple_bind; [apply triple_patch_input; [assumption|cbn; tauto]|].
  intros [|]; cbn [negb]; apply triple_ret; auto.
Qed.

(** *** The module-level templates *)

Definition INVOKEAI_FLUX_KONTEXT_WORKFLOW : json :=
  JDict
    [ ("queue_id", JStr "default");
      ("enqueued", JInt 0);
      ("requested", JInt 0);
      ("batch", JDict
        [ ("data", JList []);
          ("graph", JDict
            [ ("id", JStr "ec50dc0e-363b-4723-bf89-264cf52a4af1");
              ("nodes", JDict
                [ ("flux_model_loader:ywdpEhgSIn", JDict
                    [ ("id", JStr "flux_model_loader:ywdpEhgSIn");
                      ("is_intermediate", JBool true);
                      ("use_cache", JBool true);
                      ("model", JDict
                        [ ("key", JStr "c5ba7675-db0c-4280-a426-0154b5de8c98");
                          ("hash", JStr "blake3:8aadbed066021cc98686965fe9fc580083acbe027f600190f8d2436e6ac8b366");
                          ("name", JStr "FLUX.1 Kontext dev (Quantized)");
                          ("base", JStr "flux");
                          ("type", JStr "main") ]);
                      ("t5_encoder_model", JDict
                        [ ("key", JStr "284404cd-baf2-42cc-bbb3-a430d8909df6");
                          ("hash", JStr "blake3:12f3f5d4856e684c627c0b5c403ace83a8e8baaf0fa6518cd230b5ec1c519107");
                          ("name", JStr "t5_base_encoder");
                          ("base", JStr "any");
                          ("type", JStr "t5_encoder") ]);
                      ("clip_embed_model", JDict
                        [ ("key", JStr "f4269feb-2e98-4174-9c22-74dca9140584");
                          ("hash", JStr "blake3:17c19f0ef941c3b7609a9c94a659ca5364de0be364a91d4179f0e39ba17c3b70");
                          ("name", JStr "clip-vit-large-patch14");
                          ("base", JStr "any");
                          ("type", JStr "clip_embed") ]);
                      ("vae_model", JDict
                        [ ("key", JStr "0f0ccb31-5bd9-4a29-b2a4-56168596f4d6");
                          ("hash", JStr "blake3:ce21cb76364aa6e2421311cf4a4b5eb052a76c4f1cd207b50703d8978198a068");
                          ("name", JStr "FLUX.1-schnell_ae");
                          ("base", JStr "flux");
                          ("type", JStr "vae") ]);
                      ("type", JStr "flux_model_loader") ]);
                  ("positive_prompt:0oQdkhpu9K", JDict
                    [ ("id", JStr "positive_prompt:0oQdkhpu9K");
                      ("is_intermediate", JBool true);
                      ("use_cache", JBool true);
                      ("value", JStr "make it in the style of studio ghibli anime");
                      ("type", JStr "string") ]);
                  ("flux_text_encoder:o0tHGDGa69", JDict
                    [ ("id", JStr "flux_text_encoder:o0tHGDGa69");
                      ("is_intermediate", JBool true);
                      ("use_cache", JBool true);
                      ("type", JStr "flux_text_encoder") ]);
                  ("pos_cond_collect:ApPpdRqgK2", JDict
                    [ ("id", JStr "pos_cond_collect:ApPpdRqgK2");
                      ("is_intermediate", JBool true);
                      ("use_cache", JBool true);
                      ("collection", JList []);
                      ("type", JStr "collect") ]);
                  ("seed:aVE0l2Zlf1", JDict
                    [ ("id", JStr "seed:aVE0l2Zlf1");
                      ("is_intermediate", JBool true);
                      ("use_cache", JBool true);
                      ("value", JInt 1234);
                      ("type", JStr "integer") ]);
                  ("flux_denoise:9SHZg1d4kC", JDict
                    [ ("id", JStr "flux_denoise:9SHZg1d4kC");
                      ("is_intermediate", JBool true);
                      ("use_cache", JBool true);
                      ("denoising_start", JInt 0);
                      ("denoising_end", JInt 1);
                      ("add_noise", JBool true);
                      ("cfg_scale", JInt 1);
                      ("cfg_scale_start_step", JInt 0);
                      ("cfg_scale_end_step", JInt (-1));
                      ("width", JInt 1376);
                      ("height", JInt 784);
                      ("num_steps", JInt 50);
                      ("guidance", JInt 9);
                      ("seed", JInt 0);
                      ("type", JStr "flux_denoise") ]);
                  ("flux_vae_decode:Vr4fbsSEgU", JDict
                    [ ("id", JStr "flux_vae_decode:Vr4fbsSEgU");
                      ("is_intermediate", JBool true);
                      ("use_cache", JBool true);
                      ("type", JStr "flux_vae_decode") ]);
                  ("core_metadata:oCIejDlaQA", JDict
                    [ ("id", JStr "core_metadata:oCIejDlaQA");
                      ("is_intermediate", JBool true);
                      ("use_cache", JBool true);
                      ("generation_mode", JStr "flux_txt2img");
                      ("width", JInt 1360);
                      ("height", JInt 768);
                      ("steps", JInt 50);
                      ("model", JDict
                        [ ("key", JStr "c5ba7675-db0c-4280-a426-0154b5de8c98");
                          ("hash", JStr "blake3:8aadbed066021cc98686965fe9fc580083acbe027f600190f8d2436e6ac8b366");
                          ("name", JStr "FLUX.1 Kontext dev (Quantized)");
                          ("base", JStr "flux");
                          ("type", JStr "main") ]);
                      ("vae", JDict
                        [ ("key", JStr "0f0ccb31-5bd9-4a29-b2a4-56168596f4d6");
                          ("hash", JStr "blake3:ce21cb76364aa6e2421311cf4a4b5eb052a76c4f1cd207b50703d8978198a068");
                          ("name", JStr "FLUX.1-schnell_ae");
                          ("base", JStr "flux");
                          ("type", JStr "vae") ]);
                      ("type", JStr "core_metadata") ]);
                  ("flux_kontext:MsQ9ynwazR", JDict
                    [ ("id", JStr "flux_kontext:MsQ9ynwazR");
                      ("is_intermediate", JBool true);
                      ("use_cache", JBool true);
                      ("image", JDict [("image_name", JStr "PLACEHOLDER.png")]);
                      ("type", JStr "flux_kontext") ]);
                  ("canvas_output:FhpncF2ITc", JDict
                    [ ("id", JStr "canvas_output:FhpncF2ITc");
                      ("is_intermediate", JBool false);
                      ("use_cache", JBool false);
                      ("width", JInt 1360);
                      ("height", JInt 768);
                      ("resample_mode", JStr "bicubic");
                      ("type", JStr "img_resize") ]) ]);
              ("edges", JList
                [ JDict
                  [ ("source", JDict
                      [ ("node_id", JStr "flux_model_loader:ywdpEhgSIn");
                        ("field", JStr "transformer") ]);
                    ("destination", JDict
                      [ ("node_id", JStr "flux_denoise:9SHZg1d4kC");
                        ("field", JStr "transformer") ]) ];
                  JDict
                  [ ("source", JDict
                      [ ("node_id", JStr "flux_model_loader:ywdpEhgSIn");
                        ("field", JStr "vae") ]);
                    ("destination", JDict
                      [ ("node_id", JStr "flux_denoise:9SHZg1d4kC");
                        ("field", JStr "controlnet_vae") ]) ];
                  JDict
                  [ ("source", JDict
                      [ ("node_id", JStr "flux_model_loader:ywdpEhgSIn");
                        ("field", JStr "vae") ]);
                    ("destination", JDict
                      [ ("node_id", JStr "flux_vae_decode:Vr4fbsSEgU");
                        ("field", JStr "vae") ]) ];
                  JDict
                  [ ("source", JDict
                      [ ("node_id", JStr "flux_model_loader:ywdpEhgSIn");
                        ("field", JStr "clip") ]);
                    ("destination", JDict
                      [ ("node_id", JStr "flux_text_encoder:o0tHGDGa69");
                        ("field", JStr "clip") ]) ];
                  JDict
                  [ ("source", JDict
                      [ ("node_id", JStr "flux_model_loader:ywdpEhgSIn");
                        ("field", JStr "t5_encoder") ]);
                    ("destination", JDict
                      [ ("node_id", JStr "flux_text_encoder:o0tHGDGa69");
                        ("field", JStr "t5_encoder") ]) ];
                  JDict
                  [ ("source", JDict
                      [ ("node_id", JStr "flux_model_loader:ywdpEhgSIn");
                        ("field", JStr "max_seq_len") ]);
                    ("destination", JDict
                      [ ("node_id", JStr "flux_text_encoder:o0tHGDGa69");
                        ("field", JStr "t5_max_seq_len") ]) ];
                  JDict
                  [ ("source", JDict
                      [ ("node_id", JStr "positive_prompt:0oQdkhpu9K");
                        ("field", JStr "value") ]);
                    ("destination", JDict
                      [ ("node_id", JStr "flux_text_encoder:o0tHGDGa69");
                        ("field", JStr "prompt") ]) ];
                  JDict
                  [ ("source", JDict
                      [ ("node_id", JStr "flux_text_encoder:o0tHGDGa69");
                        ("field", JStr "conditioning") ]);
                    ("destination", JDict
                      [ ("node_id", JStr "pos_cond_collect:ApPpdRqgK2");
                        ("field", JStr "item") ]) ];
                  JDict
                  [ ("source", JDict
                      [ ("node_id", JStr "pos_cond_collect:ApPpdRqgK2");
                        ("field", JStr "collection") ]);
                    ("destination", JDict
                      [ ("node_id", JStr "flux_denoise:9SHZg1d4kC");
                        ("field", JStr "positive_text_conditioning") ]) ];
                  JDict
                  [ ("source", JDict [("node_id", JStr "seed:aVE0l2Zlf1"); ("field", JStr "value")]);
                    ("destination", JDict
                      [ ("node_id", JStr "flux_denoise:9SHZg1d4kC");
                        ("field", JStr "seed") ]) ];
                  JDict
                  [ ("source", JDict
                      [ ("node_id", JStr "flux_denoise:9SHZg1d4kC");
                        ("field", JStr "latents") ]);
                    ("destination", JDict
                      [ ("node_id", JStr "flux_vae_decode:Vr4fbsSEgU");
                        ("field", JStr "latents") ]) ];
                  JDict
                  [ ("source", JDict [("node_id", JStr "seed:aVE0l2Zlf1"); ("field", JStr "value")]);
                    ("destination", JDict
                      [ ("node_id", JStr "core_metadata:oCIejDlaQA");
                        ("field", JStr "seed") ]) ];
                  JDict
                  [ ("source", JDict
                      [ ("node_id", JStr "positive_prompt:0oQdkhpu9K");
                        ("field", JStr "value") ]);
                    ("destination", JDict
                      [ ("node_id", JStr "core_metadata:oCIejDlaQA");
                        ("field", JStr "positive_prompt") ]) ];
                  JDict
                  [ ("source", JDict
                      [ ("node_id", JStr "flux_kontext:MsQ9ynwazR");
                        ("field", JStr "kontext_cond") ]);
                    ("destination", JDict
                      [ ("node_id", JStr "flux_denoise:9SHZg1d4kC");
                        ("field", JStr "kontext_conditioning") ]) ];
                  JDict
                  [ ("source", JDict
                      [ ("node_id", JStr "flux_vae_decode:Vr4fbsSEgU");
                        ("field", JStr "image") ]);
                    ("destination", JDict
                      [ ("node_id", JStr "canvas_output:FhpncF2ITc");
                        ("field", JStr "image") ]) ];
                  JDict
                  [ ("source", JDict
                      [ ("node_id", JStr "core_metadata:oCIejDlaQA");
                        ("field", JStr "metadata") ]);
                    ("destination", JDict
                      [ ("node_id", JStr "canvas_output:FhpncF2ITc");
                        ("field", JStr "metadata") ]) ] ]) ]);
          ("runs", JInt 1) ]);
      ("priority", JInt 0) ].

Definition COMFYUI_FLUX_KONTEXT_WORKFLOW : json :=
  JDict
    [ ("1", JDict
        [ ("inputs", JDict
            [ ("filename_prefix", JStr "ComfyUI");
              ("images", JList [JStr "21"; JInt 0]) ]);
          ("class_type", JStr "SaveImage");
          ("_meta", JDict [("title", JStr "Save Image")]) ]);
      ("4", JDict
        [ ("inputs", JDict []);
          ("class_type", JStr "InstallNIMNode");
          ("_meta", JDict [("title", JStr "Install NIM")]) ]);
      ("6", JDict
        [ ("inputs", JDict
            [ ("model_type", JStr "FLUX_KONTEXT");
              ("operation", JStr "Start");
              ("offloading_policy", JStr "Default");
              ("hf_token", JList [JStr "8"; JInt 0]);
              ("is_nim_installed", JList [JStr "4"; JInt 0]) ]);
          ("class_type", JStr "LoadNIMNode");
          ("_meta", JDict [("title", JStr "Load NIM")]) ]);
      ("8", JDict
        [ ("inputs", JDict []);
          ("class_type", JStr "Get_HFToken");
          ("_meta", JDict [("title", JStr "Use HF_TOKEN EnVar")]) ]);
      ("11", JDict
        [ ("inputs", JDict [("image", JStr "552ed252-7ea7-495f-98e6-2d11c992c8ac.png")]);
          ("class_type", JStr "LoadImage");
          ("_meta", JDict [("title", JStr "Load Image")]) ]);
      ("16", JDict
        [ ("inputs", JDict [("image", JList [JStr "11"; JInt 0])]);
          ("class_type", JStr "FluxKontextImageScale");
          ("_meta", JDict [("title", JStr "FluxKontextImageScale")]) ]);
      ("21", JDict
        [ ("inputs", JDict
            [ ("width", JList [JStr "22"; JInt 0]);
              ("height", JList [JStr "22"; JInt 1]);
              ("prompt", JStr "make into into fine Chinese porcelain blue and white");
              ("cfg_scale", JFloat (FFinite 5 (-1)));
              ("seed", JInt 738487792);
              ("steps", JInt 20);
              ("is_nim_started", JList [JStr "6"; JInt 0]);
              ("image", JList [JStr "16"; JInt 0]) ]);
          ("class_type", JStr "NIMFLUXNode");
          ("_meta", JDict [("title", JStr "NIM Generate")]) ]);
      ("22", JDict
        [ ("inputs", JDict [("image", JList [JStr "16"; JInt 0])]);
          ("class_type", JStr "GetImageSize");
          ("_meta", JDict [("title", JStr "Get Image Size")]) ]) ].

(** The store once the module is imported: the objects of both
    literals, and the values the two global names hold. *)
Definition invokeai_template : pyval := (store INVOKEAI_FLUX_KONTEXT_WORKFLOW []).1.

Definition comfyui_template : pyval :=
  (store COMFYUI_FLUX_KONTEXT_WORKFLOW (store INVOKEAI_FLUX_KONTEXT_WORKFLOW []).2).1.

Definition module_store : heap :=
  (store COMFYUI_FLUX_KONTEXT_WORKFLOW (store INVOKEAI_FLUX_KONTEXT_WORKFLOW []).2).2.

Fixpoint all_some {A} (xs : list (option A)) : option (list A) :=
  match xs with
  | [] => Some []
  | Some x :: rest => option_map (cons x) (all_some rest)
  | None :: _ => None
  end.

(** The JSON document a value stands for in a store, read down to
    [depth] levels of containers. *)
Fixpoint load (depth : nat) (h : heap) (v : pyval) : option json :=
  match v with
  | VNone => Some JNull
  | VBool b => Some (JBool b)
  | VInt z => Some (JInt z)
  | VFloat x => Some (JFloat x)
  | VStr s => Some (JStr s)
  | VRef l =>
      match depth with
      | O => None
      | S depth' =>
          match h !! l with
          | Some (ODict items) =>
              option_map (fun vals => JDict (combine (map fst items) vals))
                         (all_some (map (fun kv => load depth' h kv.2) items))
          | Some (OList items) =>
              option_map JList (all_some (map (load depth' h) items))
          | None => None
          end
      end
  end.

(** Reading [j[a][b][c]] in a document. *)
Definition at_path (j : json) (a b c : string) : result json :=
  do x <- getitem j (JStr a);
  do y <- getitem x (JStr b);
  getitem y (JStr c).

(** *** Patching never touches an object that existed before the call *)

(** C8.  Whatever workflow, prompt, image name and step count are
    passed, every object that is in the store when
    [modify_workflow_for_kontext] or
    [modify_comfyui_workflow_for_kontext] is called is the same object
    afterwards: the patches land in the deep copy's own objects.  The
    module-level templates are such objects. *)
Theorem patching_leaves_existing_objects
    (h0 : heap) (workflow_data prompt image_name steps : pyval) (l : nat) (o : pyobj) :
  h0 !! l = Some o ->
  (modify_workflow_for_kontext workflow_data prompt image_name h0).2 !! l = Some o /\
  (modify_comfyui_workflow_for_kontext workflow_data prompt image_name steps h0).2 !! l
  = Some o.
Proof.
  intros Ho. pose proof (lookup_lt_Some _ _ _ Ho) as Hl. split.
  - destruct (triple_modify_workflow_for_kontext_body h0 workflow_data prompt image_name
                h0 eq_refl) as [Hag _].
    unfold modify_workflow_for_kontext.
    destruct (modify_workflow_for_kontext_body workflow_data prompt image_name h0)
      as [[w|e] h']; cbn in *; now rewrite (Hag l Hl).
  - destruct (triple_modify_comfyui_body h0 workflow_data prompt image_name steps
                h0 eq_refl) as [Hag _].
    unfold modify_comfyui_workflow_for_kontext.
    destruct (modify_comfyui_workflow_for_kontext_body workflow_data prompt image_name
                steps h0) as [[r|e] h']; cbn in *; now rewrite (Hag l Hl).
Qed.


(** The inputs dict of the NIMFLUXNode in the ComfyUI template, which
    holds the prompt and the step count, before and after a request. *)
Definition nimflux_inputs : list (string * pyval) :=
  [("width", VRef 94); ("height", VRef 95);
   ("prompt", VStr "make into into fine Chinese porcelain blue and white");
   ("cfg_scale", VFloat (FFinite 5 (-1)));
   ("seed", VInt 738487792); ("steps", VInt 20);
   ("is_nim_started", VRef 96); ("image", VRef 97)].

Lemma patching_leaves_existing_objects_witness :
  module_store !! 98 = Some (ODict nimflux_inputs) /\
  (modify_comfyui_workflow_for_kontext comfyui_template
     (VStr "make it snow") (VStr "shot.png") (VInt 30) module_store).2 !! 98
  = Some (ODict nimflux_inputs).
Proof.
  assert (Ho : module_store !! 98 = Some (ODict nimflux_inputs)).
  { vm_compute. reflexivity. }
  split; [exact Ho|].
  exact (proj2 (patching_leaves_existing_objects module_store comfyui_template
                  (VStr "make it snow") (VStr "shot.png") (VInt 30)
                  98 (ODict nimflux_inputs) Ho)).
Defined.

(** A ComfyUI request on the module's store: the call returns a patched
    copy, and both templates still read as their literals. *)
Example comfyui_request :
  let r := modify_comfyui_workflow_for_kontext comfyui_template
             (VStr "make it snow") (VStr "shot.png") (VInt 30) module_store in
  (exists w j, r.1 = Some w /\ load 8 r.2 w = Some j /\
     at_path j "21" "inputs" "prompt" = Ok (JStr "make it snow") /\
     at_path j "21" "inputs" "steps" = Ok (JInt 30) /\
     at_path j "11" "inputs" "image" = Ok (JStr "shot.png")) /\
  load 8 r.2 comfyui_template = Some COMFYUI_FLUX_KONTEXT_WORKFLOW /\
  load 8 r.2 invokeai_template = Some INVOKEAI_FLUX_KONTEXT_WORKFLOW.
Proof.
  cbv zeta. split; [|split; vm_compute; reflexivity].
  eexists _, _. split; [vm_compute; reflexivity|].
  split; [vm_compute; reflexivity|].
  repeat split; vm_compute; reflexivity.
Qed.

(** The same for an InvokeAI request. *)
Example invokeai_request :
  let r := modify_workflow_for_kontext invokeai_template
             (VStr "make it snow") (VStr "shot.png") module_store in
  (exists w j nodes kontext image,
     r.1 = Some w /\ load 8 r.2 w = Some j /\
     at_path j "batch" "graph" "nodes" = Ok nodes /\
     getitem nodes (JStr kontext_node_id) = Ok kontext /\
     getitem kontext (JStr "image") = Ok image /\
     getitem image (JStr "image_name") = Ok (JStr "shot.png") /\
     (do node <- getitem nodes (JStr prompt_node_id); getitem node (JStr "value"))
     = Ok (JStr "make it snow")) /\
  load 8 r.2 invokeai_template = Some INVOKEAI_FLUX_KONTEXT_WORKFLOW /\
  load 8 r.2 comfyui_template = Some COMFYUI_FLUX_KONTEXT_WORKFLOW.
Proof.
  cbv zeta. split; [|split; vm_compute; reflexivity].
  eexists _, _, _, _, _. split; [vm_compute; reflexivity|].
  split; [vm_compute; reflexivity|].
  split; [vm_compute; reflexivity|].
  split; [vm_compute; reflexivity|].
  split; [vm_compute; reflexivity|].
  split; vm_compute; reflexivity.
Qed.

(** *** What a patched template reads as *)

(** [j[k1][k2]...[kn] = x] on a document; a path that leaves the
    document changes nothing. *)
Fixpoint set_in (path : list string) (x : json) (j : json) : json :=
  match path with
  | [] => x
  | key :: rest =>
      match j with
      | JDict kvs =>
          match assoc key kvs with
          | Some v => JDict (dict_set key (set_in rest x v) kvs)
          | None => j
          end
      | _ => j
      end
  end.

(** For every prompt, image name and step count, patching the ComfyUI
    template on the module's store succeeds, and the workflow returned
    reads as the template with the prompt and the steps of node 21 and
    the image of node 11 replaced, and nothing else changed. *)
Theorem comfyui_patch_reads_back (prompt image_name : string) (steps : Z) :
  let r := modify_comfyui_workflow_for_kontext comfyui_template
             (VStr prompt) (VStr image_name) (VInt steps) module_store in
  exists w,
    r.1 = Some w /\
    load 8 r.2 w
    = Some (set_in ["11"; "inputs"; "image"] (JStr image_name)
              (set_in ["21"; "inputs"; "steps"] (JInt steps)
                 (set_in ["21"; "inputs"; "prompt"] (JStr prompt)
                    COMFYUI_FLUX_KONTEXT_WORKFLOW))).
Proof.
  cbv zeta. eexists. split; [vm_compute; reflexivity|].
  vm_compute. reflexivity.
Qed.

(** For every prompt and image name, patching the InvokeAI template on
    the module's store succeeds, and the workflow returned reads as the
    template with the value of the prompt node and the image name of
    the Kontext node replaced, and nothing else changed. *)
Theorem invokeai_patch_reads_back (prompt image_name : string) :
  let r := modify_workflow_for_kontext invokeai_template
             (VStr prompt) (VStr image_name) module_store in
  exists w,
    r.1 = Some w /\
    load 8 r.2 w
    = Some (set_in ["batch"; "graph"; "nodes"; kontext_node_id; "image"; "image_name"]
              (JStr image_name)
              (set_in ["batch"; "graph"; "nodes"; prompt_node_id; "value"] (JStr prompt)
                 INVOKEAI_FLUX_KONTEXT_WORKFLOW)).
Proof.
  cbv zeta. eexists. split; [vm_compute; reflexivity|].
  vm_compute. reflexivity.
Qed.

End Workflow.

(* ================================================================== *)
(** ** The newest screenshot: [find_most_recent_image] *)

Module Gallery.
Import Py.
Local Open Scope string_scope.
Local Open Scope list_scope.
Local Open Scope Z_scope.

(** One path yielded by [dir_path.rglob("*")], with what the loop asks
    of it.  [st_mtime] is a float of which the loop uses the order
    only; it is given as a multiple of a unit fine enough for the
    directory at hand. *)
Record Entry : Type := mkEntry {
  path : string;                (* str(file_path) *)
  is_file : result bool;        (* file_path.is_file() *)
  suffix_lower : string;        (* file_path.suffix.lower() *)
  st_mtime : result Z           (* file_path.stat().st_mtime *)
}.

(** What the function finds at [directory]. *)
Inductive Directory : Type :=
| Absent                                              (* missing, or not a directory *)
| Listing (entries : list Entry) (failure : option exn).
                                                      (* the walk, and how it ends *)

(** [file_path.is_file() and file_path.suffix.lower() in extensions]. *)
Definition wanted (extensions : list string) (e : Entry) : result bool :=
  do f <- is_file e;
  Ok (f && existsb (String.eqb (suffix_lower e)) extensions).

(** The body of the [for] loop over the entries yielded. *)
Fixpoint scan (extensions : list string) (entries : list Entry)
    (latest_file : option string) (latest_mtime : Z) : result (option string) :=
  match entries with
  | [] => Ok latest_file
  | file_path :: rest =>
      do w <- wanted extensions file_path;
      if w then
        do mtime <- st_mtime file_path;
        if latest_mtime <? mtime then scan extensions rest (Some (path file_path)) mtime
        else scan extensions rest latest_file latest_mtime
      else scan extensions rest latest_file latest_mtime
  end.

Definition find_most_recent_image (directory : Directory) (extensions : list string)
  : option string :=
  match directory with
  | Absent => None
  | Listing entries failure =>
      match scan extensions entries None 0 with
      | Raise _ => None
      | Ok latest_file =>
          match failure with
          | Some _ => None
          | None => latest_file
          end
      end
  end.

(** *** Facts *)

Definition earlier (strict : bool) (a b : Z) : Prop :=
  if strict then a < b else a <= b.

(** Every wanted entry of [entries] was modified no later than [m], or
    before it when [strict]. *)
Definition none_newer (extensions : list string) (strict : bool) (m : Z)
    (entries : list Entry) : Prop :=
  forall e, In e entries -> wanted extensions e = Ok true ->
            exists m', st_mtime e = Ok m' /\ earlier strict m' m.

Lemma none_newer_nil extensions strict m : none_newer extensions strict m [].
Proof. intros e []. Qed.

Lemma none_newer_cons extensions strict m e entries :
  (wanted extensions e = Ok true ->
   exists m', st_mtime e = Ok m' /\ earlier strict m' m) ->
  none_newer extensions strict m entries ->
  none_newer extensions strict m (e :: entries).
Proof. intros He Hrest e' [<-|Hin]; [exact He|now apply Hrest]. Qed.

Lemma none_newer_weaken extensions m m' entries :
  m <= m' ->
  none_newer extensions false m entries -> none_newer extensions true (m' + 1) entries.
Proof.
  intros Hle Hn e Hin Hw. destruct (Hn e Hin Hw) as (x & Hx & Hxm).
  exists x. split; [exact Hx|]. unfold earlier in *. lia.
Qed.

(** What the loop computes, from any state it can be in. *)
Lemma scan_spec extensions entries latest_file latest_mtime r :
  scan extensions entries latest_file latest_mtime = Ok r ->
  (r = latest_file /\ none_newer extensions false latest_mtime entries) \/
  (exists pre e post m,
     entries = pre ++ e :: post /\ r = Some (path e) /\
     wanted extensions e = Ok true /\ st_mtime e = Ok m /\ latest_mtime < m /\
     none_newer extensions true m pre /\ none_newer extensions false m post).
Proof.
  revert latest_file latest_mtime.
  induction entries as [|e entries IH]; intros latest_file latest_mtime Hs.
  - injection Hs as <-. left. split; [reflexivity|apply none_newer_nil].
  - cbn [scan] in Hs. destruct (wanted extensions e) as [[|]|] eqn:Hw; cbn [bind] in Hs.
    + destruct (st_mtime e) as [mtime|] eqn:Hm; cbn [bind] in Hs; [|discriminate].
      destruct (latest_mtime <? mtime) eqn:Hlt.
      * apply Z.ltb_lt in Hlt.
        destruct (IH _ _ Hs) as [[-> Hn]|(pre & e' & post & m & -> & -> & Hw' & Hm' & Hlt' & Hpre & Hpost)].
        -- right. exists [], e, entries, mtime. repeat split; try assumption.
           apply none_newer_nil.
        -- right. exists (e :: pre), e', post, m. repeat split; try assumption; [lia|].
           apply none_newer_cons; [|exact Hpre].
           intros _. exists mtime. split; [exact Hm|exact Hlt'].
      * apply Z.ltb_ge in Hlt.
        destruct (IH _ _ Hs) as [[-> Hn]|(pre & e' & post & m & -> & -> & Hw' & Hm' & Hlt' & Hpre & Hpost)].
        -- left. split; [reflexivity|].
           apply none_newer_cons; [|exact Hn].
           intros _. exists mtime. split; [exact Hm|exact Hlt].
        -- right. exists (e :: pre), e', post, m. repeat split; try assumption.
           apply none_newer_cons; [|exact Hpre].
           intros _. exists mtime. split; [exact Hm|unfold earlier; lia].
    + destruct (IH _ _ Hs) as [[-> Hn]|(pre & e' & post & m & -> & -> & Hw' & Hm' & Hlt' & Hpre & Hpost)].
      * left. split; [reflexivity|]. apply none_newer_cons; [congruence|exact Hn].
      * right. exists (e :: pre), e', post, m. repeat split; try assumption.
        apply none_newer_cons; [congruence|exact Hpre].
    + discriminate.
Qed.

(** Every entry can be examined: [is_file] answers, and [stat] answers
    for the entries the loop asks it of. *)
Definition readable (extensions : list string) (entries : list Entry) : Prop :=
  forall e, In e entries ->
            exists w, wanted extensions e = Ok w /\
                      (w = true -> exists m, st_mtime e = Ok m).

Lemma scan_readable extensions entries latest_file latest_mtime :
  readable extensions entries ->
  exists r, scan extensions entries latest_file latest_mtime = Ok r.
Proof.
  revert latest_file latest_mtime.
  induction entries as [|e entries IH]; intros latest_file latest_mtime Hr.
  - now exists latest_file.
  - assert (Hrest : readable extensions entries) by (intros e' Hin; apply Hr; now right).
    destruct (Hr e (or_introl eq_refl)) as (w & Hw & Hm).
    cbn [scan]. rewrite Hw. cbn [bind]. destruct w.
    + destruct (Hm eq_refl) as (m & ->). cbn [bind].
      destruct (latest_mtime <? m); apply IH, Hrest.
    + apply IH, Hrest.
Qed.

Lemma scan_raises_at extensions entries latest_file latest_mtime bad :
  In bad entries ->
  (is_ok (is_file bad) = false \/
   (wanted extensions bad = Ok true /\ is_ok (st_mtime bad) = false)) ->
  is_ok (scan extensions entries latest_file latest_mtime) = false.
Proof.
  revert latest_file latest_mtime.
  induction entries as [|e entries IH]; intros latest_file latest_mtime Hin Hbad; [destruct Hin|].
  cbn [scan]. destruct Hin as [->|Hin].
  - destruct Hbad as [Hf|[Hw Hm]].
    + unfold wanted. destruct (is_file bad); [discriminate|reflexivity].
    + rewrite Hw. cbn [bind]. destruct (st_mtime bad); [discriminate|reflexivity].
  - destruct (wanted extensions e) as [[|]|]; cbn [bind]; [|now apply IH|reflexivity].
    destruct (st_mtime e) as [m|]; cbn [bind]; [|reflexivity].
    destruct (latest_mtime <? m); now apply IH.
Qed.

(** The path returned belongs to a file with one of the extensions
    whose modification time is positive, later than that of every such
    file walked before it and not earlier than that of any walked
    after it: of several newest files the first one walked is
    returned. *)
Theorem most_recent_image_is_first_newest
    (directory : Directory) (extensions : list string) (found : string) :
  find_most_recent_image directory extensions = Some found ->
  exists pre e post m,
    directory = Listing (pre ++ e :: post) None /\ path e = found /\
    is_file e = Ok true /\ In (suffix_lower e) extensions /\
    st_mtime e = Ok m /\ 0 < m /\
    none_newer extensions true m pre /\ none_newer extensions false m post.
Proof.
  unfold find_most_recent_image. intros Hf.
  destruct directory as [|entries failure]; [discriminate|].
  destruct (scan extensions entries None 0) as [r|] eqn:Hs; [|discriminate].
  destruct failure; [discriminate|]. subst r.
  destruct (scan_spec _ _ _ _ _ Hs)
    as [[Hr _]|(pre & e & post & m & -> & Hr & Hw & Hm & Hlt & Hpre & Hpost)];
    [discriminate|].
  injection Hr as ->. exists pre, e, post, m.
  unfold wanted in Hw. destruct (is_file e) as [[|]|]; cbn in Hw; try discriminate.
  injection Hw as Hw. apply existsb_exists in Hw as (x & Hx & Heq).
  apply String.eqb_eq in Heq. subst x.
  repeat split; assumption.
Qed.

(** In a directory that can be walked to the end, with every entry
    examined, no path is returned exactly when no file with one of the
    extensions has a positive modification time: images stamped with
    the epoch or earlier are never found. *)
Theorem image_found_iff_newer_than_epoch
    (entries : list Entry) (extensions : list string) :
  readable extensions entries ->
  (find_most_recent_image (Listing entries None) extensions = None <->
   none_newer extensions false 0 entries).
Proof.
  intros Hr. unfold find_most_recent_image.
  destruct (scan_readable extensions entries None 0 Hr) as (r & Hs). rewrite Hs.
  destruct (scan_spec _ _ _ _ _ Hs)
    as [[-> Hn]|(pre & e & post & m & -> & -> & Hw & Hm & Hlt & Hpre & Hpost)].
  - split; [intros _; exact Hn|reflexivity].
  - split; [discriminate|]. intros Hn.
    destruct (Hn e) as (m' & Hm' & Hle); [apply in_elt|exact Hw|].
    rewrite Hm in Hm'. injection Hm' as <-. unfold earlier in Hle. lia.
Qed.

(** Whatever has been found so far, an exception anywhere in the walk
    - raised by the walk itself, by [is_file], or by [stat] on a file
    with one of the extensions - makes the function return [None]; so
    does a directory that is missing. *)
Theorem failed_walk_finds_nothing
    (entries : list Entry) (extensions : list string) (failure : option exn) (bad : Entry) :
  failure <> None \/
  (In bad entries /\
   (is_ok (is_file bad) = false \/
    (wanted extensions bad = Ok true /\ is_ok (st_mtime bad) = false))) ->
  find_most_recent_image (Listing entries failure) extensions = None.
Proof.
  unfold find_most_recent_image. intros [Hf|[Hin Hbad]].
  - destruct (scan extensions entries None 0); [|reflexivity].
    destruct failure; [reflexivity|congruence].
  - pose proof (scan_raises_at extensions entries None 0 bad Hin Hbad) as Hs.
    destruct (scan extensions entries None 0); [discriminate|reflexivity].
Qed.

(** *** A gallery *)

Definition image_extensions : list string := [".png"; ".jpg"; ".jpeg"; ".bmp"; ".tiff"].

Definition shot (name : string) (suffix : string) (mtime : Z) : Entry :=
  {| path := name; is_file := Ok true; suffix_lower := suffix; st_mtime := Ok mtime |}.

Definition gallery : list Entry :=
  [shot "shots/a.png" ".png" 1700000100;
   {| path := "shots/2024"; is_file := Ok false; suffix_lower := ""; st_mtime := Raise OSError |};
   shot "shots/2024/b.JPG" ".jpg" 1700000200;
   shot "shots/2024/notes.txt" ".txt" 1700000900;
   shot "shots/2024/c.png" ".png" 1700000200].

Lemma most_recent_image_is_first_newest_witness :
  find_most_recent_image (Listing gallery None) image_extensions = Some "shots/2024/b.JPG" /\
  exists pre e post m,
    Listing gallery None = Listing (pre ++ e :: post) None /\ path e = "shots/2024/b.JPG" /\
    is_file e = Ok true /\ In (suffix_lower e) image_extensions /\
    st_mtime e = Ok m /\ 0 < m /\
    none_newer image_extensions true m pre /\ none_newer image_extensions false m post.
Proof.
  split; [reflexivity|].
  exact (most_recent_image_is_first_newest (Listing gallery None) image_extensions
           "shots/2024/b.JPG" eq_refl).
Defined.

(** Two images stamped with the epoch. *)
Definition stale_gallery : list Entry :=
  [shot "old/a.png" ".png" 0; shot "old/b.png" ".png" (-5)].

Lemma stale_gallery_readable : readable image_extensions stale_gallery.
Proof.
  intros e Hin. exists true.
  destruct Hin as [<-|[<-|[]]]; (split; [reflexivity|]); intros _; eexists; reflexivity.
Defined.

Lemma image_found_iff_newer_than_epoch_witness :
  find_most_recent_image (Listing stale_gallery None) image_extensions = None <->
  none_newer image_extensions false 0 stale_gallery.
Proof.
  exact (image_found_iff_newer_than_epoch stale_gallery image_extensions
           stale_gallery_readable).
Defined.

Lemma failed_walk_finds_nothing_witness :
  find_most_recent_image (Listing gallery (Some OSError)) image_extensions = None.
Proof.
  apply (failed_walk_finds_nothing gallery image_extensions (Some OSError)
           (shot "shots/a.png" ".png" 1700000100)).
  left. intros Hf. discriminate Hf.
Defined.

End Gallery.

(* ================================================================== *)
(** ** The InvokeAI worker: screenshot, upload, patch, enqueue *)
(* ================================================================== *)

Module Pipeline.
Import Py.
Local Open Scope string_scope.
Local Open Scope list_scope.
Local Open Scope Z_scope.

(** What the worker meets outside the module. *)
Record Services : Type := mkServices {
  gallery_at : string -> Gallery.Directory;      (* the directory tree at a path *)
  opens : string -> bool;                        (* open(image_path, "rb") *)
  upload_reply : Monitor.HttpReply               (* POST {url}/api/v1/images/upload *)
}.

(** The calls of [requests.post], in the order they are made. *)
Inductive Call : Type :=
| UploadPost (url : string) (params : list (string * json)) (image_path : string)
| EnqueuePost (url : string) (workflow : option json).

Definition is_enqueue (c : Call) : bool :=
  match c with EnqueuePost _ _ => true | _ => false end.

Definition screenshot_extensions : list string :=
  [".png"; ".jpg"; ".jpeg"; ".bmp"; ".tiff"].

Definition KONTEXT_DEFAULT_PROMPT : string := "make it in the style of studio ghibli anime".

(** [bool(v)] for a value in a store. *)
Definition value_truthy (h : list Workflow.pyobj) (v : Workflow.pyval) : bool :=
  match v with
  | Workflow.VNone => false
  | Workflow.VBool b => b
  | Workflow.VInt z => negb (z =? 0)
  | Workflow.VFloat (FFinite m _) => negb (m =? 0)
  | Workflow.VFloat _ => true
  | Workflow.VStr s => negb (String.eqb s "")
  | Workflow.VRef l =>
      match h !! l with
      | Some (Workflow.ODict []) | Some (Workflow.OList []) => false
      | _ => true
      end
  end.

Section Worker.
Context `{Runtime}.
Variable sv : Services.

(** [find_most_recent_image(GALLERY_DIRECTORY, screenshot_extensions)]:
    [Path] refuses what is not a path. *)
Definition find_screenshot (directory : json) : result (option string) :=
  match directory with
  | JStr d => Ok (Gallery.find_most_recent_image (gallery_at sv d) screenshot_extensions)
  | _ => Raise TypeError
  end.

(** [upload_image_to_invoke(image_path, invokeai_url, board_id)]: the
    value returned and the requests made. *)
Definition upload_image_to_invoke (image_path : string) (invokeai_url board_id : json)
  : json * list Call :=
  let upload_url := py_str invokeai_url +:+ "/api/v1/images/upload" in
  let params :=
    [("image_category", JStr "user"); ("is_intermediate", JStr "false");
     ("crop_visible", JStr "false")]
    ++ (if truthy board_id then [("board_id", board_id)] else []) in
  if negb (opens sv image_path) then (JNull, [])
  else
    let made := [UploadPost upload_url params image_path] in
    match upload_reply sv with
    | Monitor.HttpRaises _ => (JNull, made)
    | Monitor.HttpResponse status_code body _ =>
        if Monitor.raises_for_status status_code then (JNull, made)
        else
          match body with
          | None => (JNull, made)
          | Some result =>
              match get_method result "image_name" JNull with
              | Ok image_name => (image_name, made)
              | Raise _ => (JNull, made)
              end
          end
    end.

(** [generate_image_using_kontext_worker(GALLERY_DIRECTORY, invokeai_url,
    board_id, prompt, steps)]: the requests made and the store
    afterwards. *)
Definition generate_image_using_kontext_worker
    (GALLERY_DIRECTORY invokeai_url board_id prompt steps : json)
    (h : list Workflow.pyobj) : list Call * list Workflow.pyobj :=
  let prompt := if negb (truthy prompt) then JStr KONTEXT_DEFAULT_PROMPT else prompt in
  match find_screenshot GALLERY_DIRECTORY with
  | Raise _ => ([], h)
  | Ok None => ([], h)
  | Ok (Some latest_screenshot_path) =>
      if negb (truthy (JStr latest_screenshot_path)) then ([], h)
      else
        let '(image_name, made) :=
          upload_image_to_invoke latest_screenshot_path invokeai_url board_id in
        if negb (truthy image_name) then (made, h)
        else
          let '(prompt_value, h1) := Workflow.store prompt h in
          let '(name_value, h2) := Workflow.store image_name h1 in
          match Workflow.modify_workflow_for_kontext
                  Workflow.invokeai_template prompt_value name_value h2 with
          | (None, h3) => (made, h3)
          | (Some modified_workflow, h3) =>
              if negb (value_truthy h3 modified_workflow) then (made, h3)
              else
                (made ++ [EnqueuePost
                            (py_str invokeai_url +:+ "/api/v1/queue/default/enqueue_batch")
                            (Workflow.load (S (length h3)) h3 modified_workflow)],
                 h3)
          end
  end.

(** *** Facts *)

Lemma upload_calls image_path invokeai_url board_id :
  (upload_image_to_invoke image_path invokeai_url board_id).2 = [] /\
  (upload_image_to_invoke image_path invokeai_url board_id).1 = JNull \/
  exists url params,
    (upload_image_to_invoke image_path invokeai_url board_id).2
    = [UploadPost url params image_path] /\
    opens sv image_path = true.
Proof.
  unfold upload_image_to_invoke.
  destruct (opens sv image_path); cbn [negb]; [right|left; split; reflexivity].
  eexists _, _.
  destruct (upload_reply sv) as [e|status_code [result|] content]; cbn [snd];
    [split; reflexivity| |].
  - destruct (Monitor.raises_for_status status_code); [split; reflexivity|].
    destruct (get_method result "image_name" JNull); split; reflexivity.
  - destruct (Monitor.raises_for_status status_code); split; reflexivity.
Qed.

(** Whatever the arguments, the services and the store, the worker
    makes no request without a screenshot, at most one upload, and one
    enqueue request only after an upload that was answered with an image
    name; the step count it is given plays no part. *)
Theorem enqueue_only_after_a_named_upload
    (GALLERY_DIRECTORY invokeai_url board_id prompt steps : json)
    (h : list Workflow.pyobj) :
  let made :=
    (generate_image_using_kontext_worker GALLERY_DIRECTORY invokeai_url board_id
       prompt steps h).1 in
  (forall steps',
     generate_image_using_kontext_worker GALLERY_DIRECTORY invokeai_url board_id
       prompt steps' h
     = generate_image_using_kontext_worker GALLERY_DIRECTORY invokeai_url board_id
         prompt steps h) /\
  (made = [] \/
   exists latest url params,
     find_screenshot GALLERY_DIRECTORY = Ok (Some latest) /\
     opens sv latest = true /\
     (made = [UploadPost url params latest] \/
      exists url' workflow,
        made = [UploadPost url params latest; EnqueuePost url' workflow] /\
        truthy (upload_image_to_invoke latest invokeai_url board_id).1 = true)).
Proof.
  cbv zeta. split; [reflexivity|]. unfold generate_image_using_kontext_worker.
  destruct (find_screenshot GALLERY_DIRECTORY) as [[latest|]|e]; [|now left|now left].
  destruct (negb (truthy (JStr latest))); [now left|].
  pose proof (upload_calls latest invokeai_url board_id) as Hup.
  destruct (upload_image_to_invoke latest invokeai_url board_id)
    as [image_name made] eqn:Hu.
  cbn [fst snd] in *.
  destruct Hup as [[-> ->]|(url & params & -> & Hopen)]; [now left|].
  right. exists latest, url, params. split; [reflexivity|]. split; [exact Hopen|].
  destruct (truthy image_name) eqn:Hname; cbn [negb]; [|now left].
  destruct (Workflow.store _ h) as [prompt_value h1].
  destruct (Workflow.store image_name h1) as [name_value h2].
  destruct (Workflow.modify_workflow_for_kontext _ _ _ h2) as [[w|] h3]; [|now left].
  destruct (negb (value_truthy h3 w)); [now left|].
  right. eexists _, _. split; [reflexivity|]. rewrite Hu. exact Hname.
Qed.

(** With a screenshot in the gallery, a file that opens and an upload
    answered with the image name [name], the worker called on the
    module's store makes two requests: the upload of that screenshot,
    then the enqueueing of a workflow that reads as the template with
    the prompt - the one given or, when it is empty, the Ghibli prompt
    - and [name] in place. *)
Theorem worker_enqueues_the_patched_template
    (directory latest name prompt : string) (invokeai_url board_id steps : json)
    (status_code : Z) (fields : list (string * json)) (content : list Byte.byte) :
  Gallery.find_most_recent_image (gallery_at sv directory) screenshot_extensions
  = Some latest ->
  latest <> "" ->
  opens sv latest = true ->
  upload_reply sv = Monitor.HttpResponse status_code (Some (JDict fields)) content ->
  Monitor.raises_for_status status_code = false ->
  assoc "image_name" fields = Some (JStr name) ->
  name <> "" ->
  let params :=
    [("image_category", JStr "user"); ("is_intermediate", JStr "false");
     ("crop_visible", JStr "false")]
    ++ (if truthy board_id then [("board_id", board_id)] else []) in
  (generate_image_using_kontext_worker (JStr directory) invokeai_url board_id
     (JStr prompt) steps Workflow.module_store).1
  = [UploadPost (py_str invokeai_url +:+ "/api/v1/images/upload") params latest;
       EnqueuePost (py_str invokeai_url +:+ "/api/v1/queue/default/enqueue_batch")
         (Some (Workflow.set_in
                  ["batch"; "graph"; "nodes"; Workflow.kontext_node_id; "image"; "image_name"]
                  (JStr name)
                  (Workflow.set_in
                     ["batch"; "graph"; "nodes"; Workflow.prompt_node_id; "value"]
                     (JStr (if String.eqb prompt "" then KONTEXT_DEFAULT_PROMPT else prompt))
                     Workflow.INVOKEAI_FLUX_KONTEXT_WORKFLOW)))].
Proof.
  intros Hfind Hlatest Hopen Hreply Hstatus Hname Hne.
  unfold generate_image_using_kontext_worker, find_screenshot, upload_image_to_invoke.
  rewrite Hfind, Hopen, Hreply, Hstatus.
  cbn [truthy negb get_method dict_get]. unfold dict_get. rewrite Hname.
  assert (Hl : String.eqb latest "" = false) by now apply String.eqb_neq.
  assert (Hn : String.eqb name "" = false) by now apply String.eqb_neq.
  rewrite Hl. cbn [truthy negb]. rewrite Hn. cbn [negb].
  cbv zeta. destruct (String.eqb prompt ""); vm_compute; reflexivity.
Qed.

End Worker.

(** *** A run of the worker *)

Definition desk : Services :=
  {| gallery_at := fun d =>
       if String.eqb d "C:/shots"
       then Gallery.Listing [Gallery.shot "C:/shots/a.png" ".png" 1700000100] None
       else Gallery.Absent;
     opens := fun _ => true;
     upload_reply :=
       Monitor.HttpResponse 200 (Some (JDict [("image_name", JStr "abc.png")])) [] |}.

Lemma worker_enqueues_the_patched_template_witness :
  exists params workflow,
    (generate_image_using_kontext_worker (H := Sample.runtime) desk (JStr "C:/shots")
       (JStr "http://localhost:9090") JNull (JStr "") (JInt 30) Workflow.module_store).1
    = [UploadPost "http://localhost:9090/api/v1/images/upload" params "C:/shots/a.png";
       EnqueuePost "http://localhost:9090/api/v1/queue/default/enqueue_batch"
         (Some workflow)] /\
    (do nodes <- Workflow.at_path workflow "batch" "graph" "nodes";
     do node <- getitem nodes (JStr Workflow.prompt_node_id);
     getitem node (JStr "value"))
    = Ok (JStr "make it in the style of studio ghibli anime").
Proof.
  pose proof (worker_enqueues_the_patched_template (H := Sample.runtime) desk
              "C:/shots" "C:/shots/a.png" "abc.png" "" (JStr "http://localhost:9090")
              JNull (JInt 30) 200 [("image_name", JStr "abc.png")] []
              eq_refl ltac:(discriminate) eq_refl eq_refl eq_refl eq_refl
              ltac:(discriminate))
    as Hmade.
  eexists _, _. split; [exact Hmade|]. vm_compute. reflexivity.
Defined.

End Pipeline.

(* ================================================================== *)
(** ** Health checks: [flux_nim_ready_check], [flux_kontext_nim_ready_check] *)
(* ================================================================== *)

Module Health.
Import Py Envelope Kontext.
Local Open Scope string_scope.
Local Open Scope list_scope.
Local Open Scope Z_scope.

(** What [urllib.request.urlopen(url, timeout=5)] followed by
    [response.getcode()] comes to. *)
Inductive Probe : Type :=
| ProbeStatus (code : Z)
| ProbeRaises (e : exn).

Section Checks.
Context `{Runtime}.
Variable urlopen : string -> Probe.

(** One [try] block around [urlopen]: the failure envelope it returns,
    [None] when the endpoint answered 200. *)
Definition probe (name url : string) : option Response :=
  match urlopen url with
  | ProbeRaises e =>
      Some (generate_failure_response (Some (name +:+ " endpoint error: " +:+ str_exn e)))
  | ProbeStatus status =>
      if negb (status =? 200) then
        Some (generate_failure_response
                (Some (name +:+ " endpoint returned status " +:+ py_str (JInt status))))
      else None
  end.

Definition live_url (base_url : json) : string := py_str base_url +:+ "/v1/health/live".
Definition ready_url (base_url : json) : string := py_str base_url +:+ "/v1/health/ready".

(** Steps 1 to 3, which are the same text in both handlers but for the
    final message: the envelope and the URLs opened. *)
Definition health_checks (base_url : json) (ready_message : string)
  : Response * list string :=
  match probe "Live" (live_url base_url) with
  | Some r => (r, [live_url base_url])
  | None =>
      match probe "Ready" (ready_url base_url) with
      | Some r => (r, [live_url base_url; ready_url base_url])
      | None =>
          (generate_success_response (Some ready_message),
           [live_url base_url; ready_url base_url])
      end
  end.

(** [flux_nim_ready_check(params, context, system_info)]. *)
Definition flux_nim_ready_check
    (file : ConfigFile) (g : Globals) (params context system_info : json)
  : Response * Globals * list string :=
  let g' := load_config file g in
  if negb (truthy (FLUX_NIM_URL g')) then
    (generate_failure_response
       (Some "FLUX_NIM_URL not configured. Please set FLUX_NIM_URL in config.json"),
     g', [])
  else
    match startswith_method (FLUX_NIM_URL g') HOSTED_PREFIX with
    | Raise e =>
        (generate_failure_response
           (Some ("Error in flux_nim_ready_check: " +:+ str_exn e)), g', [])
    | Ok true =>
        (generate_success_response (Some "Using NVIDIA hosted Flux service"), g', [])
    | Ok false =>
        let '(r, opened) := health_checks (FLUX_NIM_URL g') "Service is live and ready!" in
        (r, g', opened)
    end.

(** [flux_kontext_nim_ready_check(params, context, system_info)]. *)
Definition flux_kontext_nim_ready_check
    (file : ConfigFile) (g : Globals) (params context system_info : json)
  : Response * Globals * list string :=
  let g' := load_config file g in
  if negb (truthy (FLUX_KONTEXT_NIM_URL g')) then
    (generate_failure_response
       (Some "FLUX_KONTEXT_NIM_URL not configured. Please set FLUX_KONTEXT_NIM_URL in config.json"),
     g', [])
  else
    let '(r, opened) :=
      health_checks (FLUX_KONTEXT_NIM_URL g') "Flux Kontext NIM service is live and ready!" in
    (r, g', opened).

(** *** Facts *)

(** The endpoint answered, and with 200. *)
Definition passes (url : string) : bool :=
  match urlopen url with
  | ProbeStatus status => status =? 200
  | ProbeRaises _ => false
  end.

Lemma probe_passes name url :
  probe name url = None <-> passes url = true.
Proof.
  unfold probe, passes. destruct (urlopen url) as [status|e].
  - destruct (status =? 200); cbn; split; congruence.
  - split; discriminate.
Qed.

Lemma probe_failure name url r : probe name url = Some r -> success r = false.
Proof.
  unfold probe. destruct (urlopen url) as [status|e].
  - destruct (negb (status =? 200)); [|discriminate]. now intros [= <-].
  - now intros [= <-].
Qed.

Lemma health_checks_outcome base_url ready_message :
  ready_message <> "" ->
  success (health_checks base_url ready_message).1
  = passes (live_url base_url) && passes (ready_url base_url) /\
  (health_checks base_url ready_message).2
  = if passes (live_url base_url) then [live_url base_url; ready_url base_url]
    else [live_url base_url].
Proof.
  intros Hm. unfold health_checks.
  destruct (probe "Live" (live_url base_url)) as [r|] eqn:Hl.
  - cbn [fst snd]. rewrite (probe_failure _ _ _ Hl).
    destruct (passes (live_url base_url)) eqn:Hp.
    + apply (proj2 (probe_passes "Live" _)) in Hp. rewrite Hp in Hl. discriminate.
    + split; reflexivity.
  - apply probe_passes in Hl. rewrite Hl.
    destruct (probe "Ready" (ready_url base_url)) as [r|] eqn:Hr.
    + cbn [fst snd]. rewrite (probe_failure _ _ _ Hr).
      destruct (passes (ready_url base_url)) eqn:Hp.
      * apply (proj2 (probe_passes "Ready" _)) in Hp. rewrite Hp in Hr. discriminate.
      * split; reflexivity.
    + apply probe_passes in Hr. rewrite Hr. split; reflexivity.
Qed.

(** The Kontext check succeeds exactly when the URL is configured and
    both endpoints answer 200.  Without a URL nothing is opened; the
    live endpoint is opened first, and the ready endpoint only after the
    live one answered 200. *)
Theorem kontext_ready_check_opens_live_then_ready
    (file : ConfigFile) (g : Globals) (params context system_info : json) :
  let url := FLUX_KONTEXT_NIM_URL (load_config file g) in
  let out := flux_kontext_nim_ready_check file g params context system_info in
  success out.1.1 = truthy url && passes (live_url url) && passes (ready_url url) /\
  out.2 = if truthy url
          then if passes (live_url url) then [live_url url; ready_url url]
               else [live_url url]
          else [].
Proof.
  cbv zeta. unfold flux_kontext_nim_ready_check.
  destruct (truthy (FLUX_KONTEXT_NIM_URL (load_config file g))); cbn [negb];
    [|split; reflexivity].
  destruct (health_checks_outcome (FLUX_KONTEXT_NIM_URL (load_config file g))
              "Flux Kontext NIM service is live and ready!" ltac:(discriminate))
    as [Hs Ho].
  destruct (health_checks _ _) as [r opened]. cbn [fst snd andb] in *.
  split; assumption.
Qed.

(** With the hosted endpoint configured the check answers success
    without opening any URL, whatever the key; with any other string it
    succeeds exactly when both endpoints answer 200. *)
Theorem hosted_service_is_never_probed
    (file : ConfigFile) (g : Globals) (params context system_info : json) (url : string) :
  FLUX_NIM_URL (load_config file g) = JStr url ->
  url <> "" ->
  let out := flux_nim_ready_check file g params context system_info in
  if String.prefix HOSTED_PREFIX url
  then success out.1.1 = true /\ out.2 = []
  else success out.1.1 = passes (live_url (JStr url)) && passes (ready_url (JStr url)) /\
       out.2 <> [].
Proof.
  intros Hurl Hne. cbv zeta. unfold flux_nim_ready_check. rewrite Hurl.
  cbn [truthy startswith_method]. apply String.eqb_neq in Hne. rewrite Hne. cbn [negb].
  destruct (String.prefix HOSTED_PREFIX url); [split; reflexivity|].
  destruct (health_checks_outcome (JStr url) "Service is live and ready!"
              ltac:(discriminate)) as [Hs Ho].
  destruct (health_checks _ _) as [r opened]. cbn [fst snd] in *.
  split; [exact Hs|]. rewrite Ho. now destruct (passes _).
Qed.

End Checks.

Lemma hosted_service_is_never_probed_witness :
  let out := flux_nim_ready_check (H := Sample.runtime) (fun _ => ProbeRaises ConnectionError)
               (CfgJson (JDict [("GALLERY_DIRECTORY", JStr "C:/shots")]))
               (initial_globals "C:/out") JNull JNull JNull in
  success out.1.1 = true /\ out.2 = [].
Proof.
  exact (hosted_service_is_never_probed (H := Sample.runtime)
           (fun _ => ProbeRaises ConnectionError)
           (CfgJson (JDict [("GALLERY_DIRECTORY", JStr "C:/shots")]))
           (initial_globals "C:/out") JNull JNull JNull
           BUILD_NVIDIA_COM_FLUX_HOSTED_NIM eq_refl ltac:(discriminate)).
Defined.

End Health.

(* ================================================================== *)
(** ** Containers: [check_nim_status], [start_nim] and their Kontext twins *)
(* ================================================================== *)

Module Containers.
Import Py Envelope Kontext.
Local Open Scope string_scope.
Local Open Scope list_scope.
Local Open Scope Z_scope.

(** What [subprocess.run(cmd, check=True, capture_output=True,
    text=True)] comes to. *)
Inductive Failure : Type :=
| NotFound                       (* FileNotFoundError *)
| Other (text : string).         (* any other exception, with its [str] *)

Inductive Proc : Type :=
| Exited (stdout : string)
| Raised (f : Failure).

(** The literals in which the two families of handlers differ. *)
Record Names : Type := mkNames {
  container : string;
  image : string;
  status_label : string;
  already_label : string;
  start_name : string;
  url_of : Globals -> json
}.

Definition flux : Names :=
  {| container := "nim-server";
     image := "nvcr.io/nim/black-forest-labs/flux.1-dev:1.0.0";
     status_label := "NIM server";
     already_label := "Flux NIM server";
     start_name := "start_nim";
     url_of := FLUX_NIM_URL |}.

Definition kontext : Names :=
  {| container := "FLUX_KONTEXT";
     image := "nvcr.io/nim/black-forest-labs/flux.1-kontext-dev:latest";
     status_label := "Flux Kontext NIM server";
     already_label := "Flux Kontext NIM server";
     start_name := "start_flux_kontext_nim";
     url_of := FLUX_KONTEXT_NIM_URL |}.

(** [s.split(":")]: the current piece is kept in [piece]. *)
Fixpoint split_colon (s piece : string) : list string :=
  match s with
  | EmptyString => [piece]
  | String c rest =>
      if Ascii.eqb c ":" then piece :: split_colon rest ""
      else split_colon rest (piece +:+ String c EmptyString)
  end.

(** [x.split(":")[-1]]: [split] is a [str] method. *)
Definition port_of (x : json) : result string :=
  match x with
  | JStr s => Ok (List.last (split_colon s "") "")
  | _ => Raise AttributeError
  end.

(** [not v or v == placeholder]. *)
Definition unset (v : json) (placeholder : string) : bool :=
  negb (truthy v) || py_eq v (JStr placeholder).

Section Handlers.
Context `{Runtime}.
Variable run : list string -> Proc.
(** [s.strip()]. *)
Variable strip : string -> string.

(** The three [except] clauses around [subprocess.run]. *)
Definition handled (f : Failure) (what : string) : Response :=
  match f with
  | NotFound => generate_failure_response (Some "WSL or podman command not found")
  | Other text => generate_failure_response (Some (what +:+ text))
  end.

Definition check_cmd (n : Names) : list string :=
  ["wsl"; "-d"; "NVIDIA-Workbench"; "podman"; "ps"; "--filter";
   "name=" +:+ container n; "--format"; "{{.Names}}"].

(** [check_nim_status()] and [check_flux_kontext_nim_status()]. *)
Definition check_status (n : Names) : Response :=
  match run (check_cmd n) with
  | Exited stdout =>
      let container_names := strip stdout in
      if truthy (JStr container_names) then
        generate_success_response
          (Some (status_label n +:+ " is running. Container: " +:+ container_names))
      else generate_failure_response (Some (status_label n +:+ " is not running."))
  | Raised f => handled f ("Error checking " +:+ status_label n +:+ " status: ")
  end.

Definition podman_cmd (n : Names) (g : Globals) (port : string) : list string :=
  ["wsl"; "-d"; "NVIDIA-Workbench"; "podman"; "run"; "-d"; "--rm";
   "--name=" +:+ container n; "--device"; "nvidia.com/gpu=all";
   "-e"; "NGC_API_KEY=" +:+ py_str (NGC_API_KEY g);
   "-e"; "HF_TOKEN=" +:+ py_str (HF_TOKEN g);
   "-p"; port +:+ ":8000";
   "-v"; py_str (LOCAL_NIM_CACHE g) +:+ ":/opt/nim/.cache/";
   image n].

(** [start_nim(params, context, system_info)] and
    [start_flux_kontext_nim(params, context, system_info)]: the
    envelope, the globals after the reload and the commands run. *)
Definition start (n : Names)
    (file : ConfigFile) (g : Globals) (params context system_info : json)
  : Response * Globals * list (list string) :=
  let g' := load_config file g in
  if unset (NGC_API_KEY g') "YOUR_NGC_API_KEY_HERE" then
    (generate_failure_response
       (Some "NGC API key not configured. Please set NGC_API_KEY in config.json"), g', [])
  else if unset (HF_TOKEN g') "YOUR_HF_TOKEN_HERE" then
    (generate_failure_response
       (Some "HF Token not configured. Please set HF_TOKEN in config.json"), g', [])
  else if unset (LOCAL_NIM_CACHE g') "/path/to/your/nim/cache" then
    (generate_failure_response
       (Some "Local NIM cache path not configured. Please set LOCAL_NIM_CACHE in config.json"),
     g', [])
  else if success (check_status n) then
    (generate_failure_response (Some (already_label n +:+ " is already running.")),
     g', [check_cmd n])
  else
    match port_of (url_of n g') with
    | Raise e =>
        (generate_failure_response
           (Some ("Error in " +:+ start_name n +:+ ": " +:+ str_exn e)),
         g', [check_cmd n])
    | Ok port =>
        let cmd := podman_cmd n g' port in
        match run cmd with
        | Exited _ =>
            (generate_success_response (Some (status_label n +:+ " started successfully.")),
             g', [check_cmd n; cmd])
        | Raised f =>
            (handled f ("Error starting " +:+ status_label n +:+ ": "),
             g', [check_cmd n; cmd])
        end
    end.

(** *** Facts *)

Fixpoint has_colon (s : string) : bool :=
  match s with
  | EmptyString => false
  | String c rest => Ascii.eqb c ":" || has_colon rest
  end.

Lemma has_colon_app a b : has_colon (a +:+ b) = has_colon a || has_colon b.
Proof.
  induction a as [|c a IH]; [reflexivity|].
  change (String c a +:+ b) with (String c (a +:+ b)).
  cbn [has_colon]. now rewrite IH, orb_assoc.
Qed.

Lemma append_assoc (a b c : string) : (a +:+ b) +:+ c = a +:+ (b +:+ c).
Proof.
  induction a as [|x a IH]; [reflexivity|].
  change ((String x a +:+ b) +:+ c) with (String x ((a +:+ b) +:+ c)).
  change (String x a +:+ (b +:+ c)) with (String x (a +:+ (b +:+ c))).
  now rewrite IH.
Qed.

Lemma append_nil_r (a : string) : a +:+ "" = a.
Proof.
  induction a as [|x a IH]; [reflexivity|].
  change (String x a +:+ "") with (String x (a +:+ "")). now rewrite IH.
Qed.

Lemma split_colon_nonempty s piece : split_colon s piece <> [].
Proof.
  revert piece. induction s as [|c s IH]; intros piece; [discriminate|].
  cbn [split_colon]. destruct (Ascii.eqb c ":"); [discriminate|apply IH].
Qed.

(** The last piece has no colon, and what was split ends with it: it is
    the whole text when there is no colon, and follows a colon
    otherwise. *)
Lemma last_piece s piece :
  has_colon piece = false ->
  let port := List.last (split_colon s piece) "" in
  has_colon port = false /\
  ((has_colon s = false /\ port = piece +:+ s) \/
   (exists before, piece +:+ s = before +:+ ":" +:+ port)).
Proof.
  revert piece. induction s as [|c s IH]; intros piece Hp; cbv zeta.
  - cbn. split; [exact Hp|]. left. split; [reflexivity|]. now rewrite append_nil_r.
  - cbn [split_colon has_colon]. destruct (Ascii.eqb_spec c ":") as [->|Hc].
    + pose proof (split_colon_nonempty s "") as Hne.
      destruct (split_colon s "") as [|x xs] eqn:Hs; [congruence|].
      change (List.last (piece :: x :: xs) "") with (List.last (x :: xs) "").
      rewrite <- Hs. destruct (IH "" eq_refl) as [Hport Hcase].
      split; [exact Hport|]. right.
      set (port := List.last (split_colon s "") "") in *.
      destruct Hcase as [[_ Heq]|(before & Heq)]; change ("" +:+ s) with s in Heq.
      * exists piece. now rewrite Heq.
      * exists (piece +:+ ":" +:+ before). rewrite Heq.
        now rewrite !append_assoc.
    + assert (Hp' : has_colon (piece +:+ String c "") = false).
      { rewrite has_colon_app, Hp. cbn. apply Ascii.eqb_neq in Hc. now rewrite Hc. }
      destruct (IH _ Hp') as [Hport Hcase]. split; [exact Hport|].
      assert (Heq : (piece +:+ String c "") +:+ s = piece +:+ String c s)
        by now rewrite append_assoc.
      destruct Hcase as [[Hs Hport']|(before & Hb)].
      * left. split; [exact Hs|]. now rewrite Hport', Heq.
      * right. exists before. now rewrite <- Heq.
Qed.

Lemma unset_false v placeholder :
  unset v placeholder = false -> truthy v = true /\ v <> JStr placeholder.
Proof.
  unfold unset. intros Hu. apply orb_false_iff in Hu as [Ht He].
  apply negb_false_iff in Ht. split; [exact Ht|].
  intros ->. cbn in He. now rewrite String.eqb_refl in He.
Qed.

(** A container is started only when the three settings are filled in
    with something other than their placeholders and the status check
    did not report a running container - a status check that could not
    be run does not hold the start back.  The host port it is given is
    the text after the last colon of the configured URL (the whole URL
    when it has none), and the status check is always the command run
    before it. *)
Theorem container_started_only_when_configured
    (n : Names) (file : ConfigFile) (g : Globals) (params context system_info : json)
    (cmd : list string) :
  let g' := load_config file g in
  let out := start n file g params context system_info in
  In cmd out.2 -> cmd <> check_cmd n ->
  (truthy (NGC_API_KEY g') = true /\ NGC_API_KEY g' <> JStr "YOUR_NGC_API_KEY_HERE") /\
  (truthy (HF_TOKEN g') = true /\ HF_TOKEN g' <> JStr "YOUR_HF_TOKEN_HERE") /\
  (truthy (LOCAL_NIM_CACHE g') = true /\
   LOCAL_NIM_CACHE g' <> JStr "/path/to/your/nim/cache") /\
  success (check_status n) = false /\
  exists url port,
    url_of n g' = JStr url /\
    has_colon port = false /\
    ((has_colon url = false /\ port = url) \/ exists before, url = before +:+ ":" +:+ port) /\
    cmd = podman_cmd n g' port /\
    out.2 = [check_cmd n; cmd] /\
    success out.1.1 = match run cmd with Exited _ => true | Raised _ => false end.
Proof.
  cbv zeta. unfold start. set (g' := load_config file g).
  destruct (unset (NGC_API_KEY g') _) eqn:Hk; [intros []|].
  destruct (unset (HF_TOKEN g') _) eqn:Ht; [intros []|].
  destruct (unset (LOCAL_NIM_CACHE g') _) eqn:Hc; [intros []|].
  apply unset_false in Hk, Ht, Hc.
  destruct (success (check_status n)) eqn:Hs.
  { cbn [snd]. intros [<-|[]] Hne. congruence. }
  unfold port_of. destruct (url_of n g') as [| | | |url| |] eqn:Hu;
    try (cbn [snd]; intros [<-|[]] Hne; congruence).
  destruct (last_piece url "" eq_refl) as [Hport Hcase]. cbn [append] in Hcase.
  set (port := List.last (split_colon url "") "") in *.
  assert (Hin : In cmd [check_cmd n; podman_cmd n g' port] -> cmd <> check_cmd n ->
                cmd = podman_cmd n g' port).
  { intros [<-|[<-|[]]] Hne; congruence. }
  destruct (run (podman_cmd n g' port)) as [stdout|[|text]] eqn:Hr; cbn [fst snd];
    intros Hcmd Hne; specialize (Hin Hcmd Hne); subst cmd; rewrite Hr;
    (repeat split; try tauto); exists url, port; repeat split; try assumption;
    reflexivity.
Qed.

End Handlers.

(** *** A start with the shipped defaults *)

Definition filled_in : ConfigFile :=
  CfgJson (JDict [("NGC_API_KEY", JStr "ngc-1"); ("HF_TOKEN", JStr "hf-1");
                  ("LOCAL_NIM_CACHE", JStr "/home/me/.cache/nim")]).

(** No container is listed, and every command exits normally. *)
Definition idle_host (cmd : list string) : Proc := Exited "".

Lemma container_started_only_when_configured_witness :
  let out := start (H := Sample.runtime) idle_host (fun s => s) flux filled_in
               (initial_globals "C:/out") JNull JNull JNull in
  exists cmd,
    out.2 = [check_cmd flux; cmd] /\
    nth 15 cmd "" = "//ai.api.nvidia.com/v1/genai/black-forest-labs/flux.1-dev:8000" /\
    success out.1.1 = true.
Proof.
  cbv zeta.
  set (cmd := podman_cmd (H := Sample.runtime) flux
                (load_config filled_in (initial_globals "C:/out"))
                "//ai.api.nvidia.com/v1/genai/black-forest-labs/flux.1-dev").
  assert (Hin : In cmd (start (H := Sample.runtime) idle_host (fun s => s) flux filled_in
                          (initial_globals "C:/out") JNull JNull JNull).2).
  { right. left. reflexivity. }
  assert (Hne : cmd <> check_cmd flux) by discriminate.
  destruct (container_started_only_when_configured (H := Sample.runtime) idle_host
              (fun s => s) flux filled_in (initial_globals "C:/out") JNull JNull JNull
              cmd Hin Hne)
    as (_ & _ & _ & _ & url & port & _ & _ & _ & _ & Hout & Hs).
  exists cmd. split; [exact Hout|]. split; [reflexivity|]. rewrite Hs. reflexivity.
Defined.

End Containers.
